(** * Mathics random numbers: a shallow embedding of
      [mathics/builtin/randomnumbers.py]

    The module keeps numpy's global Mersenne Twister state in the evaluator's
    configuration slot [$RandomState], encoded as one big integer, and offers
    the builtins [SeedRandom], [RandomInteger], [RandomReal], [RandomComplex],
    [RandomChoice] and [RandomSample] on top of it.

    Layout of this file: Python results and the hexadecimal helpers; the
    evaluator's expressions; Python values and numpy arrays; [_from_numpy];
    MD5; numpy's generator and pickle as an interface; the functions and
    classes of the source, in source order; a small reference host to run
    the program on; then the properties. *)

From Stdlib Require Import ZArith NArith QArith Qround Qabs Qpower Lia Lqa Ascii String.
From Stdlib.Strings Require Import Byte.
From Stdlib Require Import Hexadecimal HexadecimalString HexadecimalN HexadecimalFacts.
From stdpp Require Import base option list gmap strings.

Local Open Scope string_scope.
Local Open Scope Z_scope.
#[local] Set Warnings "-register-all".

(** ** Python results: a value or a raised exception *)

Inductive exn : Type :=
  | ValueError
  | TypeError
  | IndexError
  | OverflowError
  | binascii_Error
  | UnpicklingError.

Inductive outcome (A : Type) : Type :=
  | Ret (a : A)
  | Raise (e : exn).
Arguments Ret {A} a.
Arguments Raise {A} e.

#[global] Instance outcome_ret : MRet outcome := @Ret.
#[global] Instance outcome_bind : MBind outcome := fun A B k m =>
  match m with
  | Ret a => k a
  | Raise e => Raise e
  end.

(** [[f(x) for x in xs]] where [f] may raise: the first exception wins. *)
Fixpoint comprehension {A B} (f : A -> outcome B) (xs : list A) : outcome (list B) :=
  match xs with
  | [] => Ret []
  | x :: xs' =>
      y ← f x;
      ys ← comprehension f xs';
      Ret (y :: ys)
  end.

(** ** Hexadecimal text: [binascii.b2a_hex], [int(_, 16)], [hex], [binascii.a2b_hex] *)

Module Hex.

(** One lower-case hexadecimal digit: ["0"] is code 48, ["a"] is code 97;
    [n] is taken modulo 16. *)
Definition digit (n : N) : ascii :=
  let d := (n mod 16)%N in
  ascii_of_N (if (d <? 10)%N then 48 + d else 87 + d)%N.

(** The value of a digit as [binascii.a2b_hex] reads it, in either case
    (["A"] is code 65). *)
Definition value (c : ascii) : option N :=
  let code := N_of_ascii c in
  if ((48 <=? code) && (code <=? 57))%N then Some (code - 48)%N
  else if ((97 <=? code) && (code <=? 102))%N then Some (code - 87)%N
  else if ((65 <=? code) && (code <=? 70))%N then Some (code - 55)%N
  else None.

(** [binascii.b2a_hex(data)]: two digits per byte, high nibble first. *)
Fixpoint b2a_hex (data : list byte) : string :=
  match data with
  | [] => EmptyString
  | b :: rest =>
      String (digit (Byte.to_N b / 16))
        (String (digit (Byte.to_N b mod 16)) (b2a_hex rest))
  end.

(** [binascii.a2b_hex(text)]: raises [binascii.Error] on an odd number of
    digits or on a character that is no digit. *)
Fixpoint a2b_hex (text : string) : outcome (list byte) :=
  match text with
  | EmptyString => Ret []
  | String _ EmptyString => Raise binascii_Error
  | String hi (String lo rest) =>
      match value hi, value lo with
      | Some h, Some l =>
          match Byte.of_N (16 * h + l) with
          | Some b =>
              bs ← a2b_hex rest;
              Ret (b :: bs)
          | None => Raise binascii_Error
          end
      | _, _ => Raise binascii_Error
      end
  end.

(** [int(text, 16)] on the digit strings [b2a_hex] produces: the empty
    string and any character outside [0-9a-f] raise [ValueError]. *)
Definition int16 (text : string) : outcome Z :=
  match NilZero.uint_of_string text with
  | Some d => Ret (Z.of_N (N.of_hex_uint d))
  | None => Raise ValueError
  end.

(** [hex(n)]: ["0x"] and the digits without leading zeros, ["-0x..."] for a
    negative number, and a trailing ["L"] where the interpreter prints longs
    that way (Python 2). *)
Definition hex (long_suffix : bool) (n : Z) : string :=
  String.append (if (n <? 0)%Z then "-" else "")
    (String.append "0x"
       (String.append (NilZero.string_of_uint (N.to_hex_uint (Z.abs_N n)))
          (if long_suffix then "L" else ""))).

(** [text[2:]] *)
Definition drop2 (text : string) : string :=
  match text with
  | String _ (String _ rest) => rest
  | _ => EmptyString
  end.

(** [text.rstrip('L')]: every trailing ["L"] goes. *)
Fixpoint rstrip_L (text : string) : string :=
  match text with
  | EmptyString => EmptyString
  | String c rest =>
      match rstrip_L rest with
      | EmptyString => if Ascii.eqb c "L" then EmptyString else String c EmptyString
      | rest' => String c rest'
      end
  end.

End Hex.

(** ** The evaluator's expressions

    The expression classes come from [mathics.core.expression]; the source
    imports [Integer], [String], [Symbol], [Real], [Expression] and
    [Complex].  A [Real] carries the rational value of its number, a
    [Complex] those of its two parts; where such a number becomes a Python
    float it is rounded to a double (see [Double] below). *)

Inductive Expr : Type :=
  | Integer (value : Z)
  | Real (value : Q)
  | Complex (re im : Q)
  | String (value : string)
  | Symbol (name : string)
  | Expression (head : string) (leaves : list Expr).

(** [expr.get_head_name()], with the [System`] context the evaluator adds. *)
Definition get_head_name (e : Expr) : string :=
  match e with
  | Integer _ => "System`Integer"
  | Real _ => "System`Real"
  | Complex _ _ => "System`Complex"
  | String _ => "System`String"
  | Symbol _ => "System`Symbol"
  | Expression head _ => String.append "System`" head
  end.

(** [expr.leaves]; atoms have none. *)
Definition leaves_of (e : Expr) : list Expr :=
  match e with
  | Expression _ ls => ls
  | _ => []
  end.

(** The shape [{n1, ..., nk}] as the evaluator passes it. *)
Definition shape_expr (dims : list Z) : Expr := Expression "List" (List.map Integer dims).

(** A diagnostic as [evaluation.message(symbol, tag, *args)] records it. *)
Record Message : Type := mkMessage {
  msg_symbol : string;
  msg_tag : string;
  msg_args : list Expr;
}.

(** ** Python values

    What [to_python] hands over and what the source then passes around
    untyped: numbers, lists, the pair a helper returns, [None]. *)

Inductive PyVal : Type :=
  | PyNone
  | PyBool (b : bool)
  | PyInt (n : Z)
  | PyFloat (x : Q)
  | PyComplex (re im : Q)
  | PyStr (s : string)
  | PyList (items : list PyVal)
  | PyTuple (items : list PyVal)
  | PyObject (e : Expr).

(** Modelled from the spec: [expr.to_python()] of [mathics.core.expression],
    the conversion of symbolic numbers to host-native ones.  A [List]
    converts leaf by leaf, the symbols [True], [False] and [Null] become the
    Python constants, any other compound expression stays an object. *)
Fixpoint to_python (e : Expr) : PyVal :=
  match e with
  | Integer n => PyInt n
  | Real x => PyFloat x
  | Complex re im => PyComplex re im
  | String s => PyStr s
  | Symbol name =>
      if String.eqb name "True" then PyBool true
      else if String.eqb name "False" then PyBool false
      else if String.eqb name "Null" then PyNone
      else PyStr name
  | Expression head ls =>
      if String.eqb head "List" then PyList (List.map to_python ls)
      else PyObject e
  end.

(** Modelled from the spec: [expr.is_numeric()] of [mathics.core.expression];
    the numeric atoms are numeric. *)
Definition is_numeric (e : Expr) : bool :=
  match e with
  | Integer _ | Real _ | Complex _ _ => true
  | _ => false
  end.

(** Iterating an expression itself ([for i in size], [for w in weights]):
    the expression classes of [mathics.core.expression] offer their leaves
    through [.leaves] and define no iteration, so Python's [iter] raises
    [TypeError], for a compound expression as for an atom. *)
Definition iter_expr (e : Expr) : outcome (list Expr) := Raise TypeError.

(** Iterating a Python value ([for i in py_size]). *)
Definition iter_py (v : PyVal) : outcome (list PyVal) :=
  match v with
  | PyList items | PyTuple items => Ret items
  | _ => Raise TypeError
  end.

(** [isinstance(i, int) and i >= 0]; [bool] is a subclass of [int]. *)
Definition is_nonneg_int (v : PyVal) : bool :=
  match v with
  | PyInt n => 0 <=? n
  | PyBool _ => true
  | _ => false
  end.

(** [isinstance(w, (int, float)) and w >= 0] *)
Definition is_nonneg_number (v : PyVal) : bool :=
  match v with
  | PyInt n => 0 <=? n
  | PyBool _ => true
  | PyFloat x => Qle_bool 0 x
  | _ => false
  end.

(** ** Python floats

    A Python [float], and each part of a Python [complex], is an IEEE 754
    binary64 number; it is carried by its rational value.  [nearest] is the
    rounding that turns an exact number into a double: to the nearest one,
    halves to the even side, 53 significant bits, steps of [2^-1074] below
    the normal range.  A magnitude of [huge] or more has no double. *)

Module Double.

(** [2^e], for any integer [e]. *)
Definition pow2 (e : Z) : Q := Qpower 2%Q e.

(** The exponent [e] with [2^e <= x < 2^(e+1)], for a positive [x]. *)
Definition exponent (x : Q) : Z :=
  let e := Z.log2 (Qnum x) - Z.log2 (Zpos (Qden x)) in
  if Qle_bool (pow2 e) x then e else e - 1.

(** The nearest integer, a half going to the even side. *)
Definition round_half_even (x : Q) : Z :=
  let f := Qfloor x in
  match Qcompare (x - inject_Z f)%Q (1 # 2)%Q with
  | Lt => f
  | Gt => f + 1
  | Eq => if Z.even f then f else f + 1
  end.

(** The distance between the doubles next to [x]. *)
Definition quantum (x : Q) : Q :=
  pow2 (Z.max (exponent (Qabs x) - 52) (-1074)).

Definition nearest (x : Q) : Q :=
  if Qeq_bool x 0%Q then 0%Q
  else Qred (inject_Z (round_half_even (x / quantum x)%Q) * quantum x)%Q.

(** The least magnitude that rounds to an infinity: the largest double and
    half a step. *)
Definition huge : Q := (pow2 1024 - pow2 970)%Q.

Definition finite (x : Q) : bool := negb (Qle_bool huge (Qabs x)).

End Double.

(** [float(x)] for an exact number [x], as Python applies it to an [int]
    and to each part of a [complex]: [OverflowError] when [x] has no
    double. *)
Definition as_double (x : Q) : outcome Q :=
  if Double.finite x then Ret (Double.nearest x) else Raise OverflowError.

(** A scalar bound as numpy reads it, a C double.  A float is one already;
    one that stands for an infinity makes the range infinite, which numpy
    answers with [OverflowError] as well. *)
Definition np_double (v : PyVal) : outcome Q :=
  match v with
  | PyFloat x => if Double.finite x then Ret x else Raise OverflowError
  | PyInt n => as_double (inject_Z n)
  | PyBool b => Ret (if b then 1%Q else 0%Q)
  | _ => Raise TypeError
  end.

(** ** numpy arrays: a shape and the elements in row-major order *)

Record ndarray (A : Type) : Type := mkArray {
  shape : list nat;
  flat : list A;
}.
Arguments mkArray {A} shape flat.
Arguments shape {A} _.
Arguments flat {A} _.

(** A numpy scalar: [x.shape == ()]. *)
Definition scalar {A} (x : A) : ndarray A := mkArray [] [x].

(** The value of a numpy scalar. *)
Definition item {A} (x : ndarray A) : outcome A :=
  match x with
  | mkArray [] [v] => Ret v
  | _ => Raise TypeError
  end.

(** The number of elements a shape holds. *)
Definition size_of (sh : list nat) : nat := fold_right Nat.mul 1%nat sh.

(** [a[k]] along the leading axis of an array whose rows have shape [sh]. *)
Definition row {A} (sh : list nat) (data : list A) (k : nat) : ndarray A :=
  mkArray sh (take (size_of sh) (drop (k * size_of sh) data)).

(** The largest array index ([npy_intp], 64 bits). *)
Definition intp_max : Z := 9223372036854775807.

(** One entry of the [size] argument of a numpy draw.  A negative entry
    raises [ValueError] ("negative dimensions are not allowed"), so does one
    beyond [intp_max] ("Maximum allowed dimension exceeded"); anything that
    is no integer, [True] and [False] included, raises [TypeError]. *)
Definition np_dimension (v : PyVal) : outcome Z :=
  match v with
  | PyInt n => if (n <? 0) || (intp_max <? n) then Raise ValueError else Ret n
  | _ => Raise TypeError
  end.

(** The bytes numpy counts for an array of 8-byte items (doubles, 64-bit
    integers): the product over the axes that are not 0. *)
Definition np_nbytes (dims : list Z) : Z :=
  8 * fold_right Z.mul 1 (List.filter (fun n => negb (n =? 0)) dims).

(** The [size] argument: a list (or tuple) of entries, or one entry.  An
    array whose bytes cannot be counted in an [npy_intp] is refused with
    [ValueError] ("array is too big").  Memory itself is taken to suffice. *)
Definition np_size (size : PyVal) : outcome (list nat) :=
  dims ← match size with
         | PyList items | PyTuple items => comprehension np_dimension items
         | _ => n ← np_dimension size; Ret [n]
         end;
  if intp_max <? np_nbytes dims then Raise ValueError
  else Ret (List.map Z.to_nat dims).

(** [numpy.stack([a, b], axis=-1)]: the two arrays must agree in shape; the
    result pairs their elements along a new innermost axis of length 2.  It
    is a new array of doubles, whose bytes are counted like those of any
    other. *)
Fixpoint interleave {A} (xs ys : list A) : list A :=
  match xs, ys with
  | x :: xs', y :: ys' => x :: y :: interleave xs' ys'
  | _, _ => []
  end.

Definition numpy_stack_last {A} (a b : ndarray A) : outcome (ndarray A) :=
  if decide (shape a = shape b) then
    let sh := (shape a ++ [2%nat])%list in
    if intp_max <? np_nbytes (List.map Z.of_nat sh) then Raise ValueError
    else Ret (mkArray sh (interleave (flat a) (flat b)))
  else Raise ValueError.

(** What [numpy.asarray] makes of a Python value when it is a regular nest
    of numbers; [None] otherwise (ragged, or holding something that is no
    number). *)
Fixpoint asarray (v : PyVal) : option (ndarray Q) :=
  match v with
  | PyBool b => Some (scalar (if b then 1%Q else 0%Q))
  | PyInt n => Some (scalar (inject_Z n))
  | PyFloat x => Some (scalar x)
  | PyList items | PyTuple items =>
      let subs := List.map asarray items in
      match subs with
      | [] => Some (mkArray [0%nat] [])
      | Some first :: _ =>
          if forallb (fun o => match o with
                               | Some a => bool_decide (shape a = shape first)
                               | None => false
                               end) subs
          then Some (mkArray (length items :: shape first)
                       (concat (List.map (fun o => match o with
                                                   | Some a => flat a
                                                   | None => []
                                                   end) subs)))
          else None
      | None :: _ => None
      end
  | _ => None
  end.

(** [numpy.sum(v)]: the total of a regular nest of numbers.  On anything
    else numpy adds up Python objects (or refuses to build the array) and an
    exception comes out. *)
Definition numpy_sum (v : PyVal) : outcome Q :=
  match asarray v with
  | Some a => Ret (fold_right Qplus 0%Q (flat a))
  | None => Raise TypeError
  end.

(** [v /= total] for a sequence on the left and a numpy float on the right:
    numpy takes over the division and returns the array of quotients. *)
Definition py_itruediv (v : PyVal) (total : Q) : outcome PyVal :=
  match asarray v with
  | Some a => Ret (PyList (List.map (fun x => PyFloat (x / total)%Q) (flat a)))
  | None => Raise TypeError
  end.

(** [len(v)] *)
Definition py_len (v : PyVal) : outcome nat :=
  match v with
  | PyList items | PyTuple items => Ret (length items)
  | PyStr s => Ret (String.length s)
  | _ => Raise TypeError
  end.

(** ** [_from_numpy]

    [a] is given by its shape and elements.  When the number of axes left
    equals [d] the rows of [a] go to [new_element]; otherwise the function
    descends along the leading axis.  Asking a 0-d array for [shape[0]]
    raises [IndexError], iterating over it raises [TypeError]. *)
Fixpoint _from_numpy_rec {A} (new_element : ndarray A -> outcome Expr) (d : nat)
    (sh : list nat) (data : list A) {struct sh} : outcome Expr :=
  if (length sh =? d)%nat then
    match sh with
    | [] => Raise TypeError
    | n :: sh' =>
        leaves ← comprehension new_element (List.map (row sh' data) (seq 0 n));
        Ret (Expression "List" leaves)
    end
  else
    match sh with
    | [] => Raise IndexError
    | n :: sh' =>
        leaves ← comprehension
                   (fun k => _from_numpy_rec new_element d sh' (flat (row sh' data k)))
                   (seq 0 n);
        Ret (Expression "List" leaves)
    end.

Definition _from_numpy {A} (a : ndarray A) (new_element : ndarray A -> outcome Expr)
    (d : nat) : outcome Expr :=
  _from_numpy_rec new_element d (shape a) (flat a).


(** The leaf constructors the builtins pass as [new_element]. *)

(** [Integer(x)] and [Real(x)] for a numpy scalar [x]. *)
Definition new_Integer (x : ndarray Z) : outcome Expr :=
  match x with
  | mkArray [] [v] => Ret (Integer v)
  | _ => Raise TypeError
  end.

Definition new_Real (x : ndarray Q) : outcome Expr :=
  match x with
  | mkArray [] [v] => Ret (Real v)
  | _ => Raise TypeError
  end.

(** The lambda that unpacks [c] into the arguments of [Complex]: [c] must
    hold exactly the real and the imaginary part. *)
Definition new_Complex (c : ndarray Q) : outcome Expr :=
  match c with
  | mkArray [_] [re; im] => Ret (Complex re im)
  | _ => Raise TypeError
  end.

(** [lambda i: elements[i]] *)
Definition new_element_of (elements : list Expr) (i : ndarray nat) : outcome Expr :=
  match i with
  | mkArray [] [k] =>
      match elements !! k with
      | Some e => Ret e
      | None => Raise IndexError
      end
  | _ => Raise TypeError
  end.

(** [xs[k]] on a Python list *)
Definition py_index {A} (xs : list A) (k : nat) : outcome A :=
  match xs !! k with
  | Some x => Ret x
  | None => Raise IndexError
  end.

(** The byte with the value [x] modulo 256. *)
Definition byte_of_Z (x : Z) : byte :=
  default x00 (Byte.of_N (Z.to_N (x mod 256))).

(** ** MD5 ([hashlib.md5]), RFC 1321, on 32-bit words *)

Module MD5.

Definition mask32 (x : Z) : Z := Z.land x 4294967295.
Definition add32 (x y : Z) : Z := mask32 (x + y).
Definition rotl32 (x : Z) (c : Z) : Z :=
  mask32 (Z.lor (Z.shiftl x c) (Z.shiftr x (32 - c))).
Definition not32 (x : Z) : Z := Z.lxor x 4294967295.

(** The per-round shift amounts. *)
Definition shifts : list Z :=
  [7; 12; 17; 22; 7; 12; 17; 22; 7; 12; 17; 22; 7; 12; 17; 22;
   5; 9; 14; 20; 5; 9; 14; 20; 5; 9; 14; 20; 5; 9; 14; 20;
   4; 11; 16; 23; 4; 11; 16; 23; 4; 11; 16; 23; 4; 11; 16; 23;
   6; 10; 15; 21; 6; 10; 15; 21; 6; 10; 15; 21; 6; 10; 15; 21].

(** The sine table: [floor(2^32 * abs(sin(i + 1)))]. *)
Definition sines : list Z :=
  [3614090360; 3905402710; 606105819; 3250441966; 4118548399; 1200080426;
   2821735955; 4249261313; 1770035416; 2336552879; 4294925233; 2304563134;
   1804603682; 4254626195; 2792965006; 1236535329; 4129170786; 3225465664;
   643717713; 3921069994; 3593408605; 38016083; 3634488961; 3889429448;
   568446438; 3275163606; 4107603335; 1163531501; 2850285829; 4243563512;
   1735328473; 2368359562; 4294588738; 2272392833; 1839030562; 4259657740;
   2763975236; 1272893353; 4139469664; 3200236656; 681279174; 3936430074;
   3572445317; 76029189; 3654602809; 3873151461; 530742520; 3299628645;
   4096336452; 1126891415; 2878612391; 4237533241; 1700485571; 2399980690;
   4293915773; 2240044497; 1873313359; 4264355552; 2734768916; 1309151649;
   4149444226; 3174756917; 718787259; 3951481745].

(** One of the 64 operations on the working registers [(a, b, c, d)]. *)
Definition step (block : list Z) (regs : Z * Z * Z * Z) (i : nat) : Z * Z * Z * Z :=
  let '(a, b, c, d) := regs in
  let '(f, g) :=
    if (i <? 16)%nat then
      (Z.lor (Z.land b c) (Z.land (not32 b) d), i)
    else if (i <? 32)%nat then
      (Z.lor (Z.land d b) (Z.land (not32 d) c), ((5 * i + 1) mod 16)%nat)
    else if (i <? 48)%nat then
      (Z.lxor (Z.lxor b c) d, ((3 * i + 5) mod 16)%nat)
    else
      (Z.lxor c (Z.lor b (not32 d)), ((7 * i) mod 16)%nat) in
  let f' := add32 (add32 (add32 f a) (nth i sines 0)) (nth g block 0) in
  (d, add32 b (rotl32 f' (nth i shifts 0)), b, c).

(** One 64-byte block, given as sixteen little-endian words. *)
Definition compress (h : Z * Z * Z * Z) (block : list Z) : Z * Z * Z * Z :=
  let '(ha, hb, hc, hd) := h in
  let '(a, b, c, d) := fold_left (step block) (seq 0 64) h in
  (add32 ha a, add32 hb b, add32 hc c, add32 hd d).

(** Four bytes to a little-endian word, and back. *)
Fixpoint words (bs : list Z) : list Z :=
  match bs with
  | b0 :: b1 :: b2 :: b3 :: rest =>
      (b0 + 256 * b1 + 65536 * b2 + 16777216 * b3) :: words rest
  | _ => []
  end.

Definition unword (n : nat) (x : Z) : list Z :=
  List.map (fun k => Z.land (Z.shiftr x (8 * Z.of_nat k)) 255) (seq 0 n).

(** The message, the 0x80 byte, zeros up to 56 modulo 64, and the bit
    length as eight little-endian bytes. *)
Definition pad (msg : list Z) : list Z :=
  let len := Z.of_nat (length msg) in
  let zeros := Z.to_nat ((55 - len) mod 64) in
  msg ++ [128] ++ repeat 0 zeros ++ unword 8 ((8 * len) mod 2 ^ 64).

Fixpoint blocks (fuel : nat) (ws : list Z) : list (list Z) :=
  match fuel with
  | O => []
  | S fuel' =>
      match ws with
      | [] => []
      | _ => take 16 ws :: blocks fuel' (drop 16 ws)
      end
  end.

(** [hashlib.md5(data).digest()] *)
Definition digest (data : list byte) : list byte :=
  let msg := List.map (fun b => Z.of_N (Byte.to_N b)) data in
  let ws := words (pad msg) in
  let '(a, b, c, d) :=
    fold_left compress (blocks (length ws) ws)
      (1732584193, 4023233417, 2562383102, 271733878) in
  List.map byte_of_Z (unword 4 a ++ unword 4 b ++ unword 4 c ++ unword 4 d).

(** [hashlib.md5(data).hexdigest()] *)
Definition hexdigest (data : list byte) : string := Hex.b2a_hex (digest data).

End MD5.

(** ** numpy and pickle

    The source draws from numpy's global generator and serialises its state
    with pickle.  Both are libraries; they enter as an interface.  The raw
    draws are functions of the generator state: one value and the next
    state. *)

Class Host : Type := {
  (** [hex] prints a long with a trailing ["L"] (Python 2) *)
  long_suffix : bool;
  (** what [numpy.random.get_state()] returns *)
  rk_state : Type;
  (** the state [numpy.random.seed(x)] installs for [0 <= x < 2^32] *)
  rk_seed : Z -> rk_state;
  (** the state [numpy.random.seed()] installs from one sample of entropy *)
  rk_fresh : Z -> rk_state;
  (** one draw of [random_integers(a, b)] *)
  rk_integer : Z -> Z -> rk_state -> Z * rk_state;
  (** one draw of [uniform(a, b)] *)
  rk_uniform : Q -> Q -> rk_state -> Q * rk_state;
  (** [k] indices below [n], with or without replacement, weighted by [p] *)
  rk_choice : nat -> nat -> bool -> option (list Q) -> rk_state -> list nat * rk_state;
  pickle_dumps : rk_state -> list byte;
  pickle_loads : list byte -> outcome rk_state;
}.

(** What pickle promises for the generator state: loading a dump gives the
    object back, and a dump opens with an opcode byte whose high nibble is
    set (["("], 0x28, in protocol 0; PROTO, 0x80, from protocol 2 on). *)
Class PickleLaws (H : Host) : Prop := {
  pickle_loads_dumps : forall s : rk_state, pickle_loads (pickle_dumps s) = Ret s;
  pickle_dumps_opcode : forall s : rk_state,
    exists b rest, pickle_dumps s = b :: rest /\ (16 <= Byte.to_N b)%N;
}.

Section Program.
Context {H : Host}.

(** ** The process: numpy's global generator, the evaluator's configuration
    store, the messages issued so far, and the entropy the operating system
    will hand out. *)

Record World : Type := mkWorld {
  numpy_random : rk_state;
  config : gmap string Z;
  out : list Message;
  entropy : list Z;
}.

Definition set_numpy_random (s : rk_state) (w : World) : World :=
  mkWorld s (config w) (out w) (entropy w).

(** A statement: it runs in a world, returns or raises, and leaves a world
    behind in both cases. *)
Definition M (A : Type) : Type := World -> outcome A * World.

#[global] Instance M_ret : MRet M := fun A a w => (Ret a, w).
#[global] Instance M_bind : MBind M := fun A B k m w =>
  match m w with
  | (Ret a, w') => k a w'
  | (Raise e, w') => (Raise e, w')
  end.

Definition raise {A} (e : exn) : M A := fun w => (Raise e, w).
Definition lift {A} (o : outcome A) : M A := fun w => (o, w).

(** [numpy.random.get_state()] and [numpy.random.set_state(state)] *)
Definition numpy_random_get_state : M rk_state := fun w => (Ret (numpy_random w), w).
Definition numpy_random_set_state (s : rk_state) : M unit :=
  fun w => (Ret tt, set_numpy_random s w).

(** [numpy.random.seed(x)].  Without an argument the state comes from the
    operating system's entropy.  With one, the legacy seeding takes only
    what converts to an unsigned 32-bit integer and raises [ValueError]
    ("Seed must be between 0 and 2**32 - 1") otherwise. *)
Definition numpy_random_seed (x : option Z) : M unit := fun w =>
  match x with
  | None =>
      let sample := hd 0 (entropy w) in
      (Ret tt, mkWorld (rk_fresh sample) (config w) (out w) (tl (entropy w)))
  | Some x =>
      if (0 <=? x) && (x <=? 4294967295)
      then (Ret tt, set_numpy_random (rk_seed x) w)
      else (Raise ValueError, w)
  end.

(** [evaluation.definitions.get_config_value(name)] and [set_config_value] *)
Definition get_config_value (name : string) : M (option Z) :=
  fun w => (Ret (config w !! name), w).
Definition set_config_value (name : string) (value : Z) : M unit :=
  fun w => (Ret tt, mkWorld (numpy_random w) (<[name := value]> (config w)) (out w) (entropy w)).

(** [evaluation.message(symbol, tag, *args)]: the message is queued and the
    call returns [None]. *)
Definition message (symbol tag : string) (args : list Expr) : M unit :=
  fun w => (Ret tt, mkWorld (numpy_random w) (config w)
                      (out w ++ [mkMessage symbol tag args]) (entropy w)).

(** ** [get_random_state] and [set_random_state] *)

Definition get_random_state : M Z :=
  state ← numpy_random_get_state;
  let state := pickle_dumps state in
  let state := Hex.b2a_hex state in
  (* state.decode('ascii') is computed and dropped *)
  state ← lift (Hex.int16 state);
  mret state.

Definition set_random_state (state : option Z) : M unit :=
  match state with
  | None => numpy_random_seed None
  | Some state =>
      let state := Hex.drop2 (Hex.hex long_suffix state) in
      let state := Hex.rstrip_L state in
      (* state.encode('ascii') changes the type, not the characters *)
      state ← lift (Hex.a2b_hex state);
      state ← lift (pickle_loads state);
      numpy_random_set_state state
  end.

(** ** numpy's draws over the global generator *)

(** [k] successive draws, in the order numpy fills an array. *)
Fixpoint draws {A} (next : rk_state -> A * rk_state) (k : nat) (s : rk_state)
    : list A * rk_state :=
  match k with
  | O => ([], s)
  | S k' =>
      let '(x, s1) := next s in
      let '(xs, s2) := draws next k' s1 in
      (x :: xs, s2)
  end.

(** A draw of the given [size]: a scalar for [None], an array otherwise. *)
Definition numpy_draw {A} (next : rk_state -> A * rk_state) (size : PyVal)
    : M (ndarray A) := fun w =>
  match size with
  | PyNone =>
      let '(x, s) := next (numpy_random w) in
      (Ret (scalar x), set_numpy_random s w)
  | _ =>
      match np_size size with
      | Raise e => (Raise e, w)
      | Ret sh =>
          let '(xs, s) := draws next (size_of sh) (numpy_random w) in
          (Ret (mkArray sh xs), set_numpy_random s w)
      end
  end.

(** The 64-bit signed integers numpy draws from. *)
Definition int64_min : Z := -9223372036854775808.
Definition int64_max : Z := 9223372036854775807.

(** [numpy.random.random_integers(a, b, size)]: [low > high] raises
    [ValueError], and so does a bound outside the 64-bit signed integers
    ("low is out of bounds", "high is out of bounds"). *)
Definition numpy_random_random_integers (a b : Z) (size : PyVal) : M (ndarray Z) :=
  if (a <? int64_min) || (int64_max <? b) || (b <? a) then raise ValueError
  else numpy_draw (rk_integer a b) size.

(** [numpy.random.uniform(a, b, size)]: the bounds are read as doubles, and
    a range [high - low] that is not finite raises [OverflowError] ("Range
    exceeds valid bounds"), before the size is looked at. *)
Definition numpy_random_uniform (a b : PyVal) (size : PyVal) : M (ndarray Q) :=
  low ← lift (np_double a);
  high ← lift (np_double b);
  if Double.finite (high - low)%Q then numpy_draw (rk_uniform low high) size
  else raise OverflowError.

(** The [p] argument of [choice]: absent, or one non-negative weight per
    element of the population (numpy also wants them to add up to 1 within
    its tolerance; that test is the generator's). *)
Definition np_weights (n : nat) (p : PyVal) : outcome (option (list Q)) :=
  match p with
  | PyNone => Ret None
  | _ =>
      match asarray p with
      | Some (mkArray [m] ws) =>
          if bool_decide (m = n) && forallb (Qle_bool 0) ws
          then Ret (Some ws) else Raise ValueError
      | _ => Raise ValueError
      end
  end.

(** [numpy.random.choice(n, size=size, replace=replace, p=p)] for an integer
    population [n].  It raises [ValueError] for an empty population ("a must
    be greater than 0") and, without replacement, when more elements are
    asked for than the population holds ("Cannot take a larger sample than
    population when 'replace=False'"). *)
Definition numpy_random_choice (n : nat) (size : PyVal) (replace : bool) (p : PyVal)
    : M (ndarray nat) := fun w =>
  if (n =? 0)%nat then (Raise ValueError, w) else
  match np_weights n p with
  | Raise e => (Raise e, w)
  | Ret weights =>
      match size with
      | PyNone =>
          let '(xs, s) := rk_choice n 1 replace weights (numpy_random w) in
          (Ret (mkArray [] xs), set_numpy_random s w)
      | _ =>
          match np_size size with
          | Raise e => (Raise e, w)
          | Ret sh =>
              if negb replace && (n <? size_of sh)%nat then (Raise ValueError, w) else
              let '(xs, s) := rk_choice n (size_of sh) replace weights (numpy_random w) in
              (Ret (mkArray sh xs), set_numpy_random s w)
          end
      end
  end.

(** A statement is quiet when it issues no message. *)
Definition quiet {A} (m : M A) : Prop := forall w, out (snd (m w)) = out w.

(** A statement fails when it raises in every world. *)
Definition fails {A} (m : M A) : Prop := forall w, exists e, fst (m w) = Raise e.

(** ** [class RandomEnv] *)

(** [RandomEnv.__enter__] *)
Definition RandomEnv_enter : M unit :=
  state ← get_config_value "$RandomState";
  set_random_state state.

(** [RandomEnv.__exit__] *)
Definition RandomEnv_exit : M unit :=
  state ← get_random_state;
  set_config_value "$RandomState" state.

(** [with RandomEnv(evaluation) as rand: body].  When [__enter__] raises,
    neither the body nor [__exit__] runs.  Otherwise [__exit__] runs however
    the body ends; it returns [None], so an exception of the body travels
    on, and an exception of [__exit__] itself replaces the body's result. *)
Definition with_RandomEnv {A} (body : M A) : M A := fun w =>
  match RandomEnv_enter w with
  | (Raise e, w1) => (Raise e, w1)
  | (Ret _, w1) =>
      let '(result, w2) := body w1 in
      match RandomEnv_exit w2 with
      | (Raise e, w3) => (Raise e, w3)
      | (Ret _, w3) => (result, w3)
      end
  end.

Definition RandomEnv_randint (a b : Z) (size : PyVal) : M (ndarray Z) :=
  numpy_random_random_integers a b size.

Definition RandomEnv_randreal (a b : PyVal) (size : PyVal) : M (ndarray Q) :=
  numpy_random_uniform a b size.

Definition RandomEnv_randchoice (n : nat) (size : PyVal) (replace : bool) (p : PyVal)
    : M (ndarray nat) :=
  numpy_random_choice n size replace p.

Definition RandomEnv_seed (x : option Z) : M unit :=
  numpy_random_seed x.

(** The store is sound when [$RandomState] is absent or holds an integer
    that [get_random_state] has produced. *)
Definition sound (w : World) : Prop :=
  forall n, config w !! "$RandomState" = Some n ->
            exists w0, get_random_state w0 = (Ret n, w0).

(** ** [class RandomState]: the builtin behind [$RandomState] *)

Definition RandomState_apply : M (option Expr) :=
  with_RandomEnv (
    state ← get_random_state;
    mret (Some (Integer state))).

(** Modelled from the spec: the assignment [$RandomState = rhs].  The
    handler is the evaluator's assignment builtin, outside this module; the
    module only declares the message [rndst].  The attempt is answered with
    that message, the configuration store is not written, and the assignment
    evaluates to its right-hand side. *)
Definition Set_RandomState (rhs : Expr) : M (option Expr) :=
  _ ← message "$RandomState" "rndst" [];
  mret (Some rhs).

(** ** [class SeedRandom] *)

Definition SeedRandom_apply (x : Expr) : M (option Expr) :=
  match x with
  | Integer value =>
      _ ← with_RandomEnv (RandomEnv_seed (Some value));
      mret (Some (Symbol "Null"))
  | String text =>
      (* OS/version-independent hash *)
      value ← lift (Hex.int16 (MD5.hexdigest (list_byte_of_string text)));
      _ ← with_RandomEnv (RandomEnv_seed (Some value));
      mret (Some (Symbol "Null"))
  | _ =>
      _ ← message "SeedRandom" "seed" [x];
      mret None
  end.

Definition SeedRandom_apply_empty : M (option Expr) :=
  _ ← with_RandomEnv (RandomEnv_seed None);
  mret (Some (Symbol "Null")).

(** ** [class _RandomBase] *)

(** The two rewrite rules, for the builtin called [name]:
    [name[spec_]] becomes [name[spec, {1}]] and [name[spec_, n_Integer]]
    becomes [name[spec, {n}]]. *)
Definition _RandomBase_rules (name : string) (e : Expr) : option Expr :=
  match e with
  | Expression head [spec] =>
      if String.eqb head name
      then Some (Expression name [spec; Expression "List" [Integer 1]])
      else None
  | Expression head [spec; Integer n] =>
      if String.eqb head name
      then Some (Expression name [spec; Expression "List" [Integer n]])
      else None
  | _ => None
  end.

(** [_size_to_python] returns a pair: the result of the message and [None],
    or [False] and the converted size. *)
Definition _size_to_python (name : string) (domain size : Expr) : M (PyVal * PyVal) :=
  items ← lift (iter_expr size);
  if negb (forallb is_numeric items) then
    let expr := Expression name [domain; size] in
    _ ← message name "array" [size; expr];
    mret (PyNone, PyNone)
  else
    let py_size := to_python size in
    py_items ← lift (iter_py py_size);
    if negb (forallb is_nonneg_int py_items) then
      let expr := Expression name [domain; size] in
      _ ← message name "array" [size; expr];
      mret (PyNone, PyNone)
    else
      mret (PyBool false, py_size).

(** ** [class RandomInteger] *)

Definition RandomInteger_apply (rmin rmax : Expr) : M (option Expr) :=
  match rmin, rmax with
  | Integer rmin, Integer rmax =>
      with_RandomEnv (
        x ← RandomEnv_randint rmin rmax PyNone;
        value ← lift (new_Integer x);
        mret (Some value))
  | _, _ =>
      _ ← message "RandomInteger" "unifr" [Expression "List" [rmin; rmax]];
      mret None
  end.

(** [RandomInteger[{rmin_, rmax_}, ns_?ListQ]] *)
Definition RandomInteger_apply_list (rmin rmax ns : Expr) : M (option Expr) :=
  match rmin, rmax with
  | Integer rmin, Integer rmax =>
      let result := to_python ns in
      with_RandomEnv (
        a ← RandomEnv_randint rmin rmax result;
        value ← lift (_from_numpy a new_Integer 1);
        mret (Some value))
  | _, _ =>
      _ ← message "RandomInteger" "unifr" [Expression "List" [rmin; rmax]];
      mret None
  end.

(** ** [class RandomReal] *)

(** [isinstance(x, (Real, Integer))] together with [x.to_python()]: a
    Python float or a Python int. *)
Definition real_value (x : Expr) : option PyVal :=
  match x with
  | Real v => Some (PyFloat v)
  | Integer n => Some (PyInt n)
  | _ => None
  end.


Definition RandomReal_apply (xmin xmax : Expr) : M (option Expr) :=
  match real_value xmin, real_value xmax with
  | Some min_value, Some max_value =>
      with_RandomEnv (
        x ← RandomEnv_randreal min_value max_value PyNone;
        value ← lift (new_Real x);
        mret (Some value))
  | _, _ =>
      _ ← message "RandomReal" "unifr" [Expression "List" [xmin; xmax]];
      mret None
  end.

(** [RandomReal[{xmin_, xmax_}, ns_?ListQ]] *)
Definition RandomReal_apply_list (xmin xmax ns : Expr) : M (option Expr) :=
  match real_value xmin, real_value xmax with
  | Some min_value, Some max_value =>
      let result := to_python ns in
      items ← lift (iter_py result);
      if negb (forallb is_nonneg_int items) then
        let expr := Expression "RandomReal" [Expression "List" [xmin; xmax]; ns] in
        _ ← message "RandomReal" "array" [expr; ns];
        mret None
      else
        with_RandomEnv (
          a ← RandomEnv_randreal min_value max_value result;
          value ← lift (_from_numpy a new_Real 1);
          mret (Some value))
  | _, _ =>
      _ ← message "RandomReal" "unifr" [Expression "List" [xmin; xmax]];
      mret None
  end.

(** ** [class RandomComplex] *)

(** Modelled from the spec: the test
    [Expression('RealNumberQ', z).evaluate(evaluation)] followed by
    [Complex(z, 0.0)], both the evaluator's: a plain real number given where
    a complex corner is expected is promoted to a complex value with zero
    imaginary part. *)
Definition promote (z : Expr) : Expr :=
  match z with
  | Integer n => Complex (inject_Z n) 0
  | Real v => Complex v 0
  | _ => z
  end.

(** [isinstance(z, Complex)], with the two parts of [z]. *)
Definition complex_value (z : Expr) : option (Q * Q) :=
  match z with
  | Complex re im => Some (re, im)
  | _ => None
  end.

(** [z.to_python()] for a [Complex]: a Python complex, each part a double. *)
Definition py_complex (z : Q * Q) : outcome (Q * Q) :=
  re ← as_double (fst z);
  im ← as_double (snd z);
  Ret (re, im).

(** The Python complex that a corner [z] of [RandomComplex] becomes, when it
    is a number whose parts have doubles. *)
Definition corner_value (z : Expr) : option (Q * Q) :=
  match complex_value (promote z) with
  | Some parts =>
      match py_complex parts with
      | Ret c => Some c
      | Raise _ => None
      end
  | None => None
  end.

Definition RandomComplex_apply (zmin zmax : Expr) : M (option Expr) :=
  let zmin := promote zmin in
  let zmax := promote zmax in
  match complex_value zmin, complex_value zmax with
  | Some zmin_parts, Some zmax_parts =>
      min_value ← lift (py_complex zmin_parts);
      max_value ← lift (py_complex zmax_parts);
      with_RandomEnv (
        re ← RandomEnv_randreal (PyFloat (fst min_value)) (PyFloat (fst max_value)) PyNone;
        im ← RandomEnv_randreal (PyFloat (snd min_value)) (PyFloat (snd max_value)) PyNone;
        re ← lift (item re);
        im ← lift (item im);
        mret (Some (Complex re im)))
  | _, _ =>
      _ ← message "RandomComplex" "unifr" [Expression "List" [zmin; zmax]];
      mret None
  end.

(** The depth [RandomComplex.apply_list] passes to [_from_numpy]. *)
Definition RandomComplex_d : nat := 2.

(** [RandomComplex[{zmin_, zmax_}, ns_]] *)
Definition RandomComplex_apply_list (zmin zmax ns : Expr) : M (option Expr) :=
  let expr := Expression "RandomComplex" [Expression "List" [zmin; zmax]; ns] in
  let zmin := promote zmin in
  let zmax := promote zmax in
  match complex_value zmin, complex_value zmax with
  | Some zmin_parts, Some zmax_parts =>
      min_value ← lift (py_complex zmin_parts);
      max_value ← lift (py_complex zmax_parts);
      let py_ns := to_python ns in
      let py_ns := match py_ns with PyList _ => py_ns | _ => PyList [py_ns] end in
      items ← lift (iter_py py_ns);
      if negb (forallb is_nonneg_int items) then
        _ ← message "RandomComplex" "array" [ns; expr];
        mret None
      else
        with_RandomEnv (
          real ← RandomEnv_randreal (PyFloat (fst min_value)) (PyFloat (fst max_value)) py_ns;
          imag ← RandomEnv_randreal (PyFloat (snd min_value)) (PyFloat (snd max_value)) py_ns;
          stacked ← lift (numpy_stack_last real imag);
          value ← lift (_from_numpy stacked new_Complex RandomComplex_d);
          mret (Some value))
  | _, _ =>
      _ ← message "RandomComplex" "unifr" [Expression "List" [zmin; zmax]];
      mret None
  end.

(** The depth the specification asks the shape builder to be given:
    [len(shape) + 1] when two component arrays are paired, [len(shape)]
    otherwise. *)
Definition spec_depth (pairing : bool) (sh : list nat) : nat :=
  if pairing then (length sh + 1)%nat else length sh.


(** ** [class _RandomSelection], [RandomChoice], [RandomSample] *)

(** Like [_size_to_python], [_weights_to_python] returns a pair. *)
Definition _weights_to_python (name : string) (weights expr : Expr) : M (PyVal * PyVal) :=
  items ← lift (iter_expr weights);
  if negb (forallb is_numeric items) then
    _ ← message name "weights" [weights; expr];
    mret (PyNone, PyNone)
  else
    let py_weights := to_python weights in
    py_items ← lift (iter_py py_weights);
    if negb (forallb is_nonneg_number py_items) then
      _ ← message name "weights" [weights; expr];
      mret (PyNone, PyNone)
    else
      mret (PyBool false, py_weights).

(** The tail of [apply], from [_size_to_python] on. *)
Definition _RandomSelection_draw (name : string) (_replace : bool)
    (domain size : Expr) (weights : PyVal) (elements : list Expr) : M (option Expr) :=
  '(err, py_size) ← _size_to_python name domain size;
  match py_size with
  | PyNone => mret None  (* return err: what the message call returned *)
  | _ =>
      with_RandomEnv (
        a ← RandomEnv_randchoice (length elements) py_size _replace weights;
        value ← lift (_from_numpy a (new_element_of elements) 1);
        mret (Some value))
  end.

(** [apply] for the builtin called [name] whose class sets [_replace].  In
    the rule branch the pair that [_weights_to_python] returns is bound to
    [weights] as it is, and it is this pair that goes to [numpy.sum]. *)
Definition _RandomSelection_apply (name : string) (_replace : bool)
    (domain size : Expr) : M (option Expr) :=
  if String.eqb (get_head_name domain) "System`Rule" then
    weights_expr ← lift (py_index (leaves_of domain) 0);
    '(err, py_weights) ← _weights_to_python name weights_expr
                            (Expression name [domain; size]);
    let weights := PyTuple [err; py_weights] in
    total ← lift (numpy_sum weights);
    weights ← lift (py_itruediv weights total);
    elements_expr ← lift (py_index (leaves_of domain) 1);
    let elements := leaves_of elements_expr in
    n ← lift (py_len weights);
    if negb (n =? length elements)%nat then
      _ ← message name "lengths" [domain];
      mret None
    else
      _RandomSelection_draw name _replace domain size weights elements
  else if String.eqb (get_head_name domain) "System`List" then
    _RandomSelection_draw name _replace domain size PyNone (leaves_of domain)
  else
    _ ← message name "list" [];
    mret None.

Definition RandomChoice_apply : Expr -> Expr -> M (option Expr) :=
  _RandomSelection_apply "RandomChoice" true.

Definition RandomSample_apply : Expr -> Expr -> M (option Expr) :=
  _RandomSelection_apply "RandomSample" false.

(** One evaluation of a call of the selection builtin [name]: the rewrite
    rules of [_RandomBase] first, then [apply] on [name[domain, size]]. *)
Definition _RandomSelection_evaluate (name : string) (_replace : bool) (call : Expr)
    : M (option Expr) :=
  match default call (_RandomBase_rules name call) with
  | Expression head [domain; size] =>
      if String.eqb head name
      then _RandomSelection_apply name _replace domain size
      else mret None
  | _ => mret None
  end.

(** ** A session of sampling calls *)

Inductive Call : Type :=
  | CallRandomInteger (rmin rmax : Expr)
  | CallRandomIntegerList (rmin rmax ns : Expr)
  | CallRandomReal (xmin xmax : Expr)
  | CallRandomRealList (xmin xmax ns : Expr)
  | CallRandomComplex (zmin zmax : Expr)
  | CallRandomComplexList (zmin zmax ns : Expr)
  | CallRandomChoice (domain size : Expr)
  | CallRandomSample (domain size : Expr).

Definition run_call (c : Call) : M (option Expr) :=
  match c with
  | CallRandomInteger rmin rmax => RandomInteger_apply rmin rmax
  | CallRandomIntegerList rmin rmax ns => RandomInteger_apply_list rmin rmax ns
  | CallRandomReal xmin xmax => RandomReal_apply xmin xmax
  | CallRandomRealList xmin xmax ns => RandomReal_apply_list xmin xmax ns
  | CallRandomComplex zmin zmax => RandomComplex_apply zmin zmax
  | CallRandomComplexList zmin zmax ns => RandomComplex_apply_list zmin zmax ns
  | CallRandomChoice domain size => RandomChoice_apply domain size
  | CallRandomSample domain size => RandomSample_apply domain size
  end.

(** The calls one after the other; each contributes its value or its
    exception, and the next one runs in the world it left. *)
Fixpoint run_calls (cs : list Call) (w : World) : list (outcome (option Expr)) * World :=
  match cs with
  | [] => ([], w)
  | c :: cs' =>
      let '(r, w1) := run_call c w in
      let '(rs, w2) := run_calls cs' w1 in
      (r :: rs, w2)
  end.

(** A statement only draws when it reads and writes nothing but the
    generator state. *)
Definition draws_only {A} (m : M A) : Prop :=
  (forall w, config (snd (m w)) = config w) /\
  (forall w w', numpy_random w = numpy_random w' ->
     fst (m w) = fst (m w') /\ numpy_random (snd (m w)) = numpy_random (snd (m w'))).

(** Two worlds hold the same stored state. *)
Definition same_stored_state (w w' : World) : Prop :=
  exists n, config w !! "$RandomState" = Some n /\ config w' !! "$RandomState" = Some n.

(** A statement keeps the store sound. *)
Definition keeps_sound {A} (m : M A) : Prop :=
  forall w, sound w -> sound (snd (m w)).

(** A statement is reproducible when its value depends on nothing but the
    stored state, and equal stored states stay equal. *)
Definition reproducible {A} (m : M A) : Prop :=
  forall w w', same_stored_state w w' ->
    fst (m w) = fst (m w') /\ same_stored_state (snd (m w)) (snd (m w')).

End Program.

(** ** A reference host

    A small linear congruential generator over a four-byte state, with a
    one-opcode pickle.  It stands for numpy where the program is run on
    concrete inputs; the general properties quantify over every host. *)

Module Reference.

Definition state_value (s : list byte) : Z :=
  fold_left (fun acc b => 256 * acc + Z.of_N (Byte.to_N b)) s 0.

Definition state_of (z : Z) : list byte :=
  List.map byte_of_Z [z / 16777216; z / 65536; z / 256; z].

Definition lcg (s : list byte) : list byte :=
  state_of ((1103515245 * state_value s + 12345) mod 2147483648).

Definition integer (a b : Z) (s : list byte) : Z * list byte :=
  (a + state_value s mod (b - a + 1), lcg s).

Definition uniform (a b : Q) (s : list byte) : Q * list byte :=
  ((a + (b - a) * (state_value s mod 1000 # 1000))%Q, lcg s).

(** [k] indices below [n]: a run of consecutive indices modulo [n], starting
    where the state says. *)
Definition choice (n k : nat) (replace : bool) (p : option (list Q)) (s : list byte)
    : list nat * list byte :=
  (List.map (fun i => ((i + Z.to_nat (state_value s)) mod n)%nat) (seq 0 k), lcg s).

Definition dumps (s : list byte) : list byte := x80 :: s.

Definition loads (data : list byte) : outcome (list byte) :=
  match data with
  | x80 :: s => Ret s
  | _ => Raise UnpicklingError
  end.

#[global] Instance host : Host := {|
  long_suffix := false;
  rk_state := list byte;
  rk_seed := state_of;
  rk_fresh := state_of;
  rk_integer := integer;
  rk_uniform := uniform;
  rk_choice := choice;
  pickle_dumps := dumps;
  pickle_loads := loads;
|}.

(** A process that has not drawn yet: state seeded with 1, nothing stored,
    nothing printed, the given entropy ahead. *)
Definition boot (entropy : list Z) : World :=
  mkWorld (state_of 1) ∅ [] entropy.

End Reference.

(** * Further definitions *)

(** What numpy promises for the range of its draws: [random_integers(a, b)]
    lies in [[a, b]], [uniform(a, b)] between [a] and [b]. *)
Class RangeLaws (H : Host) : Prop := {
  rk_integer_range : forall a b s, a <= b -> a <= fst (rk_integer a b s) <= b;
  rk_uniform_range : forall a b s,
    (a <= b)%Q -> (a <= fst (rk_uniform a b s))%Q /\ (fst (rk_uniform a b s) <= b)%Q;
}.



Definition complex_within (re_min im_min re_max im_max : Q) (e : Expr) : Prop :=
  exists re im, e = Complex re im /\
    (re_min <= re)%Q /\ (re <= re_max)%Q /\ (im_min <= im)%Q /\ (im <= im_max)%Q.



(** A statement is valued when it never ends with no value: it returns
    something or it raises. *)
Definition valued {H : Host} (m : M (option Expr)) : Prop :=
  forall w, fst (m w) <> Ret None.

(** The world after one more message. *)
Definition with_message {H : Host} (m : Message) (w : World) : World :=
  mkWorld (numpy_random w) (config w) (out w ++ [m]) (entropy w).

(** A statement answers by message when, whenever it ends with no value, it
    has done nothing but issue one message. *)
Definition answers_by_message {H : Host} (m : M (option Expr)) : Prop :=
  forall w, fst (m w) = Ret None -> exists msg, snd (m w) = with_message msg w.

(** ** The rewrite rules of [RandomInteger], [RandomReal] and [RandomComplex]

    A [rules] dictionary maps patterns to replacements.  Each entry is one
    partial function on expressions; the table is their list.  The evaluator
    picks the order in which it tries them, so a rewriting step is any entry
    that applies. *)

Definition Rule : Type := Expr -> option Expr.

(** One step with some rule of the table. *)
Definition rewrites (rules : list Rule) (e e' : Expr) : Prop :=
  exists r, r ∈ rules /\ r e = Some e'.

(** No rule of the table applies. *)
Definition normal (rules : list Rule) (e : Expr) : Prop :=
  forall r, r ∈ rules -> r e = None.

(** The first rule of the table that applies, in the order written. *)
Fixpoint first_rule (rules : list Rule) (e : Expr) : option Expr :=
  match rules with
  | [] => None
  | r :: rest =>
      match r e with
      | Some e' => Some e'
      | None => first_rule rest e
      end
  end.

(** Rewriting with the first applicable rule, at most [fuel] times. *)
Fixpoint normalize (rules : list Rule) (fuel : nat) (e : Expr) : Expr :=
  match fuel with
  | O => e
  | S fuel' =>
      match first_rule rules e with
      | Some e' => normalize rules fuel' e'
      | None => e
      end
  end.

(** The pattern test [_Integer]. *)
Definition IntegerQ (e : Expr) : bool :=
  match e with
  | Integer _ => true
  | _ => false
  end.

(** Modelled from the spec: the pattern test [?NumberQ] of the evaluator,
    true of the numeric atoms. *)
Definition NumberQ (e : Expr) : bool :=
  match e with
  | Integer _ | Real _ | Complex _ _ => true
  | _ => false
  end.

(** The pattern test [?ListQ]. *)
Definition ListQ (e : Expr) : bool :=
  match e with
  | Expression head _ => String.eqb head "List"
  | _ => false
  end.

(** [name[]] becomes [name[spec]]. *)
Definition rule_no_argument (name : string) (spec : Expr) : Rule := fun e =>
  match e with
  | Expression head [] =>
      if String.eqb head name then Some (Expression name [spec]) else None
  | _ => None
  end.

(** [name[max_?test]] becomes [name[{0, max}]]. *)
Definition rule_upper_bound (name : string) (test : Expr -> bool) : Rule := fun e =>
  match e with
  | Expression head [max] =>
      if String.eqb head name && test max
      then Some (Expression name [Expression "List" [Integer 0; max]])
      else None
  | _ => None
  end.

(** [name[max_?test, ns_]] becomes [name[{0, max}, ns]]. *)
Definition rule_upper_bound_shape (name : string) (test : Expr -> bool) : Rule := fun e =>
  match e with
  | Expression head [max; ns] =>
      if String.eqb head name && test max
      then Some (Expression name [Expression "List" [Integer 0; max]; ns])
      else None
  | _ => None
  end.

(** [name[spec_, n_Integer]] becomes [name[spec, {n}]]. *)
Definition rule_count (name : string) : Rule := fun e =>
  match e with
  | Expression head [spec; n] =>
      if String.eqb head name && IntegerQ n
      then Some (Expression name [spec; Expression "List" [n]])
      else None
  | _ => None
  end.

(** [RandomInteger.rules] *)
Definition RandomInteger_rules : list Rule :=
  [ rule_no_argument "RandomInteger" (Expression "List" [Integer 0; Integer 1]);
    rule_upper_bound "RandomInteger" IntegerQ;
    rule_upper_bound_shape "RandomInteger" IntegerQ;
    rule_count "RandomInteger" ].

(** [RandomReal.rules] *)
Definition RandomReal_rules : list Rule :=
  [ rule_no_argument "RandomReal" (Expression "List" [Integer 0; Integer 1]);
    rule_upper_bound "RandomReal" NumberQ;
    rule_upper_bound_shape "RandomReal" NumberQ;
    rule_count "RandomReal" ].

(** [RandomComplex.rules]; the corner [1+I] of the first rule is written as
    the complex number it evaluates to. *)
Definition RandomComplex_rules : list Rule :=
  [ rule_no_argument "RandomComplex" (Expression "List" [Integer 0; Complex 1 1]);
    rule_upper_bound "RandomComplex" NumberQ;
    rule_upper_bound_shape "RandomComplex" NumberQ ].

Section Dispatch.
Context {H : Host}.

(** One evaluation of a call of a builtin with the two patterns
    [name[{min_, max_}]] and [name[{min_, max_}, ns_]], the second one
    guarded by [guard]: the rules first, then the function whose pattern
    matches; a call that matches none stays as it is. *)
Definition evaluate_range_builtin (name : string) (rules : list Rule)
    (apply : Expr -> Expr -> M (option Expr))
    (guard : Expr -> bool) (apply_list : Expr -> Expr -> Expr -> M (option Expr))
    (call : Expr) : M (option Expr) :=
  match normalize rules 2 call with
  | Expression head [Expression list [min; max]] =>
      if String.eqb head name && String.eqb list "List"
      then apply min max else mret None
  | Expression head [Expression list [min; max]; ns] =>
      if String.eqb head name && String.eqb list "List" && guard ns
      then apply_list min max ns else mret None
  | _ => mret None
  end.

Definition RandomInteger_evaluate : Expr -> M (option Expr) :=
  evaluate_range_builtin "RandomInteger" RandomInteger_rules
    RandomInteger_apply ListQ RandomInteger_apply_list.


Definition RandomComplex_evaluate : Expr -> M (option Expr) :=
  evaluate_range_builtin "RandomComplex" RandomComplex_rules
    RandomComplex_apply (fun _ => true) RandomComplex_apply_list.

End Dispatch.

(** The number of rewriting steps a call still admits under a table made of
    the no-argument rule, the two upper-bound rules guarded by [test] and,
    when [counted], the count rule: the measure that bounds rewriting. *)
Definition steps_left (name : string) (test : Expr -> bool) (counted : bool)
    (e : Expr) : nat :=
  match e with
  | Expression head leaves =>
      if String.eqb head name then
        match leaves with
        | [] => 1
        | [max] => if test max then 1 else 0
        | [spec; n] =>
            (if test spec then 1 else 0) + (if counted && IntegerQ n then 1 else 0)
        | _ => 0
        end
      else 0
  | _ => 0
  end.

(** The table of a builtin over a range, as the three classes write it. *)
Definition range_rules (name : string) (spec : Expr) (test : Expr -> bool)
    (counted : bool) : list Rule :=
  [ rule_no_argument name spec; rule_upper_bound name test;
    rule_upper_bound_shape name test ]
  ++ (if counted then [rule_count name] else []).

(** ** Worlds on the reference host *)

(** A world whose store holds a state: the one [$RandomState] leaves when
    read for the first time. *)
Definition stored_world : World := snd (RandomState_apply (Reference.boot [7])).

(** A world whose store holds an integer that encodes no state. *)
Definition corrupt_world : World :=
  mkWorld (Reference.state_of 1) (<["$RandomState" := -5]> ∅) [] [].
(** * Properties *)

(** ** Hexadecimal text *)

Module HexFacts.
Import Hex.

Lemma value_digit (n : N) : value (digit n) = Some (n mod 16)%N.
Proof.
  unfold digit.
  assert (Hlt : (n mod 16 < 16)%N) by (apply N.mod_upper_bound; lia).
  destruct (n mod 16)%N as [|p]; [reflexivity|].
  do 4 (destruct p as [p|p|]; try reflexivity; try lia).
Qed.

Lemma byte_of_nibbles (b : byte) :
  Byte.of_N (16 * ((Byte.to_N b / 16) mod 16) + (Byte.to_N b mod 16) mod 16)%N = Some b.
Proof. destruct b; reflexivity. Qed.

(** [a2b_hex] undoes [b2a_hex] on every byte string. *)
Lemma a2b_hex_b2a_hex (data : list byte) : a2b_hex (b2a_hex data) = Ret data.
Proof.
  induction data as [|b rest IH]; [reflexivity|].
  cbn [b2a_hex a2b_hex].
  rewrite !value_digit, byte_of_nibbles, IH. reflexivity.
Qed.

Lemma digit_cases (n : N) (P : ascii -> Prop) :
  P "0"%char -> P "1"%char -> P "2"%char -> P "3"%char ->
  P "4"%char -> P "5"%char -> P "6"%char -> P "7"%char ->
  P "8"%char -> P "9"%char -> P "a"%char -> P "b"%char ->
  P "c"%char -> P "d"%char -> P "e"%char -> P "f"%char ->
  P (digit n).
Proof.
  intros. unfold digit.
  assert (Hlt : (n mod 16 < 16)%N) by (apply N.mod_upper_bound; lia).
  destruct (n mod 16)%N as [|p]; [assumption|].
  do 4 (destruct p as [p|p|]; try assumption; try lia).
Qed.

Lemma digit_not_L (n : N) : Ascii.eqb (digit n) "L" = false.
Proof. apply digit_cases; reflexivity. Qed.

Lemma append_cons c s t : String.append (String.String c s) t = String.String c (String.append s t).
Proof. reflexivity. Qed.

Lemma rstrip_L_b2a_hex (data : list byte) (suffix : bool) :
  rstrip_L (String.append (b2a_hex data) (if suffix then "L" else "")) = b2a_hex data.
Proof.
  induction data as [|b rest IH].
  - destruct suffix; reflexivity.
  - cbn [b2a_hex]. rewrite !append_cons. cbn [rstrip_L]. rewrite IH.
    destruct rest as [|b' rest']; cbn [b2a_hex].
    + rewrite !digit_not_L. reflexivity.
    + reflexivity.
Qed.

Lemma uint_of_char_digit (n : N) (d : uint) :
  exists d', uint_of_char (digit n) (Some d) = Some d' /\ d' <> Nil /\
             ((n mod 16 <> 0)%N -> unorm d' = d').
Proof.
  unfold digit.
  assert (Hlt : (n mod 16 < 16)%N) by (apply N.mod_upper_bound; lia).
  destruct (n mod 16)%N as [|p].
  - eexists; split; [reflexivity|]. split; [discriminate|]. intros; congruence.
  - do 4 (destruct p as [p|p|];
          try solve [eexists; split; [reflexivity|]; split; [discriminate|];
                     intros _; reflexivity];
          try lia).
Qed.

Lemma uint_of_b2a_hex (b : byte) (rest : list byte) :
  (16 <= Byte.to_N b)%N ->
  exists d, NilZero.uint_of_string (b2a_hex (b :: rest)) = Some d /\ unorm d = d /\ d <> Nil.
Proof.
  intros Hb.
  assert (Hrest : forall data, exists d, NilEmpty.uint_of_string (b2a_hex data) = Some d).
  { induction data as [|x xs [d IH]]; [exists Nil; reflexivity|].
    cbn [b2a_hex NilEmpty.uint_of_string]. rewrite IH.
    destruct (uint_of_char_digit (Byte.to_N x mod 16) d) as (d1 & -> & _).
    destruct (uint_of_char_digit (Byte.to_N x / 16) d1) as (d2 & -> & _).
    eauto. }
  destruct (Hrest rest) as [d Hd].
  cbn [b2a_hex NilZero.uint_of_string NilEmpty.uint_of_string]. rewrite Hd.
  destruct (uint_of_char_digit (Byte.to_N b mod 16) d) as (d1 & -> & _).
  destruct (uint_of_char_digit (Byte.to_N b / 16) d1) as (d2 & -> & Hnil & Hnorm).
  exists d2. split; [reflexivity|]. split; [|assumption].
  apply Hnorm.
  assert (Byte.to_N b < 256)%N by (destruct b; vm_compute; reflexivity).
  assert (Byte.to_N b / 16 < 16)%N by (apply N.Div0.div_lt_upper_bound; lia).
  rewrite N.mod_small by assumption.
  intros Hz. apply N.div_small_iff in Hz; lia.
Qed.

(** The text round trip behind the codec: the integer read from the digits
    of a byte string prints back to the same digits. *)
Lemma hex_int16_b2a_hex (suffix : bool) (b : byte) (rest : list byte) :
  (16 <= Byte.to_N b)%N ->
  exists n, int16 (b2a_hex (b :: rest)) = Ret n /\ 0 <= n /\
            rstrip_L (drop2 (hex suffix n)) = b2a_hex (b :: rest).
Proof.
  intros Hb. destruct (uint_of_b2a_hex b rest Hb) as (d & Hd & Hnorm & Hnil).
  unfold int16. rewrite Hd. eexists. split; [reflexivity|]. split; [lia|].
  unfold hex.
  assert (Hneg : (Z.of_N (N.of_hex_uint d) <? 0) = false) by (apply Z.ltb_ge; lia).
  rewrite Hneg, Zabs2N.id, Unsigned.to_of, Hnorm.
  rewrite (NilZero.sus _ _ Hd).
  change (drop2 (String.append "" (String.append "0x" ?s))) with s.
  apply rstrip_L_b2a_hex.
Qed.

(** The helpers on small inputs, as Python prints them. *)
Example hex_255 : hex false 255 = "0xff".
Proof. reflexivity. Qed.

Example hex_minus_5 : hex false (-5) = "-0x5".
Proof. reflexivity. Qed.

Example hex_long_python2 : rstrip_L (drop2 (hex true 255)) = "ff".
Proof. reflexivity. Qed.

Example b2a_hex_bytes : b2a_hex [x80; x03; x0a] = "80030a".
Proof. reflexivity. Qed.

Example a2b_hex_odd : a2b_hex "abc" = Raise binascii_Error.
Proof. reflexivity. Qed.

Example int16_empty : int16 "" = Raise ValueError.
Proof. reflexivity. Qed.

(** The opcode matters: a byte string that opens with a byte below 0x10
    loses its leading zero digit in the integer, and the digits that come
    back no longer pair up. *)
Example low_first_byte_does_not_round_trip :
  int16 (b2a_hex [x01; x02]) = Ret 258 /\
  a2b_hex (rstrip_L (drop2 (hex false 258))) = Raise binascii_Error.
Proof. split; reflexivity. Qed.

End HexFacts.

(** ** MD5: the test suite of RFC 1321 *)

Module MD5Facts.

Example md5_empty : MD5.hexdigest [] = "d41d8cd98f00b204e9800998ecf8427e".
Proof. vm_compute. reflexivity. Qed.

Example md5_a : MD5.hexdigest (list_byte_of_string "a") = "0cc175b9c0f1b6a831c399e269772661".
Proof. vm_compute. reflexivity. Qed.

Example md5_abc : MD5.hexdigest (list_byte_of_string "abc") = "900150983cd24fb0d6963f7d28e17f72".
Proof. vm_compute. reflexivity. Qed.

Example md5_message_digest :
  MD5.hexdigest (list_byte_of_string "message digest") = "f96b697d7cb7938d525a2f31aaf161d0".
Proof. vm_compute. reflexivity. Qed.

Example md5_digits :
  MD5.hexdigest
    (list_byte_of_string
       "12345678901234567890123456789012345678901234567890123456789012345678901234567890")
  = "57edf4a22be3c955ac49da2e2107b67a".
Proof. vm_compute. reflexivity. Qed.

End MD5Facts.

(** ** Doubles *)

Module DoubleFacts.
Import Double.
Local Open Scope Q_scope.

Lemma pow2_pos (e : Z) : 0 < pow2 e.
Proof. unfold pow2. apply Qpower_0_lt. reflexivity. Qed.

Lemma pow2_plus (a b : Z) : pow2 (a + b) == pow2 a * pow2 b.
Proof. unfold pow2. apply Qpower_plus. discriminate. Qed.

Lemma pow2_le (a b : Z) : (a <= b)%Z -> pow2 a <= pow2 b.
Proof. unfold pow2. intros Hab. apply Qpower_le_compat_l; [exact Hab|]. discriminate. Qed.

Lemma pow2_Z (n : Z) : (0 <= n)%Z -> pow2 n == inject_Z (2 ^ n).
Proof. intros Hn. unfold pow2. rewrite Zpower_Qpower by exact Hn. reflexivity. Qed.

Lemma exponent_spec (x : Q) : 0 < x -> pow2 (exponent x) <= x /\ x < pow2 (exponent x + 1).
Proof.
  intros Hx. destruct x as [n d]. unfold exponent. cbn [Qnum Qden].
  assert (Hn : (0 < n)%Z). { unfold Qlt in Hx. cbn in Hx. lia. }
  set (a := Z.log2 n). set (b := Z.log2 (Zpos d)).
  destruct (Z.log2_spec n Hn) as [Ha1 Ha2]. fold a in Ha1, Ha2.
  destruct (Z.log2_spec (Zpos d) ltac:(lia)) as [Hb1 Hb2]. fold b in Hb1, Hb2.
  assert (Ha0 : (0 <= a)%Z) by apply Z.log2_nonneg.
  assert (Hb0 : (0 <= b)%Z) by apply Z.log2_nonneg.
  assert (Hxd : (n # d) * inject_Z (Zpos d) == inject_Z n).
  { unfold Qeq, Qmult, inject_Z. cbn. lia. }
  pose proof (pow2_Z a Ha0) as Ea. pose proof (pow2_Z (a + 1) ltac:(lia)) as Ea1.
  pose proof (pow2_Z b Hb0) as Eb. pose proof (pow2_Z (b + 1) ltac:(lia)) as Eb1.
  assert (Qa1 : pow2 a <= inject_Z n). { rewrite Ea. rewrite <- Zle_Qle. exact Ha1. }
  assert (Qa2 : inject_Z n < pow2 (a + 1)). { rewrite Ea1. rewrite <- Zlt_Qlt. lia. }
  assert (Qb1 : pow2 b <= inject_Z (Zpos d)). { rewrite Eb. rewrite <- Zle_Qle. exact Hb1. }
  assert (Qb2 : inject_Z (Zpos d) < pow2 (b + 1)). { rewrite Eb1. rewrite <- Zlt_Qlt. lia. }
  pose proof (pow2_pos b) as Pb. pose proof (pow2_pos (a - b)) as Pab.
  assert (E1 : pow2 a == pow2 (a - b) * pow2 b).
  { rewrite <- pow2_plus. replace (a - b + b)%Z with a by lia. reflexivity. }
  assert (E2 : pow2 (a + 1) == pow2 (a - b + 1) * pow2 b).
  { rewrite <- pow2_plus. replace (a - b + 1 + b)%Z with (a + 1)%Z by lia. reflexivity. }
  assert (E3 : pow2 a == pow2 (a - b - 1) * pow2 (b + 1)).
  { rewrite <- pow2_plus. replace (a - b - 1 + (b + 1))%Z with a by lia. reflexivity. }
  pose proof (pow2_pos (a - b + 1)) as Pab1. pose proof (pow2_pos (a - b - 1)) as Pabm.
  pose proof (pow2_pos (b + 1)) as Pb1.
  set (x := n # d) in *. set (D := inject_Z (Zpos d)) in *. set (N := inject_Z n) in *.
  assert (HD : 0 < D). { unfold D. rewrite <- (Zlt_Qlt 0). lia. }
  destruct (Qle_bool (pow2 (a - b)) x) eqn:Htest.
  - apply Qle_bool_iff in Htest. split; [exact Htest|].
    (* x < pow2 (a-b+1) *)
    apply Qnot_le_lt. intros Hc.
    assert (pow2 (a - b + 1) * pow2 b <= x * D) by nra.
    rewrite Hxd, <- E2 in H. lra.
  - assert (Hlt : x < pow2 (a - b)).
    { apply Qnot_le_lt. intros Hc. apply Qle_bool_iff in Hc. congruence. }
    replace (a - b - 1 + 1)%Z with (a - b)%Z by lia. split; [|exact Hlt].
    apply Qnot_lt_le. intros Hc.
    assert (x * D < pow2 (a - b - 1) * pow2 (b + 1)) by nra.
    rewrite Hxd, <- E3 in H. lra.
Qed.

Lemma round_half_even_close (y : Q) :
  y - (1 # 2) <= inject_Z (round_half_even y) /\ inject_Z (round_half_even y) <= y + (1 # 2).
Proof.
  unfold round_half_even.
  pose proof (Qfloor_le y) as Hlo. pose proof (Qlt_floor y) as Hhi.
  rewrite inject_Z_plus in Hhi. change (inject_Z 1) with 1 in Hhi.
  destruct (Qcompare (y - inject_Z (Qfloor y)) (1 # 2)) eqn:Hcmp.
  - apply Qeq_alt in Hcmp. destruct (Z.even (Qfloor y)).
    + lra.
    + rewrite inject_Z_plus. change (inject_Z 1) with 1. lra.
  - apply Qlt_alt in Hcmp. lra.
  - apply Qgt_alt in Hcmp. rewrite inject_Z_plus. change (inject_Z 1) with 1. lra.
Qed.

Lemma finite_iff (x : Q) : finite x = true <-> Qabs x < huge.
Proof.
  unfold finite. rewrite negb_true_iff. split.
  - intros Hf. apply Qnot_le_lt. intros Hc. apply Qle_bool_iff in Hc. congruence.
  - intros Hlt. destruct (Qle_bool huge (Qabs x)) eqn:Hb; [|reflexivity].
    apply Qle_bool_iff in Hb. lra.
Qed.

(** What [nearest] returns is a double. *)
Lemma nearest_finite (x : Q) : finite x = true -> finite (nearest x) = true.
Proof.
  intros Hfin. unfold nearest.
  destruct (Qeq_bool x 0) eqn:Hzero; [reflexivity|].
  apply Qeq_bool_neq in Hzero.
  apply finite_iff in Hfin. apply finite_iff. rewrite Qred_correct.
  assert (Hax : 0 < Qabs x).
  { pose proof (Qabs_nonneg x) as Hn. apply Qle_lteq in Hn as [Hn|Hn]; [exact Hn|].
    exfalso. apply Hzero. symmetry in Hn.
    destruct (Qabs_Qle_condition x 0) as [Hc _]. rewrite Hn in Hc at 1.
    specialize (Hc ltac:(lra)). lra. }
  destruct (exponent_spec (Qabs x) Hax) as [Hlow Hupp].
  unfold quantum. set (e := exponent (Qabs x)) in *.
  set (k := Z.max (e - 52) (-1074)).
  pose proof (pow2_pos k) as Hq. set (q := pow2 k) in *.
  destruct (round_half_even_close (x / q)) as [Hr1 Hr2].
  set (m := inject_Z (round_half_even (x / q))) in *.
  assert (Hxq : x / q * q == x) by (field; lra).
  assert (Hm1 : x - q * (1 # 2) <= m * q) by nra.
  assert (Hm2 : m * q <= x + q * (1 # 2)) by nra.
  destruct (Qabs_Qle_condition x (Qabs x)) as [Hbound _].
  specialize (Hbound ltac:(lra)).
  pose proof (pow2_pos 970) as HA.
  assert (E971 : pow2 971 == 2 * pow2 970).
  { change 971%Z with (1 + 970)%Z. rewrite pow2_plus. reflexivity. }
  assert (E1023 : pow2 1023 == inject_Z (2 ^ 53) * pow2 970).
  { change 1023%Z with (53 + 970)%Z. rewrite pow2_plus, (pow2_Z 53) by lia. reflexivity. }
  assert (E1024 : pow2 1024 == inject_Z (2 ^ 54) * pow2 970).
  { change 1024%Z with (54 + 970)%Z. rewrite pow2_plus, (pow2_Z 54) by lia. reflexivity. }
  assert (He : (e <= 1023)%Z).
  { destruct (Z_le_gt_dec e 1023) as [|Hbig]; [assumption|exfalso].
    pose proof (pow2_le 1024 e ltac:(lia)). unfold huge in Hfin.
    change (inject_Z (2 ^ 54)) with (18014398509481984 # 1) in E1024. lra. }
  unfold huge in *.
  change (inject_Z (2 ^ 53)) with (9007199254740992 # 1) in E1023.
  change (inject_Z (2 ^ 54)) with (18014398509481984 # 1) in E1024.
  apply Qabs_Qlt_condition.
  destruct (Z_le_gt_dec k 970) as [Hk|Hk].
  - assert (Hq970 : q <= pow2 970) by (apply pow2_le; exact Hk).
    assert (Hsmall : Qabs x < pow2 1023).
    { eapply Qlt_le_trans; [exact Hupp|]. apply pow2_le. lia. }
    split; lra.
  - assert (Ek : k = 971%Z) by lia.
    assert (Eq : q == 2 * pow2 970) by (unfold q; rewrite Ek; exact E971).
    assert (Hn1 : (round_half_even (x / q) < 2 ^ 53)%Z).
    { rewrite Zlt_Qlt. fold m. change (inject_Z (2 ^ 53)) with (9007199254740992 # 1). nra. }
    assert (Hn2 : (- 2 ^ 53 < round_half_even (x / q))%Z).
    { rewrite Zlt_Qlt. fold m. change (inject_Z (- 2 ^ 53)) with (-9007199254740992 # 1). nra. }
    assert (Hm3 : m <= 9007199254740991 # 1).
    { unfold m. change (9007199254740991 # 1) with (inject_Z (2 ^ 53 - 1)).
      rewrite <- Zle_Qle. lia. }
    assert (Hm4 : -9007199254740991 # 1 <= m).
    { unfold m. change (-9007199254740991 # 1) with (inject_Z (- (2 ^ 53 - 1))).
      rewrite <- Zle_Qle. lia. }
    split; nra.
Qed.

Lemma as_double_finite (x a : Q) : as_double x = Ret a -> finite a = true.
Proof.
  unfold as_double. destruct (finite x) eqn:Hfin; [|discriminate].
  intros E. injection E as <-. apply nearest_finite. exact Hfin.
Qed.

End DoubleFacts.

(** ** The reference host keeps the promises made for pickle *)

Module ReferenceFacts.
Import Reference.

Lemma pickle_laws : PickleLaws host.
Proof.
  split.
  - intros s. reflexivity.
  - intros s. exists x80, s. split; [reflexivity|]. vm_compute. discriminate.
Qed.

Lemma boot_sound (entropy : list Z) : sound (boot entropy).
Proof. intros n Hn. cbn in Hn. rewrite lookup_empty in Hn. discriminate. Qed.

End ReferenceFacts.

(** ** Statements that issue no message, statements that raise *)

Section Statements.
Context {H : Host}.

Ltac run := unfold mbind, M_bind, mret, M_ret, lift, raise in *.

Lemma quiet_ret {A} (a : A) : quiet (mret a).
Proof. intros w. reflexivity. Qed.

Lemma quiet_lift {A} (o : outcome A) : quiet (lift o).
Proof. intros w. reflexivity. Qed.

Lemma quiet_raise {A} (e : exn) : quiet (raise (A:=A) e).
Proof. intros w. reflexivity. Qed.

Lemma quiet_bind {A B} (m : M A) (k : A -> M B) :
  quiet m -> (forall a, quiet (k a)) -> quiet (m ≫= k).
Proof.
  intros Hm Hk w. run. specialize (Hm w).
  destruct (m w) as [[a|e] w1]; cbn [snd] in *; [|assumption].
  rewrite Hk. assumption.
Qed.

Lemma quiet_get_random_state : quiet get_random_state.
Proof.
  unfold get_random_state. apply quiet_bind; [intros w; reflexivity|].
  intros s. apply quiet_bind; [apply quiet_lift|]. intros. apply quiet_ret.
Qed.

Lemma quiet_numpy_random_seed (x : option Z) : quiet (numpy_random_seed x).
Proof.
  intros w. unfold numpy_random_seed. destruct x as [x|]; [|reflexivity].
  destruct (_ && _); reflexivity.
Qed.

Lemma quiet_set_random_state (state : option Z) : quiet (set_random_state state).
Proof.
  destruct state as [n|]; cbn [set_random_state]; [|apply quiet_numpy_random_seed].
  apply quiet_bind; [apply quiet_lift|]. intros data.
  apply quiet_bind; [apply quiet_lift|]. intros s w. reflexivity.
Qed.

Lemma quiet_RandomEnv_enter : quiet RandomEnv_enter.
Proof.
  unfold RandomEnv_enter. apply quiet_bind; [intros w; reflexivity|].
  apply quiet_set_random_state.
Qed.

Lemma quiet_RandomEnv_exit : quiet RandomEnv_exit.
Proof.
  unfold RandomEnv_exit. apply quiet_bind; [apply quiet_get_random_state|].
  intros n w. reflexivity.
Qed.

Lemma quiet_with_RandomEnv {A} (body : M A) : quiet body -> quiet (with_RandomEnv body).
Proof.
  intros Hbody w. unfold with_RandomEnv.
  pose proof (quiet_RandomEnv_enter w) as Henter.
  destruct (RandomEnv_enter w) as [[[]|e] w1]; cbn [snd] in *; [|assumption].
  specialize (Hbody w1). destruct (body w1) as [result w2]. cbn [snd] in *.
  pose proof (quiet_RandomEnv_exit w2) as Hexit.
  destruct (RandomEnv_exit w2) as [[[]|e] w3]; cbn [snd] in *; congruence.
Qed.

Lemma quiet_numpy_draw {A} (next : rk_state -> A * rk_state) (size : PyVal) :
  quiet (numpy_draw next size).
Proof.
  intros w. unfold numpy_draw.
  destruct size; try (destruct (next _); reflexivity);
    (destruct (np_size _); [destruct (draws _ _ _)|]; reflexivity).
Qed.

Lemma quiet_RandomEnv_randint (a b : Z) (size : PyVal) : quiet (RandomEnv_randint a b size).
Proof.
  unfold RandomEnv_randint, numpy_random_random_integers.
  destruct (_ || _); [apply quiet_raise|apply quiet_numpy_draw].
Qed.

(** A session whose body raises, raises. *)
Lemma fails_with_RandomEnv {A} (body : M A) : fails body -> fails (with_RandomEnv body).
Proof.
  intros Hbody w. unfold with_RandomEnv.
  destruct (RandomEnv_enter w) as [[[]|e] w1]; [|eauto].
  destruct (Hbody w1) as [e He]. destruct (body w1) as [result w2]. cbn [fst] in He.
  destruct (RandomEnv_exit w2) as [[[]|e'] w3]; cbn [fst]; eauto.
Qed.

Lemma fails_bind_l {A B} (m : M A) (k : A -> M B) : fails m -> fails (m ≫= k).
Proof.
  intros Hm w. run. destruct (Hm w) as [e He].
  destruct (m w) as [[a|e'] w1]; cbn [fst] in *; [discriminate|eauto].
Qed.

Lemma fails_bind_r {A B} (m : M A) (k : A -> M B) :
  (forall a, fails (k a)) -> fails (m ≫= k).
Proof.
  intros Hk w. run. destruct (m w) as [[a|e'] w1]; cbn [fst]; [apply Hk|eauto].
Qed.

End Statements.

(** ** The state codec: [get_random_state] and [set_random_state] *)

Section Codec.
Context {H : Host} {P : PickleLaws H}.

(** Reading the state never raises, leaves the world alone, and the integer
    it returns decodes to the state that was read. *)
Lemma get_random_state_spec (w : World) :
  exists n, get_random_state w = (Ret n, w) /\ 0 <= n /\
    forall w', set_random_state (Some n) w' = (Ret tt, set_numpy_random (numpy_random w) w').
Proof.
  destruct (pickle_dumps_opcode (numpy_random w)) as (b & rest & Hdump & Hb).
  destruct (HexFacts.hex_int16_b2a_hex long_suffix b rest Hb) as (n & Hint & Hpos & Htext).
  exists n. split; [|split; [assumption|]].
  - unfold get_random_state, numpy_random_get_state, lift, mbind, M_bind, mret, M_ret.
    rewrite Hdump, Hint. reflexivity.
  - intros w'.
    unfold set_random_state, numpy_random_set_state, lift, mbind, M_bind.
    rewrite Htext, HexFacts.a2b_hex_b2a_hex, <- Hdump, pickle_loads_dumps.
    reflexivity.
Qed.

(** C1: for every generator state, [get_random_state] returns a non-negative
    integer, and [set_random_state] applied to that integer, in whatever
    world, installs exactly the state that was captured:
    decode (encode s) = s. *)
Theorem state_codec_round_trip (w : World) :
  exists n, get_random_state w = (Ret n, w) /\ 0 <= n /\
    forall w', exists w'',
      set_random_state (Some n) w' = (Ret tt, w'') /\
      numpy_random w'' = numpy_random w /\
      config w'' = config w' /\ out w'' = out w' /\ entropy w'' = entropy w'.
Proof.
  destruct (get_random_state_spec w) as (n & Hget & Hpos & Hset).
  exists n. repeat split; try assumption.
  intros w'. exists (set_numpy_random (numpy_random w) w').
  rewrite Hset. repeat split.
Qed.

(** C2: once a session is entered, however its body ends (with a value or
    with an exception), leaving the session encodes the state the body left
    behind and stores it under [$RandomState], over whatever was stored
    before; the body's value or exception is passed on. *)
Theorem RandomEnv_exit_always_persists {A} (body : M A) (w w1 : World) :
  RandomEnv_enter w = (Ret tt, w1) ->
  exists n,
    get_random_state (snd (body w1)) = (Ret n, snd (body w1)) /\
    fst (with_RandomEnv body w) = fst (body w1) /\
    config (snd (with_RandomEnv body w))
      = <["$RandomState" := n]> (config (snd (body w1))) /\
    config (snd (with_RandomEnv body w)) !! "$RandomState" = Some n /\
    numpy_random (snd (with_RandomEnv body w)) = numpy_random (snd (body w1)) /\
    out (snd (with_RandomEnv body w)) = out (snd (body w1)).
Proof.
  intros Henter.
  destruct (get_random_state_spec (snd (body w1))) as (n & Hget & _ & _).
  exists n. split; [assumption|].
  unfold with_RandomEnv. rewrite Henter.
  destruct (body w1) as [result w2] eqn:Hbody. cbn [fst snd] in *.
  unfold RandomEnv_exit, set_config_value, mbind, M_bind.
  rewrite Hget. cbn [fst snd config numpy_random out].
  repeat split. apply lookup_insert_eq.
Qed.

(** The encoded state is a function of the generator state alone. *)
Lemma get_random_state_same (w w' : World) (n : Z) :
  numpy_random w' = numpy_random w ->
  get_random_state w = (Ret n, w) -> get_random_state w' = (Ret n, w').
Proof.
  unfold get_random_state, numpy_random_get_state, lift, mbind, M_bind, mret, M_ret.
  intros ->.
  destruct (Hex.int16 _); congruence.
Qed.

End Codec.

(** The round trip on the reference host, from its boot state. *)
Lemma state_codec_round_trip_witness :
  exists n, get_random_state (Reference.boot []) = (Ret n, Reference.boot []) /\ 0 <= n /\
    forall w', exists w'',
      set_random_state (Some n) w' = (Ret tt, w'') /\
      numpy_random w'' = numpy_random (Reference.boot []) /\
      config w'' = config w' /\ out w'' = out w' /\ entropy w'' = entropy w'.
Proof.
  exact (@state_codec_round_trip Reference.host ReferenceFacts.pickle_laws (Reference.boot [])).
Defined.

(** A session on the reference host whose body raises: the state is stored
    all the same. *)
Lemma RandomEnv_exit_always_persists_witness :
  RandomEnv_enter (Reference.boot [5]) = (Ret tt, mkWorld (Reference.state_of 5) ∅ [] []) /\
  exists n,
    get_random_state (snd (raise (A:=unit) ValueError (mkWorld (Reference.state_of 5) ∅ [] [])))
      = (Ret n, snd (raise (A:=unit) ValueError (mkWorld (Reference.state_of 5) ∅ [] []))) /\
    fst (with_RandomEnv (raise (A:=unit) ValueError) (Reference.boot [5]))
      = fst (raise (A:=unit) ValueError (mkWorld (Reference.state_of 5) ∅ [] [])) /\
    config (snd (with_RandomEnv (raise (A:=unit) ValueError) (Reference.boot [5])))
      = <["$RandomState" := n]>
          (config (snd (raise (A:=unit) ValueError (mkWorld (Reference.state_of 5) ∅ [] [])))) /\
    config (snd (with_RandomEnv (raise (A:=unit) ValueError) (Reference.boot [5])))
      !! "$RandomState" = Some n /\
    numpy_random (snd (with_RandomEnv (raise (A:=unit) ValueError) (Reference.boot [5])))
      = numpy_random (snd (raise (A:=unit) ValueError (mkWorld (Reference.state_of 5) ∅ [] []))) /\
    out (snd (with_RandomEnv (raise (A:=unit) ValueError) (Reference.boot [5])))
      = out (snd (raise (A:=unit) ValueError (mkWorld (Reference.state_of 5) ∅ [] []))).
Proof.
  split; [reflexivity|].
  apply (@RandomEnv_exit_always_persists Reference.host ReferenceFacts.pickle_laws unit
           (raise ValueError) (Reference.boot [5])).
  reflexivity.
Defined.

(** ** Sessions over a sound store *)

Section Sessions.
Context {H : Host} {P : PickleLaws H}.

(** Entering a session over a sound store succeeds and touches neither the
    store nor the messages. *)
Lemma RandomEnv_enter_sound (w : World) :
  sound w ->
  exists w1, RandomEnv_enter w = (Ret tt, w1) /\ config w1 = config w /\ out w1 = out w.
Proof.
  intros Hsound. unfold RandomEnv_enter, get_config_value, mbind, M_bind.
  destruct (config w !! "$RandomState") as [n|] eqn:Hslot.
  - destruct (Hsound n Hslot) as [w0 Hw0].
    destruct (get_random_state_spec w0) as (n' & Hget & _ & Hset).
    assert (n' = n) by congruence. subst n'.
    rewrite Hset. eexists. split; [reflexivity|]. split; reflexivity.
  - cbn [set_random_state numpy_random_seed]. eexists. split; [reflexivity|].
    split; reflexivity.
Qed.

(** A session over a sound store: the body runs in the entered world, its
    value or exception is the session's, and the store is sound again. *)
Lemma with_RandomEnv_sound {A} (body : M A) (w : World) :
  sound w ->
  exists w1, RandomEnv_enter w = (Ret tt, w1) /\ config w1 = config w /\ out w1 = out w /\
    fst (with_RandomEnv body w) = fst (body w1) /\
    out (snd (with_RandomEnv body w)) = out (snd (body w1)) /\
    numpy_random (snd (with_RandomEnv body w)) = numpy_random (snd (body w1)) /\
    sound (snd (with_RandomEnv body w)).
Proof.
  intros Hsound.
  destruct (RandomEnv_enter_sound w Hsound) as (w1 & Henter & Hconfig & Hout).
  exists w1. repeat (split; [assumption|]).
  unfold with_RandomEnv. rewrite Henter.
  destruct (body w1) as [result w2]. cbn [fst snd].
  destruct (get_random_state_spec w2) as (n & Hget & _ & _).
  unfold RandomEnv_exit, set_config_value, mbind, M_bind. rewrite Hget.
  cbn [fst snd out numpy_random]. repeat split.
  intros n' Hn'. cbn [config] in Hn'. rewrite lookup_insert_eq in Hn'.
  injection Hn' as <-. eauto.
Qed.

End Sessions.

(** ** Soundness of the store is an invariant *)

Section Soundness.
Context {H : Host} {P : PickleLaws H}.

Ltac run := unfold mbind, M_bind, mret, M_ret, lift, raise in *.

Lemma keeps_sound_ret {A} (a : A) : keeps_sound (mret a).
Proof. intros w Hw. exact Hw. Qed.

Lemma keeps_sound_lift {A} (o : outcome A) : keeps_sound (lift o).
Proof. intros w Hw. exact Hw. Qed.

Lemma keeps_sound_message (symbol tag : string) (args : list Expr) :
  keeps_sound (message symbol tag args).
Proof. intros w Hw. exact Hw. Qed.

Lemma keeps_sound_bind {A B} (m : M A) (k : A -> M B) :
  keeps_sound m -> (forall a, keeps_sound (k a)) -> keeps_sound (m ≫= k).
Proof.
  intros Hm Hk w Hw. run. specialize (Hm w Hw).
  destruct (m w) as [[a|e] w1]; cbn [snd] in *; [apply Hk|]; assumption.
Qed.

Lemma keeps_sound_with_RandomEnv {A} (body : M A) : keeps_sound (with_RandomEnv body).
Proof.
  intros w Hw. destruct (with_RandomEnv_sound body w Hw) as (w1 & _ & _ & _ & _ & _ & _ & Hs).
  exact Hs.
Qed.

Ltac sound_steps :=
  repeat first
    [ apply keeps_sound_ret | apply keeps_sound_lift | apply keeps_sound_message
    | apply keeps_sound_with_RandomEnv
    | apply keeps_sound_bind; [|intros ?] ].

Lemma keeps_sound__size_to_python (name : string) (domain size : Expr) :
  keeps_sound (_size_to_python name domain size).
Proof.
  unfold _size_to_python. repeat (sound_steps; try destruct (negb _)).
Qed.

Lemma keeps_sound__weights_to_python (name : string) (weights expr : Expr) :
  keeps_sound (_weights_to_python name weights expr).
Proof.
  unfold _weights_to_python. repeat (sound_steps; try destruct (negb _)).
Qed.

Lemma keeps_sound__RandomSelection_draw (name : string) (_replace : bool)
    (domain size : Expr) (weights : PyVal) (elements : list Expr) :
  keeps_sound (_RandomSelection_draw name _replace domain size weights elements).
Proof.
  unfold _RandomSelection_draw. apply keeps_sound_bind; [apply keeps_sound__size_to_python|].
  intros [err py_size]. destruct py_size; sound_steps.
Qed.

Lemma keeps_sound__RandomSelection_apply (name : string) (_replace : bool)
    (domain size : Expr) :
  keeps_sound (_RandomSelection_apply name _replace domain size).
Proof.
  unfold _RandomSelection_apply.
  destruct (String.eqb _ "System`Rule").
  - apply keeps_sound_bind; [apply keeps_sound_lift|]. intros weights_expr.
    apply keeps_sound_bind; [apply keeps_sound__weights_to_python|]. intros [err py_weights].
    do 4 (apply keeps_sound_bind; [apply keeps_sound_lift|]; intros ?).
    destruct (negb _); [sound_steps|apply keeps_sound__RandomSelection_draw].
  - destruct (String.eqb _ "System`List"); [apply keeps_sound__RandomSelection_draw|sound_steps].
Qed.

(** Every sampling call, [SeedRandom] and [$RandomState] leave a sound store
    sound: the stores a process can reach from an empty one are sound. *)
Lemma keeps_sound_run_call (c : Call) : keeps_sound (run_call c).
Proof.
  destruct c; cbn [run_call].
  - unfold RandomInteger_apply. destruct rmin, rmax; sound_steps.
  - unfold RandomInteger_apply_list. destruct rmin, rmax; sound_steps.
  - unfold RandomReal_apply. destruct (real_value xmin), (real_value xmax); sound_steps.
  - unfold RandomReal_apply_list. destruct (real_value xmin), (real_value xmax); sound_steps.
    destruct (negb _); sound_steps.
  - unfold RandomComplex_apply.
    destruct (complex_value (promote zmin)), (complex_value (promote zmax)); sound_steps.
  - unfold RandomComplex_apply_list.
    destruct (complex_value (promote zmin)), (complex_value (promote zmax));
      repeat (sound_steps; try destruct (negb _)).
  - apply keeps_sound__RandomSelection_apply.
  - apply keeps_sound__RandomSelection_apply.
Qed.

Lemma keeps_sound_SeedRandom_apply (x : Expr) : keeps_sound (SeedRandom_apply x).
Proof. unfold SeedRandom_apply. destruct x; sound_steps. Qed.

Lemma keeps_sound_SeedRandom_apply_empty : keeps_sound SeedRandom_apply_empty.
Proof. unfold SeedRandom_apply_empty. sound_steps. Qed.

Lemma keeps_sound_RandomState_apply : keeps_sound RandomState_apply.
Proof. unfold RandomState_apply. sound_steps. Qed.

Lemma keeps_sound_Set_RandomState (rhs : Expr) : keeps_sound (Set_RandomState rhs).
Proof. unfold Set_RandomState. sound_steps. Qed.

Lemma run_calls_sound (cs : list Call) (w : World) :
  sound w -> sound (snd (run_calls cs w)).
Proof.
  revert w. induction cs as [|c cs IH]; intros w Hw; [exact Hw|].
  cbn [run_calls]. pose proof (keeps_sound_run_call c w Hw) as Hw1.
  destruct (run_call c w) as [r w1]. cbn [snd] in Hw1. specialize (IH w1 Hw1).
  destruct (run_calls cs w1) as [rs w2]. exact IH.
Qed.

End Soundness.

(** ** The shape builder *)

Section ShapeBuilder.
Context {A : Type}.





End ShapeBuilder.

(** ** Shapes *)

(** The shape [{n1, ..., nk}] as the evaluator passes it. *)
Lemma to_python_shape (dims : list Z) :
  to_python (Expression "List" (List.map Integer dims)) = PyList (List.map PyInt dims).
Proof.
  cbn [to_python]. change (String.eqb "List" "List") with true. cbn iota.
  rewrite List.map_map. reflexivity.
Qed.

Lemma is_numeric_shape (dims : list Z) : forallb is_numeric (List.map Integer dims) = true.
Proof. induction dims; [reflexivity|assumption]. Qed.

Lemma is_nonneg_int_shape (dims : list Z) :
  forallb is_nonneg_int (List.map PyInt dims) = forallb (Z.leb 0) dims.
Proof. induction dims as [|n dims IH]; [reflexivity|]. cbn. rewrite IH. reflexivity. Qed.

(** A comprehension raises as soon as one element does. *)
Lemma comprehension_raises {A B} (f : A -> outcome B) (xs : list A) :
  Exists (fun x => exists e, f x = Raise e) xs ->
  exists e, comprehension f xs = Raise e.
Proof.
  induction 1 as [x xs [e He]|x xs _ [e IH]]; cbn [comprehension].
  - rewrite He. eauto.
  - destruct (f x) as [y|e']; [|eauto]. cbn. rewrite IH. eauto.
Qed.

(** numpy refuses a size with a negative entry. *)
Lemma np_size_negative (dims : list Z) :
  forallb (Z.leb 0) dims = false ->
  exists e, np_size (PyList (List.map PyInt dims)) = Raise e.
Proof.
  intros Hneg. unfold np_size.
  destruct (comprehension_raises np_dimension (List.map PyInt dims)) as [e ->];
    [|exists e; reflexivity].
  induction dims as [|n dims IH]; [discriminate|].
  cbn in Hneg. destruct (Z.leb_spec 0 n) as [Hn|Hn].
  - right. apply IH. assumption.
  - left. exists ValueError. cbn. destruct (Z.ltb_spec n 0); [reflexivity|lia].
Qed.

(** ** Shape validation in the sampling builtins *)

Section Shapes.
Context {H : Host}.

Ltac run := unfold mbind, M_bind, mret, M_ret, lift, raise in *.

Lemma fails_randint_negative (a b : Z) (dims : list Z) :
  forallb (Z.leb 0) dims = false ->
  fails (RandomEnv_randint a b (PyList (List.map PyInt dims))).
Proof.
  intros Hneg w. unfold RandomEnv_randint, numpy_random_random_integers.
  destruct (_ || _); [eexists; reflexivity|].
  unfold numpy_draw. destruct (np_size_negative dims Hneg) as [e ->]. eauto.
Qed.

(** C3, at [RandomInteger[{rmin, rmax}, {n1, ...}]]: with a negative
    dimension the call raises and issues no message; the size goes to numpy
    unchecked. *)
Theorem RandomInteger_apply_list_unchecked_shape (rmin rmax : Z) (dims : list Z) (w : World) :
  forallb (Z.leb 0) dims = false ->
  (exists e, fst (RandomInteger_apply_list (Integer rmin) (Integer rmax) (shape_expr dims) w)
             = Raise e) /\
  out (snd (RandomInteger_apply_list (Integer rmin) (Integer rmax) (shape_expr dims) w)) = out w.
Proof.
  intros Hneg. unfold RandomInteger_apply_list, shape_expr. rewrite to_python_shape. split.
  - apply fails_with_RandomEnv, fails_bind_l, fails_randint_negative. assumption.
  - apply quiet_with_RandomEnv, quiet_bind; [apply quiet_RandomEnv_randint|].
    intros a. apply quiet_bind; [apply quiet_lift|]. intros. apply quiet_ret.
Qed.

(** [RandomInteger.apply_list] has no shape message at all: whatever the
    arguments, the only message it can issue is [unifr]. *)
Lemma RandomInteger_apply_list_messages (rmin rmax ns : Expr) (w : World) :
  let w' := snd (RandomInteger_apply_list rmin rmax ns w) in
  out w' = out w \/
  out w' = (out w ++ [mkMessage "RandomInteger" "unifr" [Expression "List" [rmin; rmax]]])%list.
Proof.
  cbn zeta. unfold RandomInteger_apply_list.
  destruct rmin; try (right; reflexivity).
  destruct rmax; try (right; reflexivity).
  left. apply quiet_with_RandomEnv, quiet_bind; [apply quiet_RandomEnv_randint|].
  intros a. apply quiet_bind; [apply quiet_lift|]. intros. apply quiet_ret.
Qed.

(** The sibling builtins do check.  [RandomReal]: *)
Lemma RandomReal_apply_list_checks_shape (xmin xmax : Expr) (dims : list Z) (w : World) :
  is_Some (real_value xmin) -> is_Some (real_value xmax) ->
  forallb (Z.leb 0) dims = false ->
  RandomReal_apply_list xmin xmax (shape_expr dims) w
  = (Ret None,
     mkWorld (numpy_random w) (config w)
       (out w ++ [mkMessage "RandomReal" "array"
                    [Expression "RandomReal" [Expression "List" [xmin; xmax]; shape_expr dims];
                     shape_expr dims]])%list
       (entropy w)).
Proof.
  intros [a Ha] [b Hb] Hneg. unfold RandomReal_apply_list, shape_expr.
  rewrite Ha, Hb, to_python_shape. run. cbn [iter_py].
  rewrite is_nonneg_int_shape, Hneg. reflexivity.
Qed.

(** [RandomComplex], once its corners have become Python complex numbers: *)
Lemma RandomComplex_apply_list_checks_shape (zmin zmax : Expr) (dims : list Z) (w : World) :
  is_Some (corner_value zmin) -> is_Some (corner_value zmax) ->
  forallb (Z.leb 0) dims = false ->
  RandomComplex_apply_list zmin zmax (shape_expr dims) w
  = (Ret None,
     mkWorld (numpy_random w) (config w)
       (out w ++ [mkMessage "RandomComplex" "array"
                    [shape_expr dims;
                     Expression "RandomComplex" [Expression "List" [zmin; zmax]; shape_expr dims]]])%list
       (entropy w)).
Proof.
  intros [a Ha] [b Hb] Hneg. unfold corner_value in Ha, Hb.
  unfold RandomComplex_apply_list, shape_expr.
  destruct (complex_value (promote zmin)) as [zlo|]; [|discriminate].
  destruct (complex_value (promote zmax)) as [zhi|]; [|discriminate].
  run. destruct (py_complex zlo); [|discriminate]. destruct (py_complex zhi); [|discriminate].
  rewrite to_python_shape. cbn [iter_py].
  rewrite is_nonneg_int_shape, Hneg. reflexivity.
Qed.

End Shapes.

(** [RandomInteger[{0, 1}, {1, -1}]]: numpy's [ValueError], no message. *)
Lemma RandomInteger_apply_list_unchecked_shape_witness :
  forallb (Z.leb 0) [1; -1] = false /\
  (exists e, fst (RandomInteger_apply_list (Integer 0) (Integer 1) (shape_expr [1; -1])
                    (Reference.boot [7])) = Raise e) /\
  out (snd (RandomInteger_apply_list (Integer 0) (Integer 1) (shape_expr [1; -1])
              (Reference.boot [7]))) = out (Reference.boot [7]).
Proof.
  split; [reflexivity|].
  apply (@RandomInteger_apply_list_unchecked_shape Reference.host 0 1 [1; -1]
           (Reference.boot [7])).
  reflexivity.
Defined.

Example RandomInteger_negative_dimension :
  fst (RandomInteger_apply_list (Integer 0) (Integer 1) (shape_expr [1; -1]) (Reference.boot [7]))
  = Raise ValueError.
Proof. vm_compute. reflexivity. Qed.

(** The same shape at [RandomReal]: the [array] message, no exception. *)
Example RandomReal_negative_dimension :
  let result := RandomReal_apply_list (Integer 0) (Integer 1) (shape_expr [1; -1])
                  (Reference.boot [7]) in
  fst result = Ret None /\
  out (snd result)
  = [mkMessage "RandomReal" "array"
       [Expression "RandomReal" [Expression "List" [Integer 0; Integer 1]; shape_expr [1; -1]];
        shape_expr [1; -1]]].
Proof. vm_compute. split; reflexivity. Qed.

(** ** Weights in [RandomChoice] and [RandomSample] *)

(** A Python list or tuple is never a numpy scalar. *)
Lemma asarray_sequence_shape (v : PyVal) (items : list PyVal) (a : ndarray Q) :
  iter_py v = Ret items -> asarray v = Some a -> shape a <> [].
Proof.
  intros Hiter Ha.
  assert (Hseq : v = PyList items \/ v = PyTuple items).
  { destruct v; try discriminate; injection Hiter as <-; auto. }
  destruct Hseq as [-> | ->]; cbn [asarray] in Ha;
    (destruct (List.map asarray items) as [|[first|] rest];
     [injection Ha as <-; discriminate
     |destruct (forallb _ _); [injection Ha as <-; discriminate|discriminate]
     |discriminate]).
Qed.

(** The pair [(err, py_weights)] that [_weights_to_python] returns is no
    regular nest of numbers, so [numpy.sum] raises on it. *)
Lemma numpy_sum_pair_raises (v : PyVal) (items : list PyVal) :
  iter_py v = Ret items -> numpy_sum (PyTuple [PyBool false; v]) = Raise TypeError.
Proof.
  intros Hiter. unfold numpy_sum.
  assert (Hnone : asarray (PyTuple [PyBool false; v]) = None); [|rewrite Hnone; reflexivity].
  cbn [asarray List.map forallb].
  destruct (asarray v) as [a|] eqn:Ha.
  - pose proof (asarray_sequence_shape v items a Hiter Ha) as Hshape.
    cbn [shape scalar]. rewrite bool_decide_eq_true_2 by reflexivity.
    rewrite (bool_decide_eq_false_2 (shape a = [])) by assumption. reflexivity.
  - cbn [shape scalar]. rewrite bool_decide_eq_true_2 by reflexivity. reflexivity.
Qed.

Lemma numpy_sum_none_raises : numpy_sum (PyTuple [PyNone; PyNone]) = Raise TypeError.
Proof. reflexivity. Qed.

Section Weights.
Context {H : Host}.

Ltac run := unfold mbind, M_bind, mret, M_ret, lift, raise in *.

(** C4: whatever the weights, the elements and the size, a call with a rule
    [weights -> elements] as domain raises before any check of the lengths,
    any normalisation and any draw: generator and store are as before. *)
Theorem RandomSelection_rule_domain_raises (name : string) (_replace : bool)
    (leaves : list Expr) (size : Expr) (w : World) :
  let result := _RandomSelection_apply name _replace (Expression "Rule" leaves) size w in
  (exists e, fst result = Raise e) /\
  numpy_random (snd result) = numpy_random w /\
  config (snd result) = config w /\
  (forall m, m ∈ out (snd result) -> m ∈ out w \/ msg_tag m = "weights").
Proof.
  cbn zeta. unfold _RandomSelection_apply. cbn [get_head_name].
  change (String.eqb (String.append "System`" "Rule") "System`Rule") with true.
  cbn iota. run.
  destruct (py_index (leaves_of (Expression "Rule" leaves)) 0) as [weights|e];
    [|cbn; eauto 6].
  unfold _weights_to_python. run.
  destruct (iter_expr weights) as [items|e]; [|cbn; eauto 6].
  destruct (negb (forallb is_numeric items)).
  { unfold message. rewrite numpy_sum_none_raises. cbn.
    repeat split; eauto. intros m Hm. apply elem_of_app in Hm as [Hm|Hm]; [auto|].
    apply list_elem_of_singleton in Hm. subst m. auto. }
  destruct (iter_py (to_python weights)) as [py_items|e] eqn:Hiter; [|cbn; eauto 6].
  destruct (negb (forallb is_nonneg_number py_items)).
  { unfold message. rewrite numpy_sum_none_raises. cbn.
    repeat split; eauto. intros m Hm. apply elem_of_app in Hm as [Hm|Hm]; [auto|].
    apply list_elem_of_singleton in Hm. subst m. auto. }
  rewrite (numpy_sum_pair_raises _ _ Hiter). cbn. eauto 6.
Qed.

End Weights.

(** [RandomChoice[{1, 1} -> {a, b}, {1}]]: valid weights, and a [TypeError]. *)
Example RandomChoice_valid_weights_raise :
  let result := RandomChoice_apply
                  (Expression "Rule" [Expression "List" [Integer 1; Integer 1];
                                      Expression "List" [Symbol "a"; Symbol "b"]])
                  (shape_expr [1]) (Reference.boot [7]) in
  fst result = Raise TypeError /\ out (snd result) = [].
Proof. vm_compute. split; reflexivity. Qed.

(** [RandomSample[{1, 1, 1} -> {a, b}, {1}]]: three weights for two
    elements, and no [lengths] message. *)
Example RandomSample_weight_count_raise :
  let result := RandomSample_apply
                  (Expression "Rule" [Expression "List" [Integer 1; Integer 1; Integer 1];
                                      Expression "List" [Symbol "a"; Symbol "b"]])
                  (shape_expr [1]) (Reference.boot [7]) in
  fst result = Raise TypeError /\ out (snd result) = [].
Proof. vm_compute. split; reflexivity. Qed.

(** ** Sizes that numpy accepts *)

(** Among non-negative dimensions, none exceeds the product of those that
    are not 0. *)
Lemma nonzero_product_bound (dims : list Z) :
  forallb (Z.leb 0) dims = true ->
  1 <= fold_right Z.mul 1 (List.filter (fun n => negb (n =? 0)) dims) /\
  Forall (fun n => n <= fold_right Z.mul 1 (List.filter (fun n => negb (n =? 0)) dims)) dims.
Proof.
  induction dims as [|n dims IH]; intros Hpos; [split; [cbn; lia|constructor]|].
  cbn [forallb] in Hpos. apply andb_prop in Hpos as [Hn Hrest]. apply Z.leb_le in Hn.
  destruct (IH Hrest) as [Hone Hall]. cbn [List.filter].
  destruct (Z.eqb_spec n 0) as [->|Hnz]; cbn [negb fold_right].
  - split; [exact Hone|]. constructor; [lia|exact Hall].
  - split; [nia|]. constructor; [nia|].
    eapply Forall_impl; [exact Hall|]. cbn. intros m Hm. nia.
Qed.



(** Entries within the index range pass one by one. *)
Lemma np_dimensions_bounded (dims : list Z) :
  Forall (fun n => 0 <= n <= intp_max) dims ->
  comprehension np_dimension (List.map PyInt dims) = Ret dims.
Proof.
  induction 1 as [|n dims [Hlo Hhi] _ IH]; [reflexivity|].
  cbn [List.map comprehension np_dimension].
  destruct (Z.ltb_spec n 0); [lia|]. destruct (Z.ltb_spec intp_max n); [lia|].
  cbn. rewrite IH. reflexivity.
Qed.

(** A shape of non-negative integers whose array can be counted in bytes is
    the shape numpy draws. *)
Lemma np_size_shape (dims : list Z) :
  forallb (Z.leb 0) dims = true -> np_nbytes dims <= intp_max ->
  np_size (PyList (List.map PyInt dims)) = Ret (List.map Z.to_nat dims).
Proof.
  intros Hpos Hfits. unfold np_size.
  rewrite np_dimensions_bounded.
  - cbn. destruct (Z.ltb_spec intp_max (np_nbytes dims)); [lia|reflexivity].
  - destruct (nonzero_product_bound dims Hpos) as [Hone Hall].
    unfold np_nbytes in Hfits. rewrite Forall_forall in Hall. apply Forall_forall.
    intros n Hn. specialize (Hall n Hn). split; [|lia].
    rewrite forallb_forall in Hpos. apply Z.leb_le, Hpos.
    apply list_elem_of_In. exact Hn.
Qed.

(** ** Bounds that numpy accepts *)

(** A float that is a double is read as it is. *)
Lemma np_double_float (a : Q) : Double.finite a = true -> np_double (PyFloat a) = Ret a.
Proof. intros Ha. cbn [np_double]. rewrite Ha. reflexivity. Qed.


(** What a corner of [RandomComplex] hands to numpy: two doubles. *)
Lemma corner_value_inv (z : Expr) (c : Q * Q) :
  corner_value z = Some c ->
  exists parts, complex_value (promote z) = Some parts /\ py_complex parts = Ret c /\
                np_double (PyFloat (fst c)) = Ret (fst c) /\
                np_double (PyFloat (snd c)) = Ret (snd c).
Proof.
  unfold corner_value. destruct (complex_value (promote z)) as [parts|]; [|discriminate].
  destruct (py_complex parts) as [c'|] eqn:Hc; [|discriminate].
  intros E. injection E as <-. exists parts. split; [reflexivity|]. split; [exact Hc|].
  unfold py_complex in Hc.
  destruct (as_double (fst parts)) as [re|] eqn:Hre; [|discriminate].
  destruct (as_double (snd parts)) as [im|] eqn:Him; [|discriminate].
  cbn in Hc. injection Hc as <-. cbn [fst snd].
  split; apply np_double_float; eapply DoubleFacts.as_double_finite; eassumption.
Qed.

(** Integer bounds within 64 bits and in order pass numpy's tests. *)
Lemma randint_accepts (a b : Z) :
  int64_min <= a -> a <= b -> b <= int64_max ->
  (a <? int64_min) || (int64_max <? b) || (b <? a) = false.
Proof.
  intros Ha Hab Hb.
  destruct (Z.ltb_spec a int64_min); [lia|]. destruct (Z.ltb_spec int64_max b); [lia|].
  destruct (Z.ltb_spec b a); [lia|]. reflexivity.
Qed.

(** Integer bounds numpy refuses. *)
Lemma randint_refuses (a b : Z) :
  a < int64_min \/ int64_max < b \/ b < a ->
  (a <? int64_min) || (int64_max <? b) || (b <? a) = true.
Proof.
  intros Hbad.
  destruct (Z.ltb_spec a int64_min); [reflexivity|]. destruct (Z.ltb_spec int64_max b);
    [reflexivity|]. destruct (Z.ltb_spec b a); [reflexivity|lia].
Qed.

Section Uniform.
Context {H : Host}.

Ltac run := unfold mbind, M_bind, mret, M_ret, lift, raise in *.

(** With bounds that are doubles and a finite range, [uniform] is the draw. *)
Lemma numpy_random_uniform_run (va vb : PyVal) (a b : Q) (size : PyVal) (w : World) :
  np_double va = Ret a -> np_double vb = Ret b -> Double.finite (b - a) = true ->
  numpy_random_uniform va vb size w = numpy_draw (rk_uniform a b) size w.
Proof.
  intros Ha Hb Hrange. unfold numpy_random_uniform. run.
  rewrite Ha, Hb, Hrange. reflexivity.
Qed.

Lemma RandomEnv_randreal_run (va vb : PyVal) (a b : Q) (size : PyVal) (w : World) :
  np_double va = Ret a -> np_double vb = Ret b -> Double.finite (b - a) = true ->
  RandomEnv_randreal va vb size w = numpy_draw (rk_uniform a b) size w.
Proof. apply numpy_random_uniform_run. Qed.


End Uniform.

(** ** [RandomChoice] and [RandomSample] *)

Section Selection.
Context {H : Host}.

Ltac run := unfold mbind, M_bind, mret, M_ret, lift, raise in *.

(** [_size_to_python] iterates the size expression itself, and
    [_weights_to_python] the weights expression: neither gets past its
    first line. *)
Lemma _size_to_python_raises (name : string) (domain size : Expr) (w : World) :
  _size_to_python name domain size w = (Raise TypeError, w).
Proof. reflexivity. Qed.

Lemma _weights_to_python_raises (name : string) (weights expr : Expr) (w : World) :
  _weights_to_python name weights expr w = (Raise TypeError, w).
Proof. reflexivity. Qed.

(** With a list as domain, [apply] goes straight to [_size_to_python]. *)
Lemma _RandomSelection_apply_list_domain (name : string) (_replace : bool)
    (elements : list Expr) (size : Expr) (w : World) :
  _RandomSelection_apply name _replace (Expression "List" elements) size w
  = (Raise TypeError, w).
Proof.
  unfold _RandomSelection_apply. cbn [get_head_name].
  change (String.eqb (String.append "System`" "List") "System`Rule") with false.
  change (String.eqb (String.append "System`" "List") "System`List") with true.
  reflexivity.
Qed.

(** The draw itself has no test of the count against the population: asked
    for more than the population holds, without replacement, numpy raises
    [ValueError]. *)
Lemma RandomEnv_randchoice_too_many (n : nat) (dims : list Z) (w : World) :
  forallb (Z.leb 0) dims = true -> np_nbytes dims <= intp_max ->
  (n < size_of (List.map Z.to_nat dims))%nat ->
  RandomEnv_randchoice n (PyList (List.map PyInt dims)) false PyNone w
  = (Raise ValueError, w).
Proof.
  intros Hpos Hfits Hmany. unfold RandomEnv_randchoice, numpy_random_choice.
  destruct (n =? 0)%nat; [reflexivity|]. cbn [np_weights].
  rewrite (np_size_shape dims Hpos Hfits).
  destruct (Nat.ltb_spec n (size_of (List.map Z.to_nat dims))); [reflexivity|lia].
Qed.

(** C5, at every call of [RandomSample] on a list: the call raises
    [TypeError] where [_size_to_python] iterates the size expression, before
    a session is opened; it issues no message, draws nothing and returns
    nothing, whether more elements are asked for than the list holds or
    not.  Past that line there is no test of the count either: the draw
    that [apply] would make for more than the list holds ends in numpy's
    [ValueError]. *)
Theorem RandomSample_apply_raises (elements : list Expr) (size : Expr) (w : World) :
  RandomSample_apply (Expression "List" elements) size w = (Raise TypeError, w) /\
  (forall dims : list Z,
     forallb (Z.leb 0) dims = true -> np_nbytes dims <= intp_max ->
     (length elements < size_of (List.map Z.to_nat dims))%nat ->
     RandomEnv_randchoice (length elements) (PyList (List.map PyInt dims)) false PyNone w
     = (Raise ValueError, w)).
Proof.
  split.
  - apply _RandomSelection_apply_list_domain.
  - intros dims Hpos Hfits Hmany. apply RandomEnv_randchoice_too_many; assumption.
Qed.

(** The first rule of [_RandomBase]: a call with one argument gets the size
    [{1}], whatever the argument. *)
Lemma _RandomBase_rules_no_size (name : string) (domain : Expr) :
  _RandomBase_rules name (Expression name [domain])
  = Some (Expression name [domain; shape_expr [1]]).
Proof. cbn [_RandomBase_rules]. rewrite String.eqb_refl. reflexivity. Qed.

(** C10, at every call [name[{e1, ..., en}]] of [RandomChoice] and
    [RandomSample]: the call is rewritten to [name[{e1, ..., en}, {1}]], as
    the claim says, and [apply] then raises [TypeError] on the size [{1}]:
    no [List] of one element comes back, and nothing is drawn. *)
Theorem RandomSelection_no_size_raises (name : string) (_replace : bool)
    (elements : list Expr) (w : World) :
  _RandomBase_rules name (Expression name [Expression "List" elements])
  = Some (Expression name [Expression "List" elements; Expression "List" [Integer 1]]) /\
  _RandomSelection_evaluate name _replace (Expression name [Expression "List" elements]) w
  = (Raise TypeError, w).
Proof.
  split; [apply _RandomBase_rules_no_size|].
  unfold _RandomSelection_evaluate. rewrite _RandomBase_rules_no_size.
  unfold default, id. cbn iota. rewrite String.eqb_refl.
  apply _RandomSelection_apply_list_domain.
Qed.

End Selection.

(** [RandomSample[{a, b, c}, {2}]], two out of three, and
    [RandomSample[{a, b}, {3}]], three out of two: [TypeError] both. *)
Example RandomSample_two_of_three :
  RandomSample_apply (Expression "List" [Symbol "a"; Symbol "b"; Symbol "c"])
    (shape_expr [2]) (Reference.boot [7])
  = (Raise TypeError, Reference.boot [7]) /\
  RandomSample_apply (Expression "List" [Symbol "a"; Symbol "b"])
    (shape_expr [3]) (Reference.boot [7])
  = (Raise TypeError, Reference.boot [7]).
Proof. split; reflexivity. Qed.

(** [RandomChoice[{a, b}]] on the reference host. *)
Example RandomChoice_no_size :
  _RandomSelection_evaluate "RandomChoice" true
    (Expression "RandomChoice" [Expression "List" [Symbol "a"; Symbol "b"]])
    (Reference.boot [7])
  = (Raise TypeError, Reference.boot [7]).
Proof. reflexivity. Qed.

(** ** Seeding *)

(** The integer [SeedRandom] derives from the string ["Mathics"]: 128 bits. *)
Lemma md5_Mathics :
  Hex.int16 (MD5.hexdigest (list_byte_of_string "Mathics"))
  = Ret 225824839078716710915448705232792428805.
Proof. vm_compute. reflexivity. Qed.

Section Seeding.
Context {H : Host} {P : PickleLaws H}.

Ltac run := unfold mbind, M_bind, mret, M_ret, lift, raise in *.

(** A seed outside [0, 2^32 - 1]: the session is entered, numpy refuses the
    seed, and the generator stays in the state the session installed. *)
Lemma seed_session_out_of_range (x : Z) (w : World) :
  sound w -> x < 0 \/ 4294967295 < x ->
  fst (with_RandomEnv (RandomEnv_seed (Some x)) w) = Raise ValueError /\
  exists w1, RandomEnv_enter w = (Ret tt, w1) /\
             numpy_random (snd (with_RandomEnv (RandomEnv_seed (Some x)) w)) = numpy_random w1.
Proof.
  intros Hsound Hrange.
  destruct (with_RandomEnv_sound (RandomEnv_seed (Some x)) w Hsound)
    as (w1 & Henter & _ & _ & Hfst & _ & Hstate & _).
  assert (Hseed : RandomEnv_seed (Some x) w1 = (Raise ValueError, w1)).
  { unfold RandomEnv_seed, numpy_random_seed.
    destruct (Z.leb_spec 0 x); destruct (Z.leb_spec x 4294967295); cbn [andb];
      try reflexivity; lia. }
  rewrite Hseed in Hfst, Hstate. cbn [fst snd] in *. eauto.
Qed.

(** C6, at an integer seed that is negative or exceeds 32 bits:
    [SeedRandom[x]] raises [ValueError] instead of returning [Null], and the
    generator is not reseeded. *)
Theorem SeedRandom_apply_integer_out_of_range (x : Z) (w : World) :
  sound w -> x < 0 \/ 4294967295 < x ->
  fst (SeedRandom_apply (Integer x) w) = Raise ValueError /\
  exists w1, RandomEnv_enter w = (Ret tt, w1) /\
             numpy_random (snd (SeedRandom_apply (Integer x) w)) = numpy_random w1.
Proof.
  intros Hsound Hrange.
  destruct (seed_session_out_of_range x w Hsound Hrange) as (Hfst & w1 & Henter & Hstate).
  cbn [SeedRandom_apply]. run.
  destruct (with_RandomEnv (RandomEnv_seed (Some x)) w) as [[[]|e] w'];
    cbn [fst snd] in *; [discriminate|].
  split; [congruence|eauto].
Qed.

(** The same at the string seed of the docstring, [SeedRandom["Mathics"]]. *)
Lemma SeedRandom_apply_Mathics (w : World) :
  sound w ->
  fst (SeedRandom_apply (String "Mathics") w) = Raise ValueError /\
  exists w1, RandomEnv_enter w = (Ret tt, w1) /\
             numpy_random (snd (SeedRandom_apply (String "Mathics") w)) = numpy_random w1.
Proof.
  intros Hsound.
  destruct (seed_session_out_of_range 225824839078716710915448705232792428805 w Hsound
              ltac:(lia)) as (Hfst & w1 & Henter & Hstate).
  cbn [SeedRandom_apply]. rewrite md5_Mathics. run.
  destruct (with_RandomEnv _ w) as [[[]|e] w'];
    cbn [fst snd] in *; [discriminate|].
  split; [congruence|eauto].
Qed.

(** A seed within range is installed and [Null] comes back. *)
Lemma SeedRandom_apply_integer_in_range (x : Z) (w : World) :
  sound w -> 0 <= x <= 4294967295 ->
  fst (SeedRandom_apply (Integer x) w) = Ret (Some (Symbol "Null")) /\
  numpy_random (snd (SeedRandom_apply (Integer x) w)) = rk_seed x /\
  sound (snd (SeedRandom_apply (Integer x) w)).
Proof.
  intros Hsound Hrange.
  destruct (with_RandomEnv_sound (RandomEnv_seed (Some x)) w Hsound)
    as (w1 & Henter & _ & _ & Hfst & _ & Hstate & Hsound').
  assert (Hseed : RandomEnv_seed (Some x) w1 = (Ret tt, set_numpy_random (rk_seed x) w1)).
  { unfold RandomEnv_seed, numpy_random_seed.
    destruct (Z.leb_spec 0 x); destruct (Z.leb_spec x 4294967295); cbn [andb];
      try reflexivity; lia. }
  rewrite Hseed in Hfst, Hstate. cbn [fst snd] in *.
  cbn [SeedRandom_apply]. run.
  destruct (with_RandomEnv (RandomEnv_seed (Some x)) w) as [[[]|e] w'];
    cbn [fst snd] in *; [|discriminate].
  repeat split; assumption.
Qed.

End Seeding.

(** [SeedRandom[-1]] on the reference host. *)
Lemma SeedRandom_apply_integer_out_of_range_witness :
  fst (SeedRandom_apply (Integer (-1)) (Reference.boot [7])) = Raise ValueError /\
  exists w1, RandomEnv_enter (Reference.boot [7]) = (Ret tt, w1) /\
             numpy_random (snd (SeedRandom_apply (Integer (-1)) (Reference.boot [7])))
             = numpy_random w1.
Proof.
  exact (@SeedRandom_apply_integer_out_of_range Reference.host ReferenceFacts.pickle_laws
           (-1) (Reference.boot [7]) (ReferenceFacts.boot_sound [7]) ltac:(lia)).
Defined.


(** ** Reproducible sessions *)

Section Reproducible.
Context {H : Host}.

Ltac run := unfold mbind, M_bind, mret, M_ret, lift, raise in *.

Lemma draws_only_ret {A} (a : A) : draws_only (mret a).
Proof. split; intros; cbn; auto. Qed.

Lemma draws_only_lift {A} (o : outcome A) : draws_only (lift o).
Proof. split; intros; cbn; auto. Qed.

Lemma draws_only_raise {A} (e : exn) : draws_only (raise (A:=A) e).
Proof. split; intros; cbn; auto. Qed.

Lemma draws_only_bind {A B} (m : M A) (k : A -> M B) :
  draws_only m -> (forall a, draws_only (k a)) -> draws_only (m ≫= k).
Proof.
  intros [Hm1 Hm2] Hk. split.
  - intros w. run. specialize (Hm1 w). destruct (m w) as [[a|e] w1]; cbn [snd] in *; [|auto].
    destruct (Hk a) as [Hk1 _]. rewrite Hk1. assumption.
  - intros w w' Hw. run. destruct (Hm2 w w' Hw) as [Hr Hs].
    destruct (m w) as [[a|e] w1], (m w') as [[a'|e'] w1']; cbn [fst snd] in *;
      try discriminate.
    + injection Hr as <-. destruct (Hk a) as [_ Hk2]. apply Hk2. assumption.
    + injection Hr as <-. auto.
Qed.

Lemma draws_only_numpy_draw {A} (next : rk_state -> A * rk_state) (size : PyVal) :
  draws_only (numpy_draw next size).
Proof.
  split.
  - intros w. unfold numpy_draw.
    destruct size; try (destruct (next _); reflexivity);
      (destruct (np_size _); [destruct (draws _ _ _)|]; reflexivity).
  - intros w w' Hw. unfold numpy_draw. rewrite Hw.
    destruct size; try (destruct (next _); split; reflexivity);
      (destruct (np_size _); [destruct (draws _ _ _)|]; cbn; auto).
Qed.

Lemma draws_only_randint (a b : Z) (size : PyVal) : draws_only (RandomEnv_randint a b size).
Proof.
  unfold RandomEnv_randint, numpy_random_random_integers.
  destruct (_ || _); [apply draws_only_raise|apply draws_only_numpy_draw].
Qed.

Lemma draws_only_randreal (a b : PyVal) (size : PyVal) :
  draws_only (RandomEnv_randreal a b size).
Proof.
  unfold RandomEnv_randreal, numpy_random_uniform.
  apply draws_only_bind; [apply draws_only_lift|]. intros low.
  apply draws_only_bind; [apply draws_only_lift|]. intros high.
  destruct (Double.finite _); [apply draws_only_numpy_draw|apply draws_only_raise].
Qed.

Lemma draws_only_randchoice (n : nat) (size : PyVal) (replace : bool) (p : PyVal) :
  draws_only (RandomEnv_randchoice n size replace p).
Proof.
  split.
  - intros w. unfold RandomEnv_randchoice, numpy_random_choice.
    destruct (n =? 0)%nat; [reflexivity|].
    destruct (np_weights n p); [|reflexivity].
    destruct size; try (destruct (rk_choice _ _ _ _ _); reflexivity);
      (destruct (np_size _); [|reflexivity];
       destruct (_ && _); [reflexivity|];
       destruct (rk_choice _ _ _ _ _); reflexivity).
  - intros w w' Hw. unfold RandomEnv_randchoice, numpy_random_choice. rewrite Hw.
    destruct (n =? 0)%nat; [cbn; auto|].
    destruct (np_weights n p); [|cbn; auto].
    destruct size; try (destruct (rk_choice _ _ _ _ _); split; reflexivity);
      (destruct (np_size _); [|cbn; auto];
       destruct (_ && _); [cbn; auto|];
       destruct (rk_choice _ _ _ _ _); split; reflexivity).
Qed.

Lemma draws_only_get_random_state : draws_only get_random_state.
Proof.
  unfold get_random_state. apply draws_only_bind.
  - split; intros; cbn; auto. intros. split; congruence.
  - intros s. apply draws_only_bind; [apply draws_only_lift|]. intros. apply draws_only_ret.
Qed.

(** A session whose body only draws: its value, and the state it stores,
    depend on nothing but the stored state it starts from. *)
Lemma with_RandomEnv_same_stored_state {A} (body : M A) (w w' : World) :
  draws_only body -> same_stored_state w w' ->
  fst (with_RandomEnv body w) = fst (with_RandomEnv body w') /\
  same_stored_state (snd (with_RandomEnv body w)) (snd (with_RandomEnv body w')).
Proof.
  intros [Hbody1 Hbody2] (n & Hn & Hn').
  unfold with_RandomEnv, RandomEnv_enter, get_config_value. run.
  rewrite Hn, Hn'. cbn [set_random_state]. run.
  destruct (Hex.a2b_hex _) as [data|e]; [|split; [reflexivity|exists n; auto]].
  destruct (pickle_loads data) as [s|e]; [|split; [reflexivity|exists n; auto]].
  unfold numpy_random_set_state.
  destruct (Hbody2 (set_numpy_random s w) (set_numpy_random s w') eq_refl) as [Hr Hs].
  pose proof (Hbody1 (set_numpy_random s w)) as Hc.
  pose proof (Hbody1 (set_numpy_random s w')) as Hc'.
  destruct (body (set_numpy_random s w)) as [r w2].
  destruct (body (set_numpy_random s w')) as [r' w2']. cbn [fst snd] in *. subst r'.
  unfold RandomEnv_exit, set_config_value. run.
  destruct draws_only_get_random_state as [Hg1 Hg2].
  destruct (Hg2 w2 w2' Hs) as [Hgr _].
  pose proof (Hg1 w2) as Hgc. pose proof (Hg1 w2') as Hgc'.
  destruct (get_random_state w2) as [[m|e] w3], (get_random_state w2') as [[m'|e'] w3'];
    cbn [fst snd] in *; try discriminate.
  - injection Hgr as <-. split; [reflexivity|].
    exists m. cbn [config]. rewrite !lookup_insert_eq. auto.
  - split; [congruence|]. exists n. cbn in Hc, Hc'. rewrite Hgc, Hgc', Hc, Hc'. auto.
Qed.

End Reproducible.

Section ReproducibleCalls.
Context {H : Host}.

Ltac run := unfold mbind, M_bind, mret, M_ret, lift, raise in *.

Lemma reproducible_ret {A} (a : A) : reproducible (mret a).
Proof. intros w w' Hw. split; [reflexivity|exact Hw]. Qed.

Lemma reproducible_lift {A} (o : outcome A) : reproducible (lift o).
Proof. intros w w' Hw. split; [reflexivity|exact Hw]. Qed.

Lemma reproducible_message (symbol tag : string) (args : list Expr) :
  reproducible (message symbol tag args).
Proof. intros w w' Hw. split; [reflexivity|exact Hw]. Qed.

Lemma reproducible_bind {A B} (m : M A) (k : A -> M B) :
  reproducible m -> (forall a, reproducible (k a)) -> reproducible (m ≫= k).
Proof.
  intros Hm Hk w w' Hw. run. destruct (Hm w w' Hw) as [Hr Hs].
  destruct (m w) as [[a|e] w1], (m w') as [[a'|e'] w1']; cbn [fst snd] in *;
    try discriminate.
  - injection Hr as <-. apply Hk. assumption.
  - injection Hr as <-. auto.
Qed.

Lemma reproducible_with_RandomEnv {A} (body : M A) :
  draws_only body -> reproducible (with_RandomEnv body).
Proof. intros Hbody w w' Hw. apply with_RandomEnv_same_stored_state; assumption. Qed.

Ltac draws :=
  repeat first
    [ apply draws_only_ret | apply draws_only_lift | apply draws_only_raise
    | apply draws_only_randint | apply draws_only_randreal | apply draws_only_randchoice
    | apply draws_only_bind; [|intros ?] ].

Ltac repro :=
  repeat first
    [ apply reproducible_ret | apply reproducible_lift | apply reproducible_message
    | apply reproducible_with_RandomEnv; draws
    | apply reproducible_bind; [|intros ?] ].

Lemma reproducible__size_to_python (name : string) (domain size : Expr) :
  reproducible (_size_to_python name domain size).
Proof.
  unfold _size_to_python. repeat (repro; try destruct (negb _)).
Qed.

Lemma reproducible__weights_to_python (name : string) (weights expr : Expr) :
  reproducible (_weights_to_python name weights expr).
Proof.
  unfold _weights_to_python. repeat (repro; try destruct (negb _)).
Qed.

Lemma reproducible__RandomSelection_draw (name : string) (_replace : bool)
    (domain size : Expr) (weights : PyVal) (elements : list Expr) :
  reproducible (_RandomSelection_draw name _replace domain size weights elements).
Proof.
  unfold _RandomSelection_draw. apply reproducible_bind; [apply reproducible__size_to_python|].
  intros [err py_size]. destruct py_size; repro.
Qed.

Lemma reproducible__RandomSelection_apply (name : string) (_replace : bool)
    (domain size : Expr) :
  reproducible (_RandomSelection_apply name _replace domain size).
Proof.
  unfold _RandomSelection_apply.
  destruct (String.eqb _ "System`Rule").
  - apply reproducible_bind; [apply reproducible_lift|]. intros weights_expr.
    apply reproducible_bind; [apply reproducible__weights_to_python|]. intros [err py_weights].
    do 4 (apply reproducible_bind; [apply reproducible_lift|]; intros ?).
    destruct (negb _); [repro|apply reproducible__RandomSelection_draw].
  - destruct (String.eqb _ "System`List"); [apply reproducible__RandomSelection_draw|repro].
Qed.

(** Every sampling call is reproducible. *)
Lemma reproducible_run_call (c : Call) : reproducible (run_call c).
Proof.
  destruct c; cbn [run_call].
  - unfold RandomInteger_apply. destruct rmin, rmax; repro.
  - unfold RandomInteger_apply_list. destruct rmin, rmax; repro.
  - unfold RandomReal_apply. destruct (real_value xmin), (real_value xmax); repro.
  - unfold RandomReal_apply_list. destruct (real_value xmin), (real_value xmax); repro.
    destruct (negb _); repro.
  - unfold RandomComplex_apply.
    destruct (complex_value (promote zmin)), (complex_value (promote zmax)); repro.
  - unfold RandomComplex_apply_list.
    destruct (complex_value (promote zmin)), (complex_value (promote zmax));
      repeat (repro; try destruct (negb _)).
  - apply reproducible__RandomSelection_apply.
  - apply reproducible__RandomSelection_apply.
Qed.

Lemma run_calls_same_stored_state (cs : list Call) (w w' : World) :
  same_stored_state w w' -> fst (run_calls cs w) = fst (run_calls cs w').
Proof.
  revert w w'. induction cs as [|c cs IH]; intros w w' Hw; [reflexivity|].
  cbn [run_calls]. destruct (reproducible_run_call c w w' Hw) as [Hr Hs].
  destruct (run_call c w) as [r w1], (run_call c w') as [r' w1']. cbn [fst snd] in *.
  specialize (IH w1 w1' Hs).
  destruct (run_calls cs w1) as [rs w2], (run_calls cs w1') as [rs' w2']. cbn [fst] in *.
  congruence.
Qed.

End ReproducibleCalls.

Section SeededRuns.
Context {H : Host} {P : PickleLaws H}.

Ltac run := unfold mbind, M_bind, mret, M_ret, lift, raise in *.

(** After a seed within range the store holds the encoding of that seed's
    state, whatever it held before. *)
Lemma SeedRandom_apply_stores_seed (x : Z) (w : World) :
  sound w -> 0 <= x <= 4294967295 ->
  exists n, config (snd (SeedRandom_apply (Integer x) w)) !! "$RandomState" = Some n /\
            forall w0, numpy_random w0 = rk_seed x -> get_random_state w0 = (Ret n, w0).
Proof.
  intros Hsound Hrange.
  destruct (RandomEnv_enter_sound w Hsound) as (w1 & Henter & _ & _).
  cbn [SeedRandom_apply]. run. unfold with_RandomEnv. rewrite Henter.
  unfold RandomEnv_seed, numpy_random_seed.
  destruct (Z.leb_spec 0 x); [|lia]. destruct (Z.leb_spec x 4294967295); [|lia].
  cbn [andb].
  destruct (get_random_state_spec (set_numpy_random (rk_seed x) w1)) as (n & Hget & _ & _).
  unfold RandomEnv_exit, set_config_value. run. rewrite Hget. cbn [snd config].
  exists n. split; [apply lookup_insert_eq|].
  intros w0 Hw0. apply (get_random_state_same (set_numpy_random (rk_seed x) w1) w0 n);
    [exact Hw0|exact Hget].
Qed.

(** Determinism for seeds numpy accepts: two sessions seeded with the same
    integer in [0, 2^32 - 1] and running the same calls return the same
    values and exceptions, call by call, whatever the two processes did
    before. *)
Lemma seeded_runs_agree (x : Z) (cs : list Call) (w w' : World) :
  sound w -> sound w' -> 0 <= x <= 4294967295 ->
  fst (run_calls cs (snd (SeedRandom_apply (Integer x) w)))
  = fst (run_calls cs (snd (SeedRandom_apply (Integer x) w'))).
Proof.
  intros Hsound Hsound' Hrange.
  apply run_calls_same_stored_state.
  destruct (SeedRandom_apply_stores_seed x w Hsound Hrange) as (n & Hn & Hget).
  destruct (SeedRandom_apply_stores_seed x w' Hsound' Hrange) as (n' & Hn' & Hget').
  assert (n' = n).
  { pose proof (Hget (set_numpy_random (rk_seed x) w) eq_refl) as E1.
    pose proof (Hget' (set_numpy_random (rk_seed x) w) eq_refl) as E2. congruence. }
  subst n'. exists n. auto.
Qed.

End SeededRuns.

(** C7, at the string seed of the docstring:
    [SeedRandom["Mathics"]; RandomInteger[{0, 100}]], twice in one process.
    Both seedings raise, the generator is not reseeded, and the two draws
    differ. *)
Lemma seeding_Mathics_twice_differs :
  let '(seeded1, w1) := SeedRandom_apply (String "Mathics") (Reference.boot [7]) in
  let '(drawn1, w2) := RandomInteger_apply (Integer 0) (Integer 100) w1 in
  let '(seeded2, w3) := SeedRandom_apply (String "Mathics") w2 in
  let '(drawn2, w4) := RandomInteger_apply (Integer 0) (Integer 100) w3 in
  seeded1 = Raise ValueError /\ seeded2 = Raise ValueError /\
  drawn1 = Ret (Some (Integer 7)) /\ drawn2 = Ret (Some (Integer 83)).
Proof. vm_compute. repeat split. Qed.

(** The same in two processes that differ in the entropy they booted
    with. *)
Example seeding_Mathics_two_processes :
  let run entropy :=
    let '(_, w1) := SeedRandom_apply (String "Mathics") (Reference.boot entropy) in
    fst (RandomInteger_apply (Integer 0) (Integer 100) w1) in
  run [7] = Ret (Some (Integer 7)) /\ run [8] = Ret (Some (Integer 8)).
Proof. vm_compute. split; reflexivity. Qed.

(** With a seed in range the draw is the seed's. *)
Example seeding_42_two_processes :
  let run entropy :=
    let '(_, w1) := SeedRandom_apply (Integer 42) (Reference.boot entropy) in
    fst (RandomInteger_apply (Integer 0) (Integer 100) w1) in
  run [7] = Ret (Some (Integer 42)) /\ run [8] = Ret (Some (Integer 42)).
Proof. vm_compute. split; reflexivity. Qed.

(** ** Complex arrays *)



Section ComplexArrays.
Context {H : Host} {P : PickleLaws H}.

Ltac run := unfold mbind, M_bind, mret, M_ret, lift, raise in *.



End ComplexArrays.


(** The integer and real builtins leave [d] at its default 1 whatever the
    shape: at shape [{2, 3}] depth [len(shape) = 2] would hand rows of three
    numbers to [Integer]. *)
Example RandomInteger_depth_is_one :
  let a := mkArray [2; 3]%nat [1; 2; 3; 4; 5; 6] in
  _from_numpy a new_Integer (spec_depth false [2; 3]%nat) = Raise TypeError /\
  _from_numpy a new_Integer 1
  = Ret (Expression "List"
           [Expression "List" [Integer 1; Integer 2; Integer 3];
            Expression "List" [Integer 4; Integer 5; Integer 6]]).
Proof. cbn zeta. split; vm_compute; reflexivity. Qed.


(** ** Depth 1: arrays of integers and reals *)


(** ** The state accessor *)

Section Accessor.
Context {H : Host} {P : PickleLaws H}.

Ltac run := unfold mbind, M_bind, mret, M_ret, lift, raise in *.

(** Reading [$RandomState] over a sound store returns an integer and leaves
    exactly that integer in the store. *)
Lemma RandomState_apply_sound (w : World) :
  sound w ->
  exists n w', RandomState_apply w = (Ret (Some (Integer n)), w') /\
    config w' !! "$RandomState" = Some n /\ out w' = out w /\ sound w' /\
    (forall m, config w !! "$RandomState" = Some m -> n = m /\ config w' = config w).
Proof.
  intros Hsound. unfold RandomState_apply, with_RandomEnv.
  unfold RandomEnv_enter, get_config_value. run.
  destruct (config w !! "$RandomState") as [m|] eqn:Hslot.
  - destruct (Hsound m Hslot) as [w0 Hw0].
    destruct (get_random_state_spec w0) as (m' & Hget & _ & Hset).
    assert (m' = m) by congruence. subst m'. rewrite Hset.
    rewrite (get_random_state_same w0 (set_numpy_random (numpy_random w0) w) m eq_refl Hw0).
    unfold RandomEnv_exit, set_config_value. run.
    rewrite (get_random_state_same w0 (set_numpy_random (numpy_random w0) w) m eq_refl Hw0).
    eexists m, _. split; [reflexivity|]. cbn [config out].
    split; [apply lookup_insert_eq|]. split; [reflexivity|]. split.
    + intros n' Hn'. cbn [config] in Hn'. rewrite lookup_insert_eq in Hn'.
      injection Hn' as <-. eauto.
    + intros m' Hm'. injection Hm' as <-. split; [reflexivity|].
      apply insert_id. exact Hslot.
  - cbn [set_random_state numpy_random_seed].
    match goal with |- context [get_random_state ?w1] =>
      destruct (get_random_state_spec w1) as (n & Hget & _ & _); rewrite Hget
    end.
    unfold RandomEnv_exit, set_config_value. run. rewrite Hget.
    eexists n, _. split; [reflexivity|]. cbn [config out].
    split; [apply lookup_insert_eq|]. split; [reflexivity|]. split.
    + intros n' Hn'. cbn [config] in Hn'. rewrite lookup_insert_eq in Hn'.
      injection Hn' as <-. eauto.
    + intros m' Hm'. discriminate.
Qed.

(** C9: read [$RandomState], try to assign to it, read again.  The attempt
    issues the message [rndst], writes nothing to the store, and evaluates to
    its right-hand side; the two reads return the same integer. *)
Theorem RandomState_assignment_rejected (rhs : Expr) (w : World) :
  sound w ->
  exists n w1 w2 w3,
    RandomState_apply w = (Ret (Some (Integer n)), w1) /\
    Set_RandomState rhs w1 = (Ret (Some rhs), w2) /\
    out w2 = (out w1 ++ [mkMessage "$RandomState" "rndst" []])%list /\
    config w2 = config w1 /\ numpy_random w2 = numpy_random w1 /\
    RandomState_apply w2 = (Ret (Some (Integer n)), w3) /\
    config w3 = config w1.
Proof.
  intros Hsound.
  destruct (RandomState_apply_sound w Hsound) as (n & w1 & Hread & Hslot & _ & Hsound1 & _).
  exists n, w1.
  eexists (mkWorld (numpy_random w1) (config w1)
             (out w1 ++ [mkMessage "$RandomState" "rndst" []]) (entropy w1)).
  assert (Hsound2 : sound (mkWorld (numpy_random w1) (config w1)
                             (out w1 ++ [mkMessage "$RandomState" "rndst" []]) (entropy w1)))
    by exact Hsound1.
  destruct (RandomState_apply_sound _ Hsound2) as (n' & w3 & Hread' & _ & _ & _ & Hsame).
  destruct (Hsame n Hslot) as [-> Hconfig].
  exists w3. repeat split; assumption.
Qed.

End Accessor.

(** [$RandomState = 42] on the reference host. *)
Lemma RandomState_assignment_rejected_witness :
  exists n w1 w2 w3,
    RandomState_apply (Reference.boot [7]) = (Ret (Some (Integer n)), w1) /\
    Set_RandomState (Integer 42) w1 = (Ret (Some (Integer 42)), w2) /\
    out w2 = (out w1 ++ [mkMessage "$RandomState" "rndst" []])%list /\
    config w2 = config w1 /\ numpy_random w2 = numpy_random w1 /\
    RandomState_apply w2 = (Ret (Some (Integer n)), w3) /\
    config w3 = config w1.
Proof.
  exact (@RandomState_assignment_rejected Reference.host ReferenceFacts.pickle_laws
           (Integer 42) (Reference.boot [7]) (ReferenceFacts.boot_sound [7])).
Defined.

(** * Further properties *)

(** ** The codec on integers it did not produce *)

Module HexErrors.
Import Hex.

Lemma rstrip_L_cons (c : ascii) (rest : string) :
  Ascii.eqb c "L" = false -> rstrip_L (String.String c rest) = String.String c (rstrip_L rest).
Proof. intros Hc. cbn [rstrip_L]. rewrite Hc. destruct (rstrip_L rest); reflexivity. Qed.

Lemma a2b_hex_x (rest : string) : a2b_hex (String.String "x" rest) = Raise binascii_Error.
Proof. destruct rest; reflexivity. Qed.

(** The text [set_random_state] hands to [binascii.a2b_hex] for an integer
    that is zero or negative never decodes: ["0"] has an odd number of
    digits, and a negative number leaves the ["x"] of ["-0x"] in front. *)
Lemma a2b_hex_nonpositive (suffix : bool) (n : Z) :
  n <= 0 -> a2b_hex (rstrip_L (drop2 (hex suffix n))) = Raise binascii_Error.
Proof.
  intros Hn. unfold hex. destruct (Z.ltb_spec n 0) as [Hneg|Hzero].
  - change (drop2 (String.append "-" (String.append "0x" ?s))) with (String.String "x" s).
    rewrite rstrip_L_cons by reflexivity. apply a2b_hex_x.
  - assert (n = 0) by lia. subst n. destruct suffix; reflexivity.
Qed.

End HexErrors.

Section CodecErrors.
Context {H : Host}.

(** X2: [set_random_state] applied to zero or to a negative integer raises
    [binascii.Error] and leaves generator, store, messages and entropy as
    they were. *)
Theorem set_random_state_nonpositive (n : Z) (w : World) :
  n <= 0 -> set_random_state (Some n) w = (Raise binascii_Error, w).
Proof.
  intros Hn. unfold set_random_state, lift, mbind, M_bind.
  rewrite (HexErrors.a2b_hex_nonpositive long_suffix n Hn). reflexivity.
Qed.

Lemma with_RandomEnv_corrupt {A} (body : M A) (n : Z) (w : World) :
  config w !! "$RandomState" = Some n -> n <= 0 ->
  with_RandomEnv body w = (Raise binascii_Error, w).
Proof.
  intros Hslot Hn. unfold with_RandomEnv, RandomEnv_enter, get_config_value, mbind, M_bind.
  rewrite Hslot. unfold set_random_state, lift, mbind, M_bind.
  rewrite (HexErrors.a2b_hex_nonpositive long_suffix n Hn). reflexivity.
Qed.

(** X3: when the store holds zero or a negative integer under
    [$RandomState], no session gets past [__enter__]: whatever the body, the
    session raises [binascii.Error], the body does not run, [__exit__] does
    not run, and the store keeps the bad value.  That includes [SeedRandom]:
    seeding does not repair the store. *)
Theorem corrupt_store_blocks_sessions {A} (body : M A) (n x : Z) (w : World) :
  config w !! "$RandomState" = Some n -> n <= 0 ->
  with_RandomEnv body w = (Raise binascii_Error, w) /\
  SeedRandom_apply (Integer x) w = (Raise binascii_Error, w) /\
  SeedRandom_apply_empty w = (Raise binascii_Error, w) /\
  RandomState_apply w = (Raise binascii_Error, w).
Proof.
  intros Hslot Hn. split; [apply (with_RandomEnv_corrupt body n w Hslot Hn)|].
  unfold SeedRandom_apply, SeedRandom_apply_empty, RandomState_apply, mbind, M_bind.
  rewrite !(with_RandomEnv_corrupt _ n w Hslot Hn). repeat split.
Qed.

End CodecErrors.

(** ** The codec and the session, continued *)

Section CodecMore.
Context {H : Host} {P : PickleLaws H}.

Ltac run := unfold mbind, M_bind, mret, M_ret, lift, raise in *.

(** X1: the integer under [$RandomState] identifies the generator state:
    two processes read the same integer exactly when their generators are in
    the same state. *)
Theorem get_random_state_injective (w w' : World) :
  fst (get_random_state w) = fst (get_random_state w') <-> numpy_random w = numpy_random w'.
Proof.
  destruct (get_random_state_spec w) as (n & Hget & _ & Hset).
  destruct (get_random_state_spec w') as (n' & Hget' & _ & Hset').
  rewrite Hget, Hget'. cbn [fst]. split.
  - intros [= <-]. specialize (Hset w). specialize (Hset' w).
    rewrite Hset in Hset'. injection Hset' as Heq. congruence.
  - intros Heq. f_equal.
    pose proof (get_random_state_same w w' n (eq_sym Heq) Hget) as Hsame. congruence.
Qed.

(** The store is in step with the generator: it holds the encoding of the
    state the generator is in. *)
Lemma in_step_after_session {A} (body : M A) (w : World) :
  sound w ->
  exists n, config (snd (with_RandomEnv body w)) !! "$RandomState" = Some n /\
            get_random_state (snd (with_RandomEnv body w))
            = (Ret n, snd (with_RandomEnv body w)).
Proof.
  intros Hsound.
  destruct (RandomEnv_enter_sound w Hsound) as (w1 & Henter & _ & _).
  unfold with_RandomEnv. rewrite Henter. destruct (body w1) as [r w2].
  destruct (get_random_state_spec w2) as (n & Hget & _ & _).
  unfold RandomEnv_exit, set_config_value. run. rewrite Hget. cbn [snd config].
  exists n. split; [apply lookup_insert_eq|].
  apply (get_random_state_same w2); [reflexivity|exact Hget].
Qed.

(** X4: the first access creates the state.  With nothing stored, reading
    [$RandomState] seeds the generator from one sample of entropy, returns
    the encoding of that fresh state and stores it; the sample is used up. *)
Theorem RandomState_apply_first_access (w : World) :
  config w !! "$RandomState" = None ->
  exists n w',
    RandomState_apply w = (Ret (Some (Integer n)), w') /\
    numpy_random w' = rk_fresh (hd 0 (entropy w)) /\
    get_random_state w' = (Ret n, w') /\
    config w' = <["$RandomState" := n]> (config w) /\
    entropy w' = tl (entropy w) /\ out w' = out w.
Proof.
  intros Hslot. unfold RandomState_apply, with_RandomEnv, RandomEnv_enter, get_config_value.
  run. rewrite Hslot. cbn [set_random_state numpy_random_seed].
  match goal with |- context [get_random_state ?w1] =>
    destruct (get_random_state_spec w1) as (n & Hget & _ & _); rewrite Hget
  end.
  unfold RandomEnv_exit, set_config_value. run. rewrite Hget.
  eexists n, _. split; [reflexivity|]. cbn [numpy_random config entropy out].
  repeat split.
  eapply get_random_state_same; [|exact Hget]. reflexivity.
Qed.

(** X5: [SeedRandom[]] over a sound store never raises: it returns [Null],
    and afterwards the store holds the encoding of the state the generator
    is in. *)
Theorem SeedRandom_apply_empty_succeeds (w : World) :
  sound w ->
  fst (SeedRandom_apply_empty w) = Ret (Some (Symbol "Null")) /\
  (exists sample, numpy_random (snd (SeedRandom_apply_empty w)) = rk_fresh sample) /\
  exists n, config (snd (SeedRandom_apply_empty w)) !! "$RandomState" = Some n /\
            get_random_state (snd (SeedRandom_apply_empty w))
            = (Ret n, snd (SeedRandom_apply_empty w)).
Proof.
  intros Hsound.
  destruct (with_RandomEnv_sound (RandomEnv_seed None) w Hsound)
    as (w1 & _ & _ & _ & Hfst & _ & Hstate & _).
  destruct (in_step_after_session (RandomEnv_seed None) w Hsound) as (n & Hn & Hget).
  unfold SeedRandom_apply_empty. run.
  cbn [RandomEnv_seed numpy_random_seed fst snd numpy_random] in Hfst, Hstate.
  destruct (with_RandomEnv (RandomEnv_seed None) w) as [[[]|e] w'];
    cbn [fst snd] in *; [|discriminate].
  split; [reflexivity|]. split; [eauto|]. eauto.
Qed.

End CodecMore.

(** ** One stream across sessions *)

Section Stream.
Context {H : Host} {P : PickleLaws H}.

Ltac run := unfold mbind, M_bind, mret, M_ret, lift, raise in *.

(** A session over a sound store, step by step. *)
Lemma with_RandomEnv_run {A} (body : M A) (w : World) :
  sound w ->
  exists w1 n,
    RandomEnv_enter w = (Ret tt, w1) /\ config w1 = config w /\
    get_random_state (snd (body w1)) = (Ret n, snd (body w1)) /\
    with_RandomEnv body w
    = (fst (body w1),
       mkWorld (numpy_random (snd (body w1)))
         (<["$RandomState" := n]> (config (snd (body w1))))
         (out (snd (body w1))) (entropy (snd (body w1)))).
Proof.
  intros Hsound.
  destruct (RandomEnv_enter_sound w Hsound) as (w1 & Henter & Hconfig & _).
  destruct (get_random_state_spec (snd (body w1))) as (n & Hget & _ & _).
  exists w1, n. repeat (split; [assumption|]).
  unfold with_RandomEnv. rewrite Henter. destruct (body w1) as [r w2]. cbn [fst snd] in *.
  unfold RandomEnv_exit, set_config_value. run. rewrite Hget. reflexivity.
Qed.

(** Entering a session right after one has been left restores the state the
    first one ended in. *)
Lemma RandomEnv_enter_in_step (w : World) (n : Z) :
  config w !! "$RandomState" = Some n -> get_random_state w = (Ret n, w) ->
  RandomEnv_enter w = (Ret tt, w).
Proof.
  intros Hslot Hget. unfold RandomEnv_enter, get_config_value. run. rewrite Hslot.
  destruct (get_random_state_spec w) as (n' & Hget' & _ & Hset).
  assert (n' = n) by congruence. subst n'. rewrite Hset. destruct w. reflexivity.
Qed.

(** X6: two sessions in a row continue one stream.  Running a drawing body
    in one session and a second body in the next gives the same value or
    exception, the same generator state and the same store as running both
    bodies in a single session. *)
Theorem sessions_compose {A B} (body : M A) (next : A -> M B) (w : World) :
  sound w -> draws_only body -> (forall a, draws_only (next a)) ->
  let two := (with_RandomEnv body ≫= fun a => with_RandomEnv (next a)) w in
  let one := with_RandomEnv (body ≫= next) w in
  fst two = fst one /\
  numpy_random (snd two) = numpy_random (snd one) /\
  config (snd two) = config (snd one).
Proof.
  intros Hsound [Hbody_config _] Hnext. cbn zeta.
  destruct (with_RandomEnv_run body w Hsound) as (w1 & n & Henter & _ & Hget & Hrun).
  destruct (with_RandomEnv_run (body ≫= next) w Hsound)
    as (w1' & m & Henter' & _ & Hget' & Hrun').
  assert (w1' = w1) by congruence. subst w1'.
  rewrite Hrun'. clear Hrun'. run. rewrite Hrun. clear Hrun.
  specialize (Hbody_config w1).
  destruct (body w1) as [[a|e] w2] eqn:Hbody; cbn [fst snd] in *.
  - (* the first body returned [a] *)
    set (w3 := mkWorld (numpy_random w2) (<["$RandomState" := n]> (config w2))
                 (out w2) (entropy w2)).
    assert (Hsound3 : sound w3).
    { intros k Hk. cbn in Hk. rewrite lookup_insert_eq in Hk. injection Hk as <-. eauto. }
    assert (Henter3 : RandomEnv_enter w3 = (Ret tt, w3)).
    { apply (RandomEnv_enter_in_step w3 n); [apply lookup_insert_eq|].
      apply (get_random_state_same w2); [reflexivity|exact Hget]. }
    destruct (with_RandomEnv_run (next a) w3 Hsound3) as (w4 & k & Henter4 & _ & Hget4 & Hrun4).
    assert (w4 = w3) by congruence. subst w4. rewrite Hrun4. cbn [fst snd numpy_random config].
    destruct (Hnext a) as [Hnext_config Hnext_state].
    destruct (Hnext_state w3 w2 eq_refl) as [Hr Hs].
    split; [exact Hr|]. split; [exact Hs|].
    rewrite (Hnext_config w3), (Hnext_config w2). cbn [config].
    assert (k = m).
    { pose proof (get_random_state_same _ _ k (eq_sym Hs) Hget4) as E. congruence. }
    subst k. apply insert_insert_eq.
  - (* the first body raised *)
    repeat split. f_equal. congruence.
Qed.

End Stream.

Module ReferenceRanges.
Import Reference.

Lemma range_laws : RangeLaws host.
Proof.
  split.
  - intros a b s Hab. cbn.
    pose proof (Z.mod_pos_bound (state_value s) (b - a + 1) ltac:(lia)). lia.
  - intros a b s Hab. cbn.
    pose proof (Z.mod_pos_bound (state_value s) 1000 ltac:(lia)) as Hm.
    set (t := (state_value s mod 1000 # 1000)%Q).
    assert (H0 : (0 <= t)%Q) by (unfold t, Qle; cbn; lia).
    assert (H1 : (t <= 1)%Q) by (unfold t, Qle; cbn; lia).
    split; nra.
Qed.

End ReferenceRanges.

(** ** Ranges *)

Section DrawsIn.
Context {H : Host}.


End DrawsIn.


Section Ranges.
Context {H : Host} {P : PickleLaws H} {R : RangeLaws H}.

Ltac run := unfold mbind, M_bind, mret, M_ret, lift, raise in *.

(** X8: [RandomInteger[{rmin, rmax}]] over a sound store.  With bounds
    within the 64-bit signed integers and [rmin <= rmax] it returns an
    integer between the two, inclusive.  With [rmin > rmax], or with a bound
    outside the 64-bit signed integers, the bounds go to numpy as they are,
    numpy raises [ValueError], and no message is issued. *)
Theorem RandomInteger_apply_range (rmin rmax : Z) (w : World) :
  sound w ->
  (int64_min <= rmin -> rmin <= rmax -> rmax <= int64_max ->
     exists v, fst (RandomInteger_apply (Integer rmin) (Integer rmax) w)
               = Ret (Some (Integer v)) /\ rmin <= v <= rmax) /\
  (rmin < int64_min \/ int64_max < rmax \/ rmax < rmin ->
     fst (RandomInteger_apply (Integer rmin) (Integer rmax) w) = Raise ValueError /\
     out (snd (RandomInteger_apply (Integer rmin) (Integer rmax) w)) = out w).
Proof.
  intros Hsound. cbn [RandomInteger_apply].
  match goal with |- context [with_RandomEnv ?body w] =>
    destruct (with_RandomEnv_sound body w Hsound) as (w1 & _ & _ & Hout1 & Hfst & Hout & _)
  end.
  rewrite Hfst, Hout. clear Hfst Hout. run.
  unfold RandomEnv_randint, numpy_random_random_integers. split.
  - intros Hmin Hle Hmax. rewrite (randint_accepts rmin rmax Hmin Hle Hmax).
    cbn [numpy_draw].
    pose proof (rk_integer_range rmin rmax (numpy_random w1) Hle) as Hrange.
    destruct (rk_integer rmin rmax (numpy_random w1)) as [v s]. cbn in *. eauto.
  - intros Hbad. rewrite (randint_refuses rmin rmax Hbad). cbn. auto.
Qed.




End Ranges.

(** ** The order of the leaves *)

Section Chunks.
Context {A : Type}.





End Chunks.

Section BuilderOrder.
Context {A : Type}.




End BuilderOrder.

Section ChunkShapes.
Context {A : Type}.




End ChunkShapes.



Section Order.
Context {H : Host} {P : PickleLaws H}.

Ltac run := unfold mbind, M_bind, mret, M_ret, lift, raise in *.






End Order.

(** ** The depth the shape builder is given *)


Section Depths.
Context {H : Host} {P : PickleLaws H}.


End Depths.

Section ComplexRanges.
Context {H : Host} {P : PickleLaws H}.

Ltac run := unfold mbind, M_bind, mret, M_ret, lift, raise in *.

(** One [RandomReal[{lo, hi}]] over a sound store, between two doubles with
    a finite range, step by step. *)
Lemma RandomReal_apply_run (lo hi : Q) (w : World) :
  sound w ->
  np_double (PyFloat lo) = Ret lo -> np_double (PyFloat hi) = Ret hi ->
  Double.finite (hi - lo) = true ->
  exists w1 n,
    RandomEnv_enter w = (Ret tt, w1) /\
    let drawn := rk_uniform lo hi (numpy_random w1) in
    get_random_state (set_numpy_random (snd drawn) w1)
    = (Ret n, set_numpy_random (snd drawn) w1) /\
    RandomReal_apply (Real lo) (Real hi) w
    = (Ret (Some (Real (fst drawn))),
       mkWorld (snd drawn) (<["$RandomState" := n]> (config w1)) (out w1) (entropy w1)).
Proof.
  intros Hsound Hlo Hhi Hrange. unfold RandomReal_apply. cbn [real_value].
  match goal with |- context [with_RandomEnv ?body w] =>
    destruct (with_RandomEnv_run body w Hsound) as (w1 & n & Henter & _ & Hget & Hrun)
  end.
  exists w1, n. split; [exact Henter|]. rewrite Hrun. clear Hrun.
  revert Hget. unfold mbind, M_bind. cbn beta.
  rewrite (RandomEnv_randreal_run _ _ lo hi PyNone w1 Hlo Hhi Hrange).
  unfold numpy_draw.
  destruct (rk_uniform lo hi (numpy_random w1)) as [x s]. cbn. intros Hget.
  split; [exact Hget|reflexivity].
Qed.

(** X7: [RandomComplex[{zmin, zmax}]] is two real draws from one stream, the
    real part first.  With corners that become the Python complex numbers
    [zlo] and [zhi] and finite ranges, it returns the complex number whose
    parts are what [RandomReal[{Re zlo, Re zhi}]] followed by
    [RandomReal[{Im zlo, Im zhi}]] return, and leaves the same generator
    state and the same store as those two calls. *)
Theorem RandomComplex_apply_two_reals (zmin zmax : Expr) (zlo zhi : Q * Q) (w : World) :
  sound w ->
  corner_value zmin = Some zlo -> corner_value zmax = Some zhi ->
  Double.finite (fst zhi - fst zlo) = true -> Double.finite (snd zhi - snd zlo) = true ->
  exists x y w1 w2,
    RandomReal_apply (Real (fst zlo)) (Real (fst zhi)) w = (Ret (Some (Real x)), w1) /\
    RandomReal_apply (Real (snd zlo)) (Real (snd zhi)) w1 = (Ret (Some (Real y)), w2) /\
    fst (RandomComplex_apply zmin zmax w) = Ret (Some (Complex x y)) /\
    numpy_random (snd (RandomComplex_apply zmin zmax w)) = numpy_random w2 /\
    config (snd (RandomComplex_apply zmin zmax w)) = config w2.
Proof.
  intros Hsound Hlo Hhi Hre Him.
  destruct (corner_value_inv zmin zlo Hlo) as (plo & Hplo & Hclo & Hlo1 & Hlo2).
  destruct (corner_value_inv zmax zhi Hhi) as (phi & Hphi & Hchi & Hhi1 & Hhi2).
  destruct zlo as [re_min im_min], zhi as [re_max im_max]. cbn [fst snd] in *.
  destruct (RandomReal_apply_run re_min re_max w Hsound Hlo1 Hhi1 Hre)
    as (w1 & n1 & Henter & Hget1 & Hrun1).
  cbn zeta in *.
  destruct (rk_uniform re_min re_max (numpy_random w1)) as [x s1] eqn:Hx. cbn [fst snd] in *.
  set (wa := mkWorld s1 (<["$RandomState" := n1]> (config w1)) (out w1) (entropy w1)) in *.
  assert (Hsounda : sound wa).
  { intros k Hk. cbn in Hk. rewrite lookup_insert_eq in Hk. injection Hk as <-. eauto. }
  assert (Hentera : RandomEnv_enter wa = (Ret tt, wa)).
  { apply (RandomEnv_enter_in_step wa n1); [apply lookup_insert_eq|].
    apply (get_random_state_same (set_numpy_random s1 w1)); [reflexivity|exact Hget1]. }
  destruct (RandomReal_apply_run im_min im_max wa Hsounda Hlo2 Hhi2 Him)
    as (wa' & n2 & Hentera' & Hget2 & Hrun2).
  assert (wa' = wa) by congruence. subst wa'. cbn zeta in *.
  destruct (rk_uniform im_min im_max (numpy_random wa)) as [y s2] eqn:Hy. cbn [fst snd] in *.
  exists x, y, wa. eexists. split; [exact Hrun1|]. split; [exact Hrun2|].
  unfold RandomComplex_apply. rewrite Hplo, Hphi.
  unfold mbind, M_bind, lift. cbn beta. rewrite Hclo, Hchi. cbn [fst snd].
  match goal with |- context [with_RandomEnv ?body w] =>
    destruct (with_RandomEnv_run body w Hsound) as (w1' & n & Henter' & _ & Hget & Hrun)
  end.
  assert (w1' = w1) by congruence. subst w1'. rewrite Hrun. clear Hrun.
  revert Hget. cbn beta.
  rewrite (RandomEnv_randreal_run _ _ re_min re_max PyNone w1 Hlo1 Hhi1 Hre).
  unfold numpy_draw. rewrite Hx. cbv beta iota.
  rewrite (RandomEnv_randreal_run _ _ im_min im_max PyNone _ Hlo2 Hhi2 Him).
  unfold numpy_draw. cbn [numpy_random set_numpy_random]. cbn [numpy_random wa] in Hy.
  rewrite Hy. cbn. intros Hget. split; [reflexivity|]. split; [reflexivity|].
  assert (n = n2).
  { pose proof (get_random_state_same (set_numpy_random s2 (set_numpy_random s1 w1))
                  (set_numpy_random s2 wa) n eq_refl Hget) as E.
    congruence. }
  subst n. symmetry. apply insert_insert_eq.
Qed.

End ComplexRanges.

Section Rectangle.
Context {H : Host} {P : PickleLaws H} {R : RangeLaws H}.

Ltac run := unfold mbind, M_bind, mret, M_ret, lift, raise in *.

(** [RandomComplex[{zmin, zmax}]] over a sound store, step by step. *)
Lemma RandomComplex_apply_run (zmin zmax : Expr) (zlo zhi : Q * Q) (w : World) :
  sound w ->
  corner_value zmin = Some zlo -> corner_value zmax = Some zhi ->
  Double.finite (fst zhi - fst zlo) = true -> Double.finite (snd zhi - snd zlo) = true ->
  exists w1,
    RandomEnv_enter w = (Ret tt, w1) /\
    let re := rk_uniform (fst zlo) (fst zhi) (numpy_random w1) in
    let im := rk_uniform (snd zlo) (snd zhi) (snd re) in
    fst (RandomComplex_apply zmin zmax w) = Ret (Some (Complex (fst re) (fst im))).
Proof.
  intros Hsound Hlo Hhi Hre Him.
  destruct (corner_value_inv zmin zlo Hlo) as (plo & Hplo & Hclo & Hlo1 & Hlo2).
  destruct (corner_value_inv zmax zhi Hhi) as (phi & Hphi & Hchi & Hhi1 & Hhi2).
  unfold RandomComplex_apply. rewrite Hplo, Hphi.
  unfold mbind, M_bind, lift. cbn beta. rewrite Hclo, Hchi. cbn [fst snd].
  match goal with |- context [with_RandomEnv ?body w] =>
    destruct (with_RandomEnv_sound body w Hsound) as (w1 & Henter & _ & _ & Hfst & _)
  end.
  exists w1. split; [exact Henter|]. rewrite Hfst. clear Hfst. cbn beta zeta.
  rewrite (RandomEnv_randreal_run _ _ (fst zlo) (fst zhi) PyNone w1 Hlo1 Hhi1 Hre).
  unfold numpy_draw.
  destruct (rk_uniform (fst zlo) (fst zhi) (numpy_random w1)) as [x s1]. cbv beta iota.
  rewrite (RandomEnv_randreal_run _ _ (snd zlo) (snd zhi) PyNone _ Hlo2 Hhi2 Him).
  unfold numpy_draw. cbn [numpy_random set_numpy_random fst snd].
  destruct (rk_uniform (snd zlo) (snd zhi) s1) as [y s2]. reflexivity.
Qed.

(** X14: [RandomComplex[{zmin, zmax}]], the corners becoming the Python
    complex numbers [zlo] and [zhi], with [Re zlo <= Re zhi],
    [Im zlo <= Im zhi] and finite ranges: the call returns a complex number
    whose real part lies between the real parts and whose imaginary part
    lies between the imaginary parts of [zlo] and [zhi]. *)
Theorem RandomComplex_apply_within (zmin zmax : Expr) (zlo zhi : Q * Q) (w : World) :
  sound w ->
  corner_value zmin = Some zlo -> corner_value zmax = Some zhi ->
  (fst zlo <= fst zhi)%Q -> (snd zlo <= snd zhi)%Q ->
  Double.finite (fst zhi - fst zlo) = true -> Double.finite (snd zhi - snd zlo) = true ->
  exists value,
    fst (RandomComplex_apply zmin zmax w) = Ret (Some value) /\
    complex_within (fst zlo) (snd zlo) (fst zhi) (snd zhi) value.
Proof.
  intros Hsound Hlo Hhi Hre Him Hfre Hfim.
  destruct (RandomComplex_apply_run zmin zmax zlo zhi w Hsound Hlo Hhi Hfre Hfim)
    as (w1 & _ & Hfst).
  cbn zeta in Hfst.
  pose proof (rk_uniform_range (fst zlo) (fst zhi) (numpy_random w1) Hre) as Hx.
  destruct (rk_uniform (fst zlo) (fst zhi) (numpy_random w1)) as [x s1].
  cbn [fst snd] in Hfst, Hx.
  pose proof (rk_uniform_range (snd zlo) (snd zhi) s1 Him) as Hy.
  destruct (rk_uniform (snd zlo) (snd zhi) s1) as [y s2]. cbn [fst snd] in Hfst, Hy.
  eexists. split; [exact Hfst|]. exists x, y. tauto.
Qed.


End Rectangle.

(** ** [RandomChoice] and [RandomSample] as a whole *)

Section Choice.
Context {H : Host}.

Ltac run := unfold mbind, M_bind, mret, M_ret, lift, raise in *.

(** X16: [RandomChoice] and [RandomSample] never return a value, whatever
    the domain and the size.  With a list or a rule as domain the call
    raises, [TypeError] where the size or the weights expression is
    iterated ([IndexError] for a rule without leaves), and leaves the world
    as it was: no message, no session, no draw.  With any other domain it
    is answered by the message [list]. *)
Theorem RandomSelection_apply_never_returns (name : string) (_replace : bool)
    (domain size : Expr) (w : World) :
  let result := _RandomSelection_apply name _replace domain size w in
  (forall value, fst result <> Ret (Some value)) /\
  (((fst result = Raise TypeError \/ fst result = Raise IndexError) /\ snd result = w) \/
   (fst result = Ret None /\ snd result = with_message (mkMessage name "list" []) w)).
Proof.
  cbn zeta. unfold _RandomSelection_apply.
  destruct (String.eqb (get_head_name domain) "System`Rule").
  - run. destruct (py_index (leaves_of domain) 0) as [weights|e] eqn:Hindex.
    + rewrite _weights_to_python_raises. cbn. split; [discriminate|]. left. auto.
    + unfold py_index in Hindex. destruct (leaves_of domain !! 0%nat); [discriminate|].
      injection Hindex as <-. cbn. split; [discriminate|]. left. auto.
  - destruct (String.eqb (get_head_name domain) "System`List").
    + unfold _RandomSelection_draw. run. rewrite _size_to_python_raises. cbn.
      split; [discriminate|]. left. auto.
    + cbn. split; [discriminate|]. right. split; reflexivity.
Qed.

End Choice.

(** ** Shapes at the edge: a zero dimension, no dimension at all *)


Section EdgeShapes.
Context {H : Host} {P : PickleLaws H}.

Ltac run := unfold mbind, M_bind, mret, M_ret, lift, raise in *.




End EdgeShapes.

(** ** Calls that end with a message *)

Section Frame.
Context {H : Host}.

Ltac run := unfold mbind, M_bind, mret, M_ret, lift, raise in *.

Lemma valued_some {A} (m : M A) (k : A -> Expr) :
  valued (m ≫= fun a => mret (Some (k a))).
Proof. intros w. run. destruct (m w) as [[a|e] w1]; discriminate. Qed.

Lemma valued_bind {A} (m : M A) (k : A -> M (option Expr)) :
  (forall a, valued (k a)) -> valued (m ≫= k).
Proof.
  intros Hk w. run. destruct (m w) as [[a|e] w1]; [apply Hk|discriminate].
Qed.

Lemma valued_ret (e : Expr) : valued (mret (Some e)).
Proof. intros w. discriminate. Qed.

Lemma valued_with_RandomEnv (body : M (option Expr)) :
  valued body -> valued (with_RandomEnv body).
Proof.
  intros Hbody w. unfold with_RandomEnv.
  destruct (RandomEnv_enter w) as [[[]|e] w1]; [|discriminate].
  specialize (Hbody w1). destruct (body w1) as [r w2].
  destruct (RandomEnv_exit w2) as [[[]|e] w3]; [exact Hbody|discriminate].
Qed.

Lemma answers_valued (m : M (option Expr)) : valued m -> answers_by_message m.
Proof. intros Hm w Hnone. destruct (Hm w Hnone). Qed.

Lemma answers_message (symbol tag : string) (args : list Expr) :
  answers_by_message (message symbol tag args ≫= fun _ => mret None).
Proof. intros w _. eexists. reflexivity. Qed.

Lemma answers_lift {A} (o : outcome A) (k : A -> M (option Expr)) :
  (forall a, answers_by_message (k a)) -> answers_by_message (lift o ≫= k).
Proof.
  intros Hk w. run. destruct o as [a|e]; [apply Hk|discriminate].
Qed.

Ltac session :=
  apply answers_valued, valued_with_RandomEnv;
  repeat first [apply valued_ret | apply valued_bind; intros ?].

(** The rule branch of the selection builtins raises whatever it is given. *)
Lemma valued_rule_branch (name : string) (_replace : bool) (domain size : Expr) :
  String.eqb (get_head_name domain) "System`Rule" = true ->
  valued (_RandomSelection_apply name _replace domain size).
Proof.
  intros Hrule w. unfold _RandomSelection_apply. rewrite Hrule. run.
  destruct (py_index (leaves_of domain) 0) as [weights|e]; [|discriminate].
  unfold _weights_to_python. run.
  destruct (iter_expr weights) as [items|e]; [|discriminate].
  destruct (negb (forallb is_numeric items)).
  { unfold message. rewrite numpy_sum_none_raises. discriminate. }
  destruct (iter_py (to_python weights)) as [py_items|e] eqn:Hiter; [|discriminate].
  destruct (negb (forallb is_nonneg_number py_items)).
  { unfold message. rewrite numpy_sum_none_raises. discriminate. }
  rewrite (numpy_sum_pair_raises _ _ Hiter). discriminate.
Qed.

Lemma answers__RandomSelection_draw (name : string) (_replace : bool)
    (domain size : Expr) (weights : PyVal) (elements : list Expr) :
  answers_by_message (_RandomSelection_draw name _replace domain size weights elements).
Proof.
  intros w. unfold _RandomSelection_draw, _size_to_python. run.
  destruct (iter_expr size) as [items|e]; [|discriminate].
  destruct (negb (forallb is_numeric items)).
  { intros _. eexists. reflexivity. }
  destruct (iter_py (to_python size)) as [py_items|e] eqn:Hiter; [|discriminate].
  destruct (negb (forallb is_nonneg_int py_items)).
  { intros _. eexists. reflexivity. }
  destruct (to_python size) eqn:Hsize; cbn in Hiter; try discriminate Hiter;
    match goal with |- context [with_RandomEnv ?body] =>
      intros Hnone; exfalso; revert Hnone;
      apply (valued_with_RandomEnv body);
      repeat first [apply valued_ret | apply valued_bind; intros ?];
      intros ?; destruct (_from_numpy _ _ _); discriminate
    end.
Qed.

Lemma answers__RandomSelection_apply (name : string) (_replace : bool) (domain size : Expr) :
  answers_by_message (_RandomSelection_apply name _replace domain size).
Proof.
  destruct (String.eqb (get_head_name domain) "System`Rule") eqn:Hrule.
  - apply answers_valued, valued_rule_branch. exact Hrule.
  - unfold _RandomSelection_apply. rewrite Hrule.
    destruct (String.eqb _ "System`List").
    + apply answers__RandomSelection_draw.
    + apply answers_message.
Qed.

(** X20: a sampling call that ends with no value has not opened a session.
    Whatever the builtin and its arguments, when the call returns [None] it
    has issued exactly one message and touched nothing else: generator,
    store and entropy are as before. *)
Theorem message_answers_leave_the_state (c : Call) (w : World) :
  fst (run_call c w) = Ret None ->
  exists msg,
    out (snd (run_call c w)) = (out w ++ [msg])%list /\
    numpy_random (snd (run_call c w)) = numpy_random w /\
    config (snd (run_call c w)) = config w /\
    entropy (snd (run_call c w)) = entropy w.
Proof.
  intros Hnone.
  assert (Hanswers : answers_by_message (run_call c)).
  { destruct c; cbn [run_call].
    - unfold RandomInteger_apply. destruct rmin, rmax; first [apply answers_message|session].
    - unfold RandomInteger_apply_list.
      destruct rmin, rmax; first [apply answers_message|session].
    - unfold RandomReal_apply.
      destruct (real_value xmin), (real_value xmax); first [apply answers_message|session].
    - unfold RandomReal_apply_list.
      destruct (real_value xmin), (real_value xmax); try apply answers_message.
      apply answers_lift. intros items.
      destruct (negb _); [apply answers_message|session].
    - unfold RandomComplex_apply.
      destruct (complex_value (promote zmin)), (complex_value (promote zmax));
        try apply answers_message.
      do 2 (apply answers_lift; intros ?). session.
    - unfold RandomComplex_apply_list.
      destruct (complex_value (promote zmin)), (complex_value (promote zmax));
        try apply answers_message.
      do 3 (apply answers_lift; intros ?).
      destruct (negb _); [apply answers_message|session].
    - apply answers__RandomSelection_apply.
    - apply answers__RandomSelection_apply. }
  destruct (Hanswers w Hnone) as [msg Hw]. exists msg. rewrite Hw. repeat split.
Qed.

End Frame.
(** ** The rewrite rules *)

(** Where no rule applies the first-rule strategy stays. *)
Lemma normal_normalize (rules : list Rule) (e : Expr) (fuel : nat) :
  normal rules e -> normalize rules fuel e = e.
Proof.
  intros Hnormal. destruct fuel as [|fuel]; [reflexivity|]. cbn [normalize].
  assert (Hnone : first_rule rules e = None).
  { induction rules as [|r rules IH]; [reflexivity|].
    cbn [first_rule]. rewrite (Hnormal r) by left. apply IH.
    intros r' Hr'. apply Hnormal. now right. }
  rewrite Hnone. reflexivity.
Qed.

Section RuleTables.
Variables (name : string) (corner : list Expr) (test : Expr -> bool) (counted : bool).
Hypothesis test_list : forall leaves, test (Expression "List" leaves) = false.

(** The rules of a table, one by one. *)
Lemma table_cases (r : Rule) :
  r ∈ range_rules name (Expression "List" corner) test counted ->
  r = rule_no_argument name (Expression "List" corner) \/
  r = rule_upper_bound name test \/ r = rule_upper_bound_shape name test \/
  (counted = true /\ r = rule_count name).
Proof.
  unfold range_rules. rewrite elem_of_app, !elem_of_cons.
  intros [[->|[->|[->|Hnil]]]|Hcount]; auto.
  - inversion Hnil.
  - destruct counted; [|inversion Hcount].
    rewrite elem_of_cons in Hcount. destruct Hcount as [->|Hnil]; [auto|inversion Hnil].
Qed.

(** Every step uses up one of the steps left. *)
Lemma rewrites_steps_left (e e' : Expr) :
  rewrites (range_rules name (Expression "List" corner) test counted) e e' ->
  steps_left name test counted e = S (steps_left name test counted e').
Proof.
  intros (r & Hin & Hr). apply table_cases in Hin.
  destruct Hin as [->|[->|[->|[Hc ->]]]].
  - unfold rule_no_argument in Hr.
    destruct e as [ | | | | | head [|a rest]]; try discriminate Hr.
    destruct (String.eqb_spec head name) as [->|]; [|discriminate Hr].
    injection Hr as <-. cbn. rewrite String.eqb_refl, test_list. reflexivity.
  - unfold rule_upper_bound in Hr.
    destruct e as [ | | | | | head [|a [|b rest]]]; try discriminate Hr.
    destruct (String.eqb_spec head name) as [->|]; [|discriminate Hr].
    destruct (test a) eqn:Ha; [|discriminate Hr].
    injection Hr as <-. cbn. rewrite String.eqb_refl, test_list, Ha. reflexivity.
  - unfold rule_upper_bound_shape in Hr.
    destruct e as [ | | | | | head [|a [|b [|c rest]]]]; try discriminate Hr.
    destruct (String.eqb_spec head name) as [->|]; [|discriminate Hr].
    destruct (test a) eqn:Ha; [|discriminate Hr].
    injection Hr as <-. cbn. rewrite String.eqb_refl, test_list, Ha. reflexivity.
  - unfold rule_count in Hr.
    destruct e as [ | | | | | head [|a [|b [|c rest]]]]; try discriminate Hr.
    destruct (String.eqb_spec head name) as [->|]; [|discriminate Hr].
    destruct (IntegerQ b) eqn:Hb; [|discriminate Hr].
    injection Hr as <-. cbn. rewrite String.eqb_refl, Hc, Hb. cbn. lia.
Qed.

Ltac crunch :=
  repeat (cbn [normalize first_rule rule_no_argument rule_upper_bound
               rule_upper_bound_shape rule_count app andb IntegerQ];
          rewrite ?String.eqb_refl, ?test_list).

(** A step, by whichever rule, does not change where the first-rule strategy
    ends. *)
Lemma rewrites_normalize (e e' : Expr) :
  rewrites (range_rules name (Expression "List" corner) test counted) e e' ->
  normalize (range_rules name (Expression "List" corner) test counted) 2 e
  = normalize (range_rules name (Expression "List" corner) test counted) 2 e'.
Proof.
  intros (r & Hin & Hr). apply table_cases in Hin. unfold range_rules.
  destruct Hin as [->|[->|[->|[Hc ->]]]].
  - unfold rule_no_argument in Hr.
    destruct e as [ | | | | | head [|a rest]]; try discriminate Hr.
    destruct (String.eqb_spec head name) as [->|]; [|discriminate Hr].
    injection Hr as <-. destruct counted; crunch; reflexivity.
  - unfold rule_upper_bound in Hr.
    destruct e as [ | | | | | head [|a [|b rest]]]; try discriminate Hr.
    destruct (String.eqb_spec head name) as [->|]; [|discriminate Hr].
    destruct (test a) eqn:Ha; [|discriminate Hr].
    injection Hr as <-. destruct counted; crunch; rewrite Ha; crunch; reflexivity.
  - unfold rule_upper_bound_shape in Hr.
    destruct e as [ | | | | | head [|a [|b [|c rest]]]]; try discriminate Hr.
    destruct (String.eqb_spec head name) as [->|]; [|discriminate Hr].
    destruct (test a) eqn:Ha; [|discriminate Hr].
    injection Hr as <-.
    destruct counted; crunch; rewrite Ha; crunch; try reflexivity.
    destruct b; crunch; reflexivity.
  - unfold rule_count in Hr.
    destruct e as [ | | | | | head [|a [|b [|c rest]]]]; try discriminate Hr.
    destruct (String.eqb_spec head name) as [->|]; [|discriminate Hr].
    destruct (IntegerQ b) eqn:Hb; [|discriminate Hr].
    injection Hr as <-. rewrite Hc.
    crunch. destruct (test a) eqn:Ha; crunch; rewrite ?Hb; crunch; rewrite ?Ha; crunch;
      reflexivity.
Qed.

(** A rewriting sequence of [n] steps uses up [n] of the steps left and
    keeps the end of the first-rule strategy. *)
Lemma nsteps_table (n : nat) (e e' : Expr) :
  nsteps (rewrites (range_rules name (Expression "List" corner) test counted)) n e e' ->
  steps_left name test counted e = (n + steps_left name test counted e')%nat /\
  normalize (range_rules name (Expression "List" corner) test counted) 2 e
  = normalize (range_rules name (Expression "List" corner) test counted) 2 e'.
Proof.
  induction 1 as [|n x y z Hstep _ [IHleft IHnorm]]; [split; reflexivity|].
  split.
  - rewrite (rewrites_steps_left _ _ Hstep), IHleft. reflexivity.
  - rewrite (rewrites_normalize _ _ Hstep). exact IHnorm.
Qed.

(** No call has more than two steps left. *)
Lemma steps_left_bound (e : Expr) : (steps_left name test counted e <= 2)%nat.
Proof.
  unfold steps_left. destruct e as [ | | | | | head [|a [|b [|c rest]]]]; try lia;
    destruct (String.eqb head name); try lia;
    repeat match goal with |- context [if ?c then _ else _] => destruct c end; lia.
Qed.

End RuleTables.

Section Tables.

Lemma IntegerQ_list (leaves : list Expr) : IntegerQ (Expression "List" leaves) = false.
Proof. reflexivity. Qed.

Lemma NumberQ_list (leaves : list Expr) : NumberQ (Expression "List" leaves) = false.
Proof. reflexivity. Qed.

(** X21: the rewrite rules of [RandomInteger], [RandomReal] and
    [RandomComplex] terminate and converge.  Whatever order the evaluator
    tries the rules in, a call is rewritten at most twice, and once no rule
    applies any more the call reached is the one obtained by always taking
    the first applicable rule as written: [RandomInteger[5, 3]], which two
    rules match, becomes [RandomInteger[{0, 5}, {3}]] either way. *)
Theorem range_rules_converge (rules : list Rule) (n : nat) (e e' : Expr) :
  rules ∈ [RandomInteger_rules; RandomReal_rules; RandomComplex_rules] ->
  nsteps (rewrites rules) n e e' ->
  (n <= 2)%nat /\ (normal rules e' -> e' = normalize rules 2 e).
Proof.
  intros Hrules Hsteps.
  assert (Htable : exists name corner test counted,
             (forall leaves, test (Expression "List" leaves) = false) /\
             rules = range_rules name (Expression "List" corner) test counted).
  { rewrite !elem_of_cons in Hrules. destruct Hrules as [->|[->|[->|Hnil]]].
    - exists "RandomInteger", [Integer 0; Integer 1], IntegerQ, true.
      split; [exact IntegerQ_list|reflexivity].
    - exists "RandomReal", [Integer 0; Integer 1], NumberQ, true.
      split; [exact NumberQ_list|reflexivity].
    - exists "RandomComplex", [Integer 0; Complex 1 1], NumberQ, false.
      split; [exact NumberQ_list|reflexivity].
    - inversion Hnil. }
  destruct Htable as (name & corner & test & counted & Htest & ->).
  destruct (nsteps_table name corner test counted Htest n e e' Hsteps) as [Hleft Hnorm].
  split.
  - pose proof (steps_left_bound name test counted e). lia.
  - intros Hnormal. rewrite Hnorm. symmetry.
    apply normal_normalize. exact Hnormal.
Qed.

End Tables.

Section Defaults.
Context {H : Host} {P : PickleLaws H} {R : RangeLaws H}.

Ltac run := unfold mbind, M_bind, mret, M_ret, lift, raise in *.

Ltac session Hsound :=
  match goal with |- context [with_RandomEnv ?body ?w] =>
    let w1 := fresh "w1" in
    let Hfst := fresh "Hfst" in
    destruct (with_RandomEnv_sound body w Hsound) as (w1 & _ & _ & _ & Hfst & _);
    rewrite Hfst; clear Hfst; run
  end.

(** A double less zero is in range. *)
Lemma finite_from_zero (a : Q) : Double.finite a = true -> Double.finite (a - 0) = true.
Proof.
  rewrite !DoubleFacts.finite_iff. intros Ha.
  assert (Heq : (a - 0 == a)%Q) by ring. rewrite Heq. exact Ha.
Qed.


(** X22: the short forms of [RandomInteger].  [RandomInteger[]] returns 0 or
    1; [RandomInteger[max]] with [0 <= max <= 2^63 - 1] returns an integer
    from 0 to [max]; with a negative [max] the range [{0, max}] the rule
    builds is empty, with [max] beyond [2^63 - 1] it does not fit numpy's
    integers, and either way the call ends in numpy's [ValueError]. *)
Theorem RandomInteger_short_forms (w : World) :
  sound w ->
  (exists v, fst (RandomInteger_evaluate (Expression "RandomInteger" []) w)
             = Ret (Some (Integer v)) /\ (v = 0 \/ v = 1)) /\
  (forall max, 0 <= max <= int64_max ->
     exists v, fst (RandomInteger_evaluate (Expression "RandomInteger" [Integer max]) w)
               = Ret (Some (Integer v)) /\ 0 <= v <= max) /\
  (forall max, max < 0 \/ int64_max < max ->
     fst (RandomInteger_evaluate (Expression "RandomInteger" [Integer max]) w)
     = Raise ValueError).
Proof.
  intros Hsound.
  assert (Hdraw : forall max,
            exists s, fst (RandomInteger_apply (Integer 0) (Integer max) w)
                      = if (0 <? int64_min) || (int64_max <? max) || (max <? 0)
                        then Raise ValueError
                        else Ret (Some (Integer (fst (rk_integer 0 max s))))).
  { intros max. cbn [RandomInteger_apply]. session Hsound.
    exists (numpy_random w1).
    unfold RandomEnv_randint, numpy_random_random_integers.
    destruct (_ || _); [reflexivity|]. cbn [numpy_draw].
    destruct (rk_integer 0 max (numpy_random w1)). reflexivity. }
  split; [|split].
  - change (RandomInteger_evaluate (Expression "RandomInteger" []))
      with (RandomInteger_apply (Integer 0) (Integer 1)).
    destruct (Hdraw 1) as (s & ->). cbn [Z.ltb Z.compare int64_min int64_max orb].
    pose proof (rk_integer_range 0 1 s ltac:(lia)).
    eexists. split; [reflexivity|lia].
  - intros max Hmax.
    change (RandomInteger_evaluate (Expression "RandomInteger" [Integer max]))
      with (RandomInteger_apply (Integer 0) (Integer max)).
    destruct (Hdraw max) as (s & ->).
    rewrite (randint_accepts 0 max) by (unfold int64_min; lia).
    pose proof (rk_integer_range 0 max s ltac:(lia)).
    eexists. split; [reflexivity|lia].
  - intros max Hmax.
    change (RandomInteger_evaluate (Expression "RandomInteger" [Integer max]))
      with (RandomInteger_apply (Integer 0) (Integer max)).
    destruct (Hdraw max) as (s & ->).
    rewrite (randint_refuses 0 max) by lia. reflexivity.
Qed.


(** X24: the short forms of [RandomComplex].  [RandomComplex[]] returns a
    point of the unit square; [RandomComplex[zmax]] with a real or integer
    [zmax] promotes the bound to a complex number with imaginary part 0, so
    with a bound that becomes the double [hi >= 0] the result has a real
    part between 0 and [hi] and an imaginary part equal to 0. *)
Theorem RandomComplex_short_forms (w : World) :
  sound w ->
  (exists value, fst (RandomComplex_evaluate (Expression "RandomComplex" []) w)
                 = Ret (Some value) /\ complex_within 0 0 1 1 value) /\
  (forall zmax zhi, is_Some (real_value zmax) -> corner_value zmax = Some zhi ->
     (0 <= fst zhi)%Q ->
     exists re im, fst (RandomComplex_evaluate (Expression "RandomComplex" [zmax]) w)
                   = Ret (Some (Complex re im)) /\
                   (0 <= re)%Q /\ (re <= fst zhi)%Q /\ (im == 0)%Q).
Proof.
  intros Hsound.
  assert (Hdraw : forall zmax zhi, corner_value zmax = Some zhi ->
            (0 <= fst zhi)%Q -> (0 <= snd zhi)%Q ->
            exists value,
              fst (RandomComplex_apply (Integer 0) zmax w) = Ret (Some value) /\
              complex_within 0 0 (fst zhi) (snd zhi) value).
  { intros zmax zhi Hhi Hre Him.
    destruct (corner_value_inv zmax zhi Hhi) as (phi & Hphi & Hchi & Hhi1 & Hhi2).
    assert (Hf1 : Double.finite (fst zhi - 0) = true).
    { apply finite_from_zero. cbn [np_double] in Hhi1.
      destruct (Double.finite (fst zhi)); [reflexivity|discriminate]. }
    assert (Hf2 : Double.finite (snd zhi - 0) = true).
    { apply finite_from_zero. cbn [np_double] in Hhi2.
      destruct (Double.finite (snd zhi)); [reflexivity|discriminate]. }
    unfold RandomComplex_apply. rewrite Hphi. cbn [promote complex_value].
    unfold mbind at 1, M_bind at 1, lift at 1.
    change (py_complex (inject_Z 0, 0%Q)) with (Ret (0%Q, 0%Q) : outcome (Q * Q)).
    cbv beta iota. unfold mbind at 1, M_bind at 1, lift at 1. rewrite Hchi.
    cbv beta iota. cbn [fst snd].
    session Hsound.
    assert (Hzero : np_double (PyFloat 0) = Ret 0%Q) by (vm_compute; reflexivity).
    rewrite (RandomEnv_randreal_run _ _ 0 (fst zhi) PyNone w1 Hzero Hhi1 Hf1).
    unfold numpy_draw.
    pose proof (rk_uniform_range 0 (fst zhi) (numpy_random w1) Hre) as Hx.
    destruct (rk_uniform 0 (fst zhi) (numpy_random w1)) as [x s1]. cbv beta iota.
    rewrite (RandomEnv_randreal_run _ _ 0 (snd zhi) PyNone _ Hzero Hhi2 Hf2).
    unfold numpy_draw. cbn [numpy_random set_numpy_random].
    pose proof (rk_uniform_range 0 (snd zhi) s1 Him) as Hy.
    destruct (rk_uniform 0 (snd zhi) s1) as [y s2]. cbn in *.
    eexists. split; [reflexivity|]. exists x, y. tauto. }
  split.
  - change (RandomComplex_evaluate (Expression "RandomComplex" []))
      with (RandomComplex_apply (Integer 0) (Complex 1 1)).
    apply (Hdraw (Complex 1 1) (1%Q, 1%Q)); [reflexivity|discriminate|discriminate].
  - intros zmax zhi [v Hv] Hhi Hle.
    assert (Hnum : NumberQ zmax = true) by (destruct zmax; try discriminate Hv; reflexivity).
    assert (Heval : RandomComplex_evaluate (Expression "RandomComplex" [zmax])
                    = RandomComplex_apply (Integer 0) zmax).
    { unfold RandomComplex_evaluate, evaluate_range_builtin. cbn. rewrite Hnum. reflexivity. }
    assert (Him : snd zhi = 0%Q).
    { unfold corner_value in Hhi.
      assert (Hparts : exists x, complex_value (promote zmax) = Some (x, 0%Q))
        by (destruct zmax; try discriminate Hv; eexists; reflexivity).
      destruct Hparts as [x Hx]. rewrite Hx in Hhi. unfold py_complex in Hhi.
      cbn [fst snd] in Hhi. destruct (as_double x) as [a|]; [|discriminate Hhi].
      cbn in Hhi. injection Hhi as <-. reflexivity. }
    rewrite Heval.
    destruct (Hdraw zmax zhi Hhi Hle ltac:(rewrite Him; discriminate))
      as (value & Hvalue & re & im & -> & Hre0 & Hre1 & Him0 & Him1).
    exists re, im. split; [exact Hvalue|]. rewrite Him in Him1. repeat split; try assumption.
    apply Qle_antisym; assumption.
Qed.

End Defaults.

Section Repeat.
Context {H : Host} {P : PickleLaws H}.

(** X25: what a run of sampling calls returns depends on the stored
    [$RandomState] alone.  Two worlds with the same stored state, whatever
    their live generator, their entropy and their other settings, give the
    same results call by call and end with the same stored state. *)
Theorem stored_state_determines_run (cs : list Call) (w w' : World) :
  same_stored_state w w' ->
  fst (run_calls cs w) = fst (run_calls cs w') /\
  same_stored_state (snd (run_calls cs w)) (snd (run_calls cs w')).
Proof.
  revert w w'. induction cs as [|c cs IH]; intros w w' Hsame; [split; [reflexivity|exact Hsame]|].
  cbn [run_calls]. destruct (reproducible_run_call c w w' Hsame) as [Hr Hs].
  destruct (run_call c w) as [r w1], (run_call c w') as [r' w1']. cbn [fst snd] in Hr, Hs.
  destruct (IH w1 w1' Hs) as [Hrs Hend].
  destruct (run_calls cs w1) as [rs w2], (run_calls cs w1') as [rs' w2']. cbn [fst snd] in *.
  split; [congruence|exact Hend].
Qed.

(** X26: [SeedRandom[x]] with [0 <= x < 2^32] returns [Null], leaves the
    generator freshly seeded with [x], and makes what follows repeatable:
    the same calls after the same seed return the same results, whatever
    the worlds were before. *)
Theorem SeedRandom_apply_repeats (x : Z) (cs : list Call) (w w' : World) :
  sound w -> sound w' -> 0 <= x <= 4294967295 ->
  fst (SeedRandom_apply (Integer x) w) = Ret (Some (Symbol "Null")) /\
  numpy_random (snd (SeedRandom_apply (Integer x) w)) = rk_seed x /\
  fst (run_calls cs (snd (SeedRandom_apply (Integer x) w)))
  = fst (run_calls cs (snd (SeedRandom_apply (Integer x) w'))).
Proof.
  intros Hsound Hsound' Hrange.
  destruct (SeedRandom_apply_integer_in_range x w Hsound Hrange) as (Hnull & Hseeded & _).
  split; [exact Hnull|]. split; [exact Hseeded|].
  apply seeded_runs_agree; assumption.
Qed.

End Repeat.

(** ** Shapes that are turned down *)

Section ShapeLeaves.
Context {H : Host}.

Ltac run := unfold mbind, M_bind, mret, M_ret, lift, raise in *.

(** The check of the converted shape, leaf by leaf. *)
Lemma is_nonneg_int_leaves (leaves : list Expr) :
  forallb is_nonneg_int (List.map to_python leaves)
  = forallb (fun e => is_nonneg_int (to_python e)) leaves.
Proof.
  induction leaves as [|e leaves IH]; [reflexivity|].
  cbn [List.map forallb]. rewrite IH. reflexivity.
Qed.

(** A corner whose parts have no double stops the call where it is
    converted. *)
Lemma py_complex_raises (z : Expr) (parts : Q * Q) :
  complex_value (promote z) = Some parts -> corner_value z = None ->
  py_complex parts = Raise OverflowError.
Proof.
  unfold corner_value. intros ->. unfold py_complex, as_double.
  destruct (Double.finite (fst parts)); [|reflexivity].
  destruct (Double.finite (snd parts)); [discriminate|reflexivity].
Qed.

(** X27: a shape list with a leaf that Python does not count as a
    non-negative integer, be it a negative integer, a real number, a string
    or a symbol other than [True] and [False], is answered by the message
    [array] and nothing is drawn, by [RandomReal] for real or integer
    bounds and by [RandomComplex] for corners that convert to Python
    complex numbers.  [RandomReal] passes the call first and the shape
    second, [RandomComplex] the shape first.  [True] and [False] are the
    integers 1 and 0 to Python's [isinstance(i, int)], get past this test
    and are not covered. *)
Theorem shape_leaves_are_checked (leaves : list Expr) (xmin xmax : Expr) (w : World) :
  forallb (fun e => is_nonneg_int (to_python e)) leaves = false ->
  let ns := Expression "List" leaves in
  (is_Some (real_value xmin) -> is_Some (real_value xmax) ->
   RandomReal_apply_list xmin xmax ns w
   = (Ret None,
      with_message (mkMessage "RandomReal" "array"
                      [Expression "RandomReal" [Expression "List" [xmin; xmax]; ns]; ns]) w)) /\
  (is_Some (corner_value xmin) -> is_Some (corner_value xmax) ->
   RandomComplex_apply_list xmin xmax ns w
   = (Ret None,
      with_message (mkMessage "RandomComplex" "array"
                      [ns; Expression "RandomComplex" [Expression "List" [xmin; xmax]; ns]]) w)) /\
  forallb (fun e => is_nonneg_int (to_python e)) [Symbol "True"; Symbol "False"] = true.
Proof.
  intros Hbad ns. subst ns. split; [|split].
  - intros [a Ha] [b Hb]. unfold RandomReal_apply_list. rewrite Ha, Hb.
    cbn [to_python]. change (String.eqb "List" "List") with true. cbn iota.
    run. cbn [iter_py]. rewrite is_nonneg_int_leaves, Hbad. reflexivity.
  - intros [a Ha] [b Hb].
    destruct (corner_value_inv xmin a Ha) as (pa & Hpa & Hca & _).
    destruct (corner_value_inv xmax b Hb) as (pb & Hpb & Hcb & _).
    unfold RandomComplex_apply_list. rewrite Hpa, Hpb.
    cbn [to_python]. change (String.eqb "List" "List") with true. cbn iota.
    run. rewrite Hca, Hcb. cbn [iter_py]. rewrite is_nonneg_int_leaves, Hbad. reflexivity.
  - reflexivity.
Qed.

(** X28: [RandomComplex] takes a bare count itself, with no rule in
    between.  [RandomComplex[{zmin, zmax}, n]] with an integer [n >= 0] is
    [RandomComplex[{zmin, zmax}, {n}]]; with [n < 0] and two numbers as
    corners it is answered by the message [array], which shows the count as
    it was written, unless a corner has a part beyond the doubles, which
    ends the call in [OverflowError] before the count is looked at. *)
Theorem RandomComplex_apply_list_count (zmin zmax : Expr) (n : Z) (w : World) :
  (0 <= n ->
   RandomComplex_apply_list zmin zmax (Integer n) w
   = RandomComplex_apply_list zmin zmax (shape_expr [n]) w) /\
  (n < 0 ->
   is_Some (complex_value (promote zmin)) -> is_Some (complex_value (promote zmax)) ->
   RandomComplex_apply_list zmin zmax (Integer n) w
   = match corner_value zmin, corner_value zmax with
     | Some _, Some _ =>
         (Ret None,
          with_message (mkMessage "RandomComplex" "array"
                          [Integer n;
                           Expression "RandomComplex"
                             [Expression "List" [zmin; zmax]; Integer n]]) w)
     | _, _ => (Raise OverflowError, w)
     end).
Proof.
  unfold RandomComplex_apply_list, shape_expr. cbn [List.map to_python].
  change (String.eqb "List" "List") with true. cbn iota. split.
  - intros Hn.
    destruct (complex_value (promote zmin)), (complex_value (promote zmax)); try reflexivity.
    run. destruct (py_complex p); [|reflexivity]. destruct (py_complex p0); [|reflexivity].
    cbn [iter_py forallb is_nonneg_int andb].
    destruct (Z.leb_spec 0 n); [reflexivity|lia].
  - intros Hn [a Ha] [b Hb]. rewrite Ha, Hb. run.
    destruct (corner_value zmin) as [ca|] eqn:Hca.
    + destruct (corner_value_inv zmin ca Hca) as (pa & Hpa & Hconv & _).
      rewrite Ha in Hpa. injection Hpa as <-. rewrite Hconv. clear Hconv.
      destruct (corner_value zmax) as [cb|] eqn:Hcb.
      * destruct (corner_value_inv zmax cb Hcb) as (pb & Hpb & Hconv & _).
        rewrite Hb in Hpb. injection Hpb as <-. rewrite Hconv.
        cbn [iter_py forallb is_nonneg_int andb].
        destruct (Z.leb_spec 0 n); [lia|reflexivity].
      * rewrite (py_complex_raises zmax b Hb Hcb). reflexivity.
    + rewrite (py_complex_raises zmin a Ha Hca). reflexivity.
Qed.

End ShapeLeaves.

(** * The further properties on the reference host *)

Lemma stored_world_sound : sound stored_world.
Proof.
  apply (@keeps_sound_RandomState_apply Reference.host ReferenceFacts.pickle_laws).
  apply ReferenceFacts.boot_sound.
Qed.

(** A non-positive integer is refused. *)
Lemma set_random_state_nonpositive_witness :
  set_random_state (Some (-5)) (Reference.boot [7]) = (Raise binascii_Error, Reference.boot [7]).
Proof.
  exact (@set_random_state_nonpositive Reference.host (-5) (Reference.boot [7]) ltac:(lia)).
Defined.

(** A store holding [-5] stops every session. *)
Lemma corrupt_store_blocks_sessions_witness :
  with_RandomEnv (RandomEnv_randint 0 9 PyNone) corrupt_world
  = (Raise binascii_Error, corrupt_world) /\
  SeedRandom_apply (Integer 3) corrupt_world = (Raise binascii_Error, corrupt_world) /\
  SeedRandom_apply_empty corrupt_world = (Raise binascii_Error, corrupt_world) /\
  RandomState_apply corrupt_world = (Raise binascii_Error, corrupt_world).
Proof.
  exact (@corrupt_store_blocks_sessions Reference.host _ (RandomEnv_randint 0 9 PyNone) (-5) 3
           corrupt_world ltac:(reflexivity) ltac:(lia)).
Defined.

(** Two generator states of the reference host and their encodings. *)
Lemma get_random_state_injective_witness :
  fst (get_random_state (Reference.boot [1]))
  = fst (get_random_state (set_numpy_random (Reference.state_of 2) (Reference.boot [1])))
  <-> numpy_random (Reference.boot [1])
      = numpy_random (set_numpy_random (Reference.state_of 2) (Reference.boot [1])).
Proof.
  exact (@get_random_state_injective Reference.host ReferenceFacts.pickle_laws
           (Reference.boot [1])
           (set_numpy_random (Reference.state_of 2) (Reference.boot [1]))).
Defined.

(** The first read of [$RandomState] on a fresh world. *)
Lemma RandomState_apply_first_access_witness :
  exists n w',
    RandomState_apply (Reference.boot [7]) = (Ret (Some (Integer n)), w') /\
    numpy_random w' = rk_fresh (hd 0 (entropy (Reference.boot [7]))) /\
    get_random_state w' = (Ret n, w') /\
    config w' = <["$RandomState" := n]> (config (Reference.boot [7])) /\
    entropy w' = tl (entropy (Reference.boot [7])) /\ out w' = out (Reference.boot [7]).
Proof.
  exact (@RandomState_apply_first_access Reference.host ReferenceFacts.pickle_laws
           (Reference.boot [7]) ltac:(reflexivity)).
Defined.

(** [SeedRandom[]] on a fresh world. *)
Lemma SeedRandom_apply_empty_succeeds_witness :
  fst (SeedRandom_apply_empty (Reference.boot [7])) = Ret (Some (Symbol "Null")) /\
  (exists sample,
     numpy_random (snd (SeedRandom_apply_empty (Reference.boot [7]))) = rk_fresh sample) /\
  exists n,
    config (snd (SeedRandom_apply_empty (Reference.boot [7]))) !! "$RandomState" = Some n /\
    get_random_state (snd (SeedRandom_apply_empty (Reference.boot [7])))
    = (Ret n, snd (SeedRandom_apply_empty (Reference.boot [7]))).
Proof.
  exact (@SeedRandom_apply_empty_succeeds Reference.host ReferenceFacts.pickle_laws
           (Reference.boot [7]) (ReferenceFacts.boot_sound [7])).
Defined.

(** Two integer draws, in two sessions and in one. *)
Lemma sessions_compose_witness :
  let body := RandomEnv_randint 0 9 PyNone in
  let next := fun _ : ndarray Z => RandomEnv_randint 0 9 PyNone in
  let two := (with_RandomEnv body ≫= fun a => with_RandomEnv (next a)) (Reference.boot [7]) in
  let one := with_RandomEnv (body ≫= next) (Reference.boot [7]) in
  fst two = fst one /\
  numpy_random (snd two) = numpy_random (snd one) /\
  config (snd two) = config (snd one).
Proof.
  exact (@sessions_compose Reference.host ReferenceFacts.pickle_laws _ _
           (RandomEnv_randint 0 9 PyNone) (fun _ => RandomEnv_randint 0 9 PyNone)
           (Reference.boot [7]) (ReferenceFacts.boot_sound [7])
           (draws_only_randint 0 9 PyNone) (fun _ => draws_only_randint 0 9 PyNone)).
Defined.

(** [RandomSample[{a, b}, {3}]]: three out of two. *)
Lemma RandomSample_apply_raises_witness :
  let elements := [Symbol "a"; Symbol "b"] in
  RandomSample_apply (Expression "List" elements) (shape_expr [3]) (Reference.boot [7])
  = (Raise TypeError, Reference.boot [7]) /\
  RandomEnv_randchoice (length elements) (PyList (List.map PyInt [3])) false PyNone
    (Reference.boot [7])
  = (Raise ValueError, Reference.boot [7]).
Proof.
  split.
  - exact (proj1 (@RandomSample_apply_raises Reference.host [Symbol "a"; Symbol "b"]
                    (shape_expr [3]) (Reference.boot [7]))).
  - exact (proj2 (@RandomSample_apply_raises Reference.host [Symbol "a"; Symbol "b"]
                    (shape_expr [3]) (Reference.boot [7]))
             [3] ltac:(reflexivity) ltac:(vm_compute; discriminate) ltac:(vm_compute; lia)).
Defined.


(** [RandomComplex[{0, 1 + 2 I}]] as two real draws. *)
Lemma RandomComplex_apply_two_reals_witness :
  exists x y w1 w2,
    RandomReal_apply (Real 0) (Real 1) (Reference.boot [7]) = (Ret (Some (Real x)), w1) /\
    RandomReal_apply (Real 0) (Real 2) w1 = (Ret (Some (Real y)), w2) /\
    fst (RandomComplex_apply (Integer 0) (Complex 1 2) (Reference.boot [7]))
    = Ret (Some (Complex x y)) /\
    numpy_random (snd (RandomComplex_apply (Integer 0) (Complex 1 2) (Reference.boot [7])))
    = numpy_random w2 /\
    config (snd (RandomComplex_apply (Integer 0) (Complex 1 2) (Reference.boot [7])))
    = config w2.
Proof.
  exact (@RandomComplex_apply_two_reals Reference.host ReferenceFacts.pickle_laws
           (Integer 0) (Complex 1 2) (0%Q, 0%Q) (1%Q, 2%Q)
           (Reference.boot [7]) (ReferenceFacts.boot_sound [7])
           ltac:(vm_compute; reflexivity) ltac:(vm_compute; reflexivity)
           ltac:(vm_compute; reflexivity) ltac:(vm_compute; reflexivity)).
Defined.

(** [RandomInteger[{1, 6}]]. *)
Lemma RandomInteger_apply_range_witness :
  exists v, fst (RandomInteger_apply (Integer 1) (Integer 6) (Reference.boot [7]))
            = Ret (Some (Integer v)) /\ 1 <= v <= 6.
Proof.
  exact (proj1 (@RandomInteger_apply_range Reference.host ReferenceFacts.pickle_laws
                  ReferenceRanges.range_laws 1 6 (Reference.boot [7])
                  (ReferenceFacts.boot_sound [7]))
           ltac:(vm_compute; discriminate) ltac:(lia) ltac:(vm_compute; discriminate)).
Defined.






(** [RandomComplex[{0, 1 + 2 I}]]. *)
Lemma RandomComplex_apply_within_witness :
  exists value,
    fst (RandomComplex_apply (Integer 0) (Complex 1 2) (Reference.boot [7]))
    = Ret (Some value) /\
    complex_within 0 0 1 2 value.
Proof.
  exact (@RandomComplex_apply_within Reference.host ReferenceFacts.pickle_laws
           ReferenceRanges.range_laws (Integer 0) (Complex 1 2) (0%Q, 0%Q) (1%Q, 2%Q)
           (Reference.boot [7]) (ReferenceFacts.boot_sound [7])
           ltac:(vm_compute; reflexivity) ltac:(vm_compute; reflexivity)
           ltac:(discriminate) ltac:(discriminate)
           ltac:(vm_compute; reflexivity) ltac:(vm_compute; reflexivity)).
Defined.




(** [RandomInteger[{1, x}]], turned down by a message. *)
Lemma message_answers_leave_the_state_witness :
  let c := CallRandomInteger (Integer 1) (Symbol "x") in
  exists msg,
    out (snd (run_call c (Reference.boot [7]))) = (out (Reference.boot [7]) ++ [msg])%list /\
    numpy_random (snd (run_call c (Reference.boot [7]))) = numpy_random (Reference.boot [7]) /\
    config (snd (run_call c (Reference.boot [7]))) = config (Reference.boot [7]) /\
    entropy (snd (run_call c (Reference.boot [7]))) = entropy (Reference.boot [7]).
Proof.
  exact (@message_answers_leave_the_state Reference.host
           (CallRandomInteger (Integer 1) (Symbol "x")) (Reference.boot [7])
           ltac:(reflexivity)).
Defined.

(** [RandomInteger[5, 3]] rewritten by the count rule first. *)
Lemma range_rules_converge_witness :
  let e := Expression "RandomInteger" [Integer 5; Integer 3] in
  let e' := Expression "RandomInteger"
              [Expression "List" [Integer 0; Integer 5]; Expression "List" [Integer 3]] in
  (2 <= 2)%nat /\ (normal RandomInteger_rules e' -> e' = normalize RandomInteger_rules 2 e).
Proof.
  refine (range_rules_converge RandomInteger_rules 2
            (Expression "RandomInteger" [Integer 5; Integer 3])
            (Expression "RandomInteger"
               [Expression "List" [Integer 0; Integer 5]; Expression "List" [Integer 3]])
            _ _).
  - left.
  - apply nsteps_l with (Expression "RandomInteger" [Integer 5; Expression "List" [Integer 3]]).
    + exists (rule_count "RandomInteger"). split; [|reflexivity].
      unfold RandomInteger_rules. do 3 right. left.
    + apply nsteps_l with (Expression "RandomInteger"
                             [Expression "List" [Integer 0; Integer 5];
                              Expression "List" [Integer 3]]).
      * exists (rule_upper_bound_shape "RandomInteger" IntegerQ). split; [|reflexivity].
        unfold RandomInteger_rules. do 2 right. left.
      * apply nsteps_O.
Defined.

(** [RandomInteger[]], [RandomInteger[9]] and [RandomInteger[-9]] on a fresh
    world. *)
Lemma RandomInteger_short_forms_witness :
  (exists v, fst (RandomInteger_evaluate (Expression "RandomInteger" []) (Reference.boot [7]))
             = Ret (Some (Integer v)) /\ (v = 0 \/ v = 1)) /\
  (exists v, fst (RandomInteger_evaluate (Expression "RandomInteger" [Integer 9])
                    (Reference.boot [7]))
             = Ret (Some (Integer v)) /\ 0 <= v <= 9) /\
  fst (RandomInteger_evaluate (Expression "RandomInteger" [Integer (-9)]) (Reference.boot [7]))
  = Raise ValueError.
Proof.
  pose proof (@RandomInteger_short_forms Reference.host ReferenceFacts.pickle_laws
                ReferenceRanges.range_laws (Reference.boot [7])
                (ReferenceFacts.boot_sound [7])) as (Hnone & Hmax & Hbad).
  split; [exact Hnone|]. split.
  - exact (Hmax 9 ltac:(vm_compute; split; discriminate)).
  - exact (Hbad (-9) ltac:(left; lia)).
Defined.


(** [RandomComplex[]] and [RandomComplex[10]] on a fresh world. *)
Lemma RandomComplex_short_forms_witness :
  (exists value,
     fst (RandomComplex_evaluate (Expression "RandomComplex" []) (Reference.boot [7]))
     = Ret (Some value) /\ complex_within 0 0 1 1 value) /\
  exists re im,
    fst (RandomComplex_evaluate (Expression "RandomComplex" [Integer 10]) (Reference.boot [7]))
    = Ret (Some (Complex re im)) /\
    (0 <= re)%Q /\ (re <= 10)%Q /\ (im == 0)%Q.
Proof.
  pose proof (@RandomComplex_short_forms Reference.host ReferenceFacts.pickle_laws
                ReferenceRanges.range_laws (Reference.boot [7])
                (ReferenceFacts.boot_sound [7])) as (Hnone & Hmax).
  split; [exact Hnone|].
  exact (Hmax (Integer 10) (10%Q, 0%Q) ltac:(eexists; reflexivity)
           ltac:(vm_compute; reflexivity) ltac:(discriminate)).
Defined.

(** The stored world and a copy with another live generator and other
    entropy. *)
Lemma stored_state_determines_run_witness :
  let cs := [CallRandomInteger (Integer 1) (Integer 6);
             CallRandomReal (Integer 0) (Integer 1)] in
  let w' := mkWorld (Reference.state_of 99) (config stored_world) [] [5; 6] in
  fst (run_calls cs stored_world) = fst (run_calls cs w') /\
  same_stored_state (snd (run_calls cs stored_world)) (snd (run_calls cs w')).
Proof.
  refine (@stored_state_determines_run Reference.host
            [CallRandomInteger (Integer 1) (Integer 6); CallRandomReal (Integer 0) (Integer 1)]
            stored_world
            (mkWorld (Reference.state_of 99) (config stored_world) [] [5; 6]) _).
  exists 549755813895. split; vm_compute; reflexivity.
Defined.

(** [SeedRandom[42]] on two different worlds. *)
Lemma SeedRandom_apply_repeats_witness :
  let cs := [CallRandomInteger (Integer 1) (Integer 6);
             CallRandomReal (Integer 0) (Integer 1)] in
  fst (SeedRandom_apply (Integer 42) (Reference.boot [7])) = Ret (Some (Symbol "Null")) /\
  numpy_random (snd (SeedRandom_apply (Integer 42) (Reference.boot [7]))) = rk_seed 42 /\
  fst (run_calls cs (snd (SeedRandom_apply (Integer 42) (Reference.boot [7]))))
  = fst (run_calls cs (snd (SeedRandom_apply (Integer 42) stored_world))).
Proof.
  exact (@SeedRandom_apply_repeats Reference.host ReferenceFacts.pickle_laws 42
           [CallRandomInteger (Integer 1) (Integer 6); CallRandomReal (Integer 0) (Integer 1)]
           (Reference.boot [7]) stored_world (ReferenceFacts.boot_sound [7])
           stored_world_sound ltac:(lia)).
Defined.

(** [{2, x}] is no shape. *)
Lemma shape_leaves_are_checked_witness :
  let ns := Expression "List" [Integer 2; Symbol "x"] in
  let w := Reference.boot [7] in
  RandomReal_apply_list (Integer 0) (Integer 1) ns w
  = (Ret None,
     with_message (mkMessage "RandomReal" "array"
                     [Expression "RandomReal"
                        [Expression "List" [Integer 0; Integer 1]; ns]; ns]) w) /\
  RandomComplex_apply_list (Integer 0) (Complex 1 1) ns w
  = (Ret None,
     with_message (mkMessage "RandomComplex" "array"
                     [ns; Expression "RandomComplex"
                            [Expression "List" [Integer 0; Complex 1 1]; ns]]) w).
Proof.
  split.
  - exact (proj1 (@shape_leaves_are_checked Reference.host [Integer 2; Symbol "x"]
                    (Integer 0) (Integer 1) (Reference.boot [7]) ltac:(reflexivity))
             ltac:(eexists; reflexivity) ltac:(eexists; reflexivity)).
  - exact (proj1 (proj2 (@shape_leaves_are_checked Reference.host [Integer 2; Symbol "x"]
                           (Integer 0) (Complex 1 1) (Reference.boot [7]) ltac:(reflexivity)))
             ltac:(eexists; vm_compute; reflexivity) ltac:(eexists; vm_compute; reflexivity)).
Defined.

(** [RandomComplex[{0, 1 + I}, 3]] and [RandomComplex[{0, 1 + I}, -3]]. *)
Lemma RandomComplex_apply_list_count_witness :
  RandomComplex_apply_list (Integer 0) (Complex 1 1) (Integer 3) (Reference.boot [7])
  = RandomComplex_apply_list (Integer 0) (Complex 1 1) (shape_expr [3]) (Reference.boot [7]) /\
  RandomComplex_apply_list (Integer 0) (Complex 1 1) (Integer (-3)) (Reference.boot [7])
  = (Ret None,
     with_message (mkMessage "RandomComplex" "array"
                     [Integer (-3);
                      Expression "RandomComplex"
                        [Expression "List" [Integer 0; Complex 1 1]; Integer (-3)]])
       (Reference.boot [7])).
Proof.
  split.
  - exact (proj1 (@RandomComplex_apply_list_count Reference.host (Integer 0) (Complex 1 1) 3
                    (Reference.boot [7])) ltac:(lia)).
  - exact (proj2 (@RandomComplex_apply_list_count Reference.host (Integer 0) (Complex 1 1) (-3)
                    (Reference.boot [7])) ltac:(lia) ltac:(eexists; reflexivity)
             ltac:(eexists; reflexivity)).
Defined.
